(** * mbt_gym: the trading environment's state-transition engine

    A shallow embedding of [mbt_gym/gym/TradingEnvironment.py].

    Conventions of the embedding.
    - Python floats and numpy float arrays are idealised as exact rationals
      ([Q]); equalities between computed numbers are therefore stated with
      [==] ([Qeq]).  NaN and infinities have no counterpart, except that a
      [None] stored into a float32 bound array (numpy stores NaN) is kept
      as [None].
    - A numpy array of rank 0, 1 or 2 is an [ndarray]; arithmetic between
      arrays follows numpy's broadcasting rules, and raises [ValueError]
      where numpy does.
    - A Python exception is a [Raise]; a method of the environment is a
      function from the environment to a result paired with the mutated
      environment.  A raised exception ends the run: the partially
      mutated object is not tracked.
    - [print] appends a [Notice] to the [stdout] field of the environment.
    - The stochastic processes, the reward function and numpy's random
      generator are not part of this file's source: they are taken as
      interfaces (type classes), and every theorem holds for all their
      implementations. *)

From Stdlib Require Import String ZArith QArith Qround Qminmax Qabs List Bool Lia Lqa.
From Stdlib Require Import Setoid Morphisms.
Import ListNotations.
Open Scope string_scope.
Open Scope list_scope.
Open Scope Q_scope.

Set Implicit Arguments.

(** ** Exceptions and results *)

Inductive PyError : Type :=
| AssertionError (msg : string)
| NotImplementedError
| TypeError
| ValueError
| IndexError
| KeyError
| AttributeError
| ZeroDivisionError
| PyException (msg : string).

Inductive Result (A : Type) : Type :=
| Ok (a : A)
| Raise (e : PyError).

Arguments Ok {A} a.
Arguments Raise {A} e.

Definition rbind {A B : Type} (c : Result A) (k : A -> Result B) : Result B :=
  match c with
  | Ok a => k a
  | Raise e => Raise e
  end.

Declare Scope result_scope.
Delimit Scope result_scope with result.
Notation "x <- c ;; k" := (rbind c (fun x => k))
  (at level 100, c at next level, right associativity) : result_scope.
Notation "' pat <- c ;; k" := (rbind c (fun x => match x with pat => k end))
  (at level 100, pat pattern, c at next level, right associativity) : result_scope.
Open Scope result_scope.

Definition py_assert (b : bool) (msg : string) : Result unit :=
  if b then Ok tt else Raise (AssertionError msg).

Definition is_ok {A : Type} (r : Result A) : bool :=
  match r with Ok _ => true | Raise _ => false end.

(** ** Python scalars *)

(** [x or y] on an optional number: [None] and [0] are falsy. *)
Definition truthy (o : option Q) : bool :=
  match o with
  | Some q => negb (Qeq_bool q 0)
  | None => false
  end.

Definition py_or (o : option Q) (d : option Q) : option Q :=
  if truthy o then o else d.

(** [x / y] on Python floats. *)
Definition py_div (x y : Q) : Result Q :=
  if Qeq_bool y 0 then Raise ZeroDivisionError else Ok (x / y).

(** [np.round]: to the nearest integer, halves to the even neighbour. *)
Definition np_round (x : Q) : Q :=
  let f := Qfloor x in
  match (x - inject_Z f) ?= (1 # 2) with
  | Lt => inject_Z f
  | Gt => inject_Z (f + 1)
  | Eq => if Z.even f then inject_Z f else inject_Z (f + 1)
  end.

(** [np.clip x lo hi], which numpy computes as [minimum (maximum x lo) hi]. *)
Definition clip1 (lo hi x : Q) : Q := Qmin (Qmax x lo) hi.

(** [TradingEnvironment._clamp], a static method:
    [max(min(probability, 1), 0)]. *)
Definition _clamp (probability : Q) : Q := Qmax (Qmin probability 1) 0.

Definition Qgeb (x y : Q) : bool := Qle_bool y x.
Definition Qgtb (x y : Q) : bool := negb (Qle_bool x y).
Definition Qltb (x y : Q) : bool := negb (Qle_bool y x).

Definition of_bool (b : bool) : Q := if b then 1 else 0.

(** ** numpy arrays *)

Definition matrix := list (list Q).

Inductive ndarray : Type :=
| Scalar (x : Q)            (* shape ()     *)
| Vec (v : list Q)          (* shape (n,)   *)
| Mat (m : matrix).         (* shape (n, c) *)

Definition rank (a : ndarray) : nat :=
  match a with Scalar _ => 0 | Vec _ => 1 | Mat _ => 2 end.

(** Every array seen as two-dimensional, the way broadcasting pads shapes
    on the left with ones. *)
Definition as2d (a : ndarray) : matrix :=
  match a with
  | Scalar x => [[x]]
  | Vec v => [v]
  | Mat m => m
  end.

Definition of_rank (r : nat) (m : matrix) : ndarray :=
  match r with
  | O => Scalar (nth 0 (nth 0 m []) 0)
  | S O => Vec (nth 0 m [])
  | _ => Mat m
  end.

(** [shape[1]] of a matrix; a matrix without rows is taken to have no
    columns. *)
Definition ncols (m : matrix) : nat :=
  match m with
  | [] => O
  | r :: _ => length r
  end.

Definition compatible (n m : nat) : bool :=
  Nat.eqb n m || Nat.eqb n 1 || Nat.eqb m 1.

(** An axis of length one is stretched to the length of the other
    operand. *)
Definition stretch {A : Type} (k : nat) (l : list A) : list A :=
  match l with
  | [x] => repeat x k
  | _ => l
  end.

Fixpoint zipWithM {A B C : Type} (f : A -> B -> Result C)
  (a : list A) (b : list B) : Result (list C) :=
  match a, b with
  | x :: a', y :: b' =>
      c <- f x y ;; cs <- zipWithM f a' b' ;; Ok (c :: cs)
  | _, _ => Ok []
  end.

(** Broadcasting along one axis. *)
Definition bzip {A B C : Type} (f : A -> B -> Result C)
  (a : list A) (b : list B) : Result (list C) :=
  if compatible (length a) (length b)
  then zipWithM f (stretch (length b) a) (stretch (length a) b)
  else Raise ValueError.

(** A binary ufunc, [a + b], [a * b], ... *)
Definition np_binop (f : Q -> Q -> Q) (a b : ndarray) : Result ndarray :=
  m <- bzip (bzip (fun x y => Ok (f x y))) (as2d a) (as2d b) ;;
  Ok (of_rank (Nat.max (rank a) (rank b)) m).

Definition np_add := np_binop Qplus.
Definition np_sub := np_binop Qminus.
Definition np_mul := np_binop Qmult.

Definition np_map (f : Q -> Q) (a : ndarray) : ndarray :=
  match a with
  | Scalar x => Scalar (f x)
  | Vec v => Vec (map f v)
  | Mat m => Mat (map (map f) m)
  end.

Definition vsum (v : list Q) : Q := fold_right Qplus 0 v.

(** [np.sum(a, axis=1)]. *)
Definition np_sum_axis1 (a : ndarray) : Result ndarray :=
  match a with
  | Mat m => Ok (Vec (map vsum m))
  | _ => Raise ValueError
  end.

(** [np.squeeze]: axes of length one are dropped. *)
Definition np_squeeze (a : ndarray) : ndarray :=
  match a with
  | Mat [[x]] => Scalar x
  | Mat [r] => Vec r
  | Mat m =>
      if forallb (fun r => Nat.eqb (length r) 1) m
      then Vec (map (fun r => nth 0 r 0) m)
      else Mat m
  | Vec [x] => Scalar x
  | a => a
  end.

(** [a.reshape(-1, 1)] of a one-dimensional array. *)
Definition column (v : list Q) : matrix := map (fun x => [x]) v.

(** [np.concatenate((a, b), axis=1)] and [np.append(a, b, axis=1)]: the
    row counts must agree. *)
Definition hstack (a b : matrix) : Result matrix :=
  if Nat.eqb (length a) (length b)
  then Ok (map (fun p => fst p ++ snd p) (combine a b))
  else Raise ValueError.

(** [m[:, j]]. *)
Definition getcol (j : nat) (m : matrix) : Result (list Q) :=
  if forallb (fun r => Nat.ltb j (length r)) m
  then Ok (map (fun r => nth j r 0) m)
  else Raise IndexError.

(** [m[:, lo:hi]] for a read. *)
Definition slice_cols (lo hi : nat) (m : matrix) : matrix :=
  map (fun r => firstn (hi - lo) (skipn lo r)) m.

Fixpoint set_nth {A : Type} (j : nat) (x : A) (l : list A) : list A :=
  match l, j with
  | [], _ => []
  | _ :: t, O => x :: t
  | h :: t, S j' => h :: set_nth j' x t
  end.

(** The value of an in-place update of a one-dimensional view of [n]
    entries: the result of the broadcast must have the shape of the view,
    and an output operand is never stretched. *)
Definition broadcast_to_view (n : nat) (a : ndarray) : Result (list Q) :=
  match a with
  | Scalar x => Ok (repeat x n)
  | Vec v =>
      if Nat.eqb (length v) n then Ok v
      else if Nat.eqb (length v) 1 then Ok (repeat (nth 0 v 0) n)
      else Raise ValueError
  | Mat _ => Raise ValueError
  end.

(** [m[:, j] = v] for a vector [v] that has one entry per row. *)
Definition putcol (j : nat) (v : list Q) (m : matrix) : matrix :=
  map (fun p => set_nth j (snd p) (fst p)) (combine m v).

(** [m[:, j] += a] and [m[:, j] -= a]. *)
Definition iop_col (f : Q -> Q -> Q) (j : nat) (a : ndarray) (m : matrix)
  : Result matrix :=
  old <- getcol j m ;;
  v <- broadcast_to_view (length m) a ;;
  Ok (putcol j (map (fun p => f (fst p) (snd p)) (combine old v)) m).

(** [m[:, j] = a]. *)
Definition setcol (j : nat) (a : ndarray) (m : matrix) : Result matrix :=
  _ <- getcol j m ;;
  v <- broadcast_to_view (length m) a ;;
  Ok (putcol j v m).

(** [m[:, lo:hi] = src]: the slice is cut to the width of the row, and the
    source is broadcast to the shape of the slice. *)
Definition splice_row (lo hi : nat) (src row : list Q) : Result (list Q) :=
  let lo' := Nat.min lo (length row) in
  let hi' := Nat.max lo' (Nat.min hi (length row)) in
  let k := (hi' - lo')%nat in
  if Nat.eqb (length src) k then Ok (firstn lo' row ++ src ++ skipn hi' row)
  else if Nat.eqb (length src) 1
       then Ok (firstn lo' row ++ repeat (nth 0 src 0) k ++ skipn hi' row)
       else Raise ValueError.

Definition set_slice (lo hi : nat) (src : ndarray) (m : matrix) : Result matrix :=
  let rows := as2d src in
  if Nat.eqb (length rows) (length m)
  then zipWithM (fun s r => splice_row lo hi s r) rows m
  else if Nat.eqb (length rows) 1
       then zipWithM (fun s r => splice_row lo hi s r)
                     (repeat (nth 0 rows []) (length m)) m
       else Raise ValueError.

(** [a.reshape(n, w)]. *)
Fixpoint chunks (w n : nat) (l : list Q) : matrix :=
  match n with
  | O => []
  | S n' => firstn w l :: chunks w n' (skipn w l)
  end.

Definition flatten (a : ndarray) : list Q := concat (as2d a).

Definition has_shape (n w : nat) (a : ndarray) : bool :=
  match a with
  | Mat m => Nat.eqb (length m) n && forallb (fun r => Nat.eqb (length r) w) m
  | _ => false
  end.

Definition reshape (n w : nat) (a : ndarray) : Result matrix :=
  if Nat.eqb (length (flatten a)) (n * w)
  then Ok (chunks w n (flatten a))
  else Raise ValueError.

(** ** The interfaces the engine consumes *)

(** The stochastic processes (midprice, arrival, fill-probability and
    price-impact models).  The engine keeps them in one registry and calls
    them through one interface; a process carries its own random
    generator, so a draw returns the process it leaves behind. *)
Module Process.

Class StochasticProcessModel (P : Type) : Type := {
  current_state : P -> matrix;
  initial_vector_state : P -> matrix;
  min_value : P -> matrix;
  max_value : P -> matrix;
  step_size : P -> Q;
  set_step_size : Q -> P -> P;
  num_trajectories : P -> nat;
  set_num_trajectories : nat -> P -> P;
  reset : P -> P;
  seed : N -> P -> P;
  update : option ndarray -> option ndarray -> matrix -> P -> Result P;
  (* ArrivalModel *)
  get_arrivals : P -> Result (ndarray * P);
  (* FillProbabilityModel *)
  get_fills : matrix -> P -> Result (ndarray * P);
  max_depth : P -> option Q;
  (* PriceImpactModel *)
  get_impact : matrix -> P -> Result ndarray;
  max_speed : P -> option Q;
  (* the default midprice model, built from a step size, a batch size
     and the entropy its unseeded generator draws *)
  BrownianMotionMidpriceModel : Q -> nat -> Z -> P
}.

End Process.

Module Reward.

Class RewardFunction (R : Type) : Type := {
  calculate : matrix -> matrix -> matrix -> bool -> R -> Result (ndarray * R);
  reset : matrix -> R -> R;
  (* [hasattr(reward_function, "step_size")]: [None] when it has none *)
  step_size : R -> option Q;
  set_step_size : Q -> R -> R;
  PnL : R
}.

End Reward.

Module Random.

(** [np.random.default_rng(seed)] and [Generator.integers].  numpy
    rejects a negative seed, so a seed is a natural number; without a
    seed the generator is built from the entropy of the operating
    system, the second argument. *)
Class Generator (G : Type) : Type := {
  default_rng : option N -> Z -> G;
  integers : Q -> Q -> nat -> G -> Result (list Q * G)
}.

End Random.

(** ** Plain data of the environment *)

Definition MARKET_MAKING_ACTION_TYPES : list string :=
  ["touch"; "limit"; "limit_and_market"].
Definition EXECUTION_ACTION_TYPES : list string := ["speed"].
Definition ACTION_TYPES : list string :=
  MARKET_MAKING_ACTION_TYPES ++ EXECUTION_ACTION_TYPES.

Definition CASH_INDEX : nat := 0.
Definition INVENTORY_INDEX : nat := 1.
Definition TIME_INDEX : nat := 2.
Definition ASSET_PRICE_INDEX : nat := 3.

Definition BID_INDEX : nat := 0.
Definition ASK_INDEX : nat := 1.

(** [x in l] on strings. *)
Definition str_in (x : string) (l : list string) : bool :=
  existsb (String.eqb x) l.

(** What [initial_inventory] may hold. *)
Inductive PyInventory : Type :=
| InvInt (z : Z)
| InvTuple (t : list Q)
| InvOther.

(** What [random_start] may hold; a callable answers its k-th call. *)
Inductive StartTime : Type :=
| StartNumber (t : Q)
| StartCallable (f : nat -> Q)
| StartOther.

(** A bound of a float32 array: [None] is the NaN numpy stores for a
    Python [None]. *)
Inductive Space : Type :=
| MultiBinary (n : nat)
| Box (low high : list (option Q)).

Definition space_shape0 (s : Space) : nat :=
  match s with
  | MultiBinary n => n
  | Box low _ => length low
  end.

Definition PyDict := list (string * Q).

Inductive Infos : Type :=
| InfoDict (d : PyDict)
| InfoList (l : list PyDict).

Definition InfoCalculator := matrix -> matrix -> ndarray -> Infos.

Inductive Notice : Type :=
| ClippingCash (not_clipped clipped : list Q)
| ClippingInventory (not_clipped clipped : list Q)
| SettingStepSize (component : string) (v : Q)
| SettingNumTrajectories (component : string) (v : nat).

(** ** The environment *)

Section Engine.

Context {P R G : Type}.
Context {PM : Process.StochasticProcessModel P}.
Context {RF : Reward.RewardFunction R}.
Context {RG : Random.Generator G}.

(** The arguments of [__init__]. *)
Record Config : Type := {
  cfg_terminal_time : Q;
  cfg_n_steps : Z;
  cfg_reward_function : option R;
  cfg_midprice_model : option P;
  cfg_arrival_model : option P;
  cfg_fill_probability_model : option P;
  cfg_price_impact_model : option P;
  cfg_action_type : string;
  cfg_initial_cash : Q;
  cfg_initial_inventory : PyInventory;
  cfg_max_inventory : Q;
  cfg_max_cash : option Q;
  cfg_max_stock_price : option Q;
  cfg_max_depth : option Q;
  cfg_max_speed : option Q;
  cfg_half_spread : option Q;
  cfg_random_start : StartTime;
  cfg_info_calculator : option InfoCalculator;
  cfg_seed : option N;
  cfg_num_trajectories : nat;
  cfg_os_entropy : Z
}.

(** The same arguments with one of them replaced. *)

Definition with_midprice_model (v : option P) (c : Config) : Config :=
  Build_Config (cfg_terminal_time c) (cfg_n_steps c) (cfg_reward_function c) v
    (cfg_arrival_model c) (cfg_fill_probability_model c)
    (cfg_price_impact_model c) (cfg_action_type c) (cfg_initial_cash c)
    (cfg_initial_inventory c) (cfg_max_inventory c) (cfg_max_cash c)
    (cfg_max_stock_price c) (cfg_max_depth c) (cfg_max_speed c)
    (cfg_half_spread c) (cfg_random_start c) (cfg_info_calculator c) (cfg_seed
    c) (cfg_num_trajectories c) (cfg_os_entropy c).

Definition with_arrival_model (v : option P) (c : Config) : Config :=
  Build_Config (cfg_terminal_time c) (cfg_n_steps c) (cfg_reward_function c)
    (cfg_midprice_model c) v (cfg_fill_probability_model c)
    (cfg_price_impact_model c) (cfg_action_type c) (cfg_initial_cash c)
    (cfg_initial_inventory c) (cfg_max_inventory c) (cfg_max_cash c)
    (cfg_max_stock_price c) (cfg_max_depth c) (cfg_max_speed c)
    (cfg_half_spread c) (cfg_random_start c) (cfg_info_calculator c) (cfg_seed
    c) (cfg_num_trajectories c) (cfg_os_entropy c).

Definition with_fill_probability_model (v : option P) (c : Config) : Config :=
  Build_Config (cfg_terminal_time c) (cfg_n_steps c) (cfg_reward_function c)
    (cfg_midprice_model c) (cfg_arrival_model c) v (cfg_price_impact_model c)
    (cfg_action_type c) (cfg_initial_cash c) (cfg_initial_inventory c)
    (cfg_max_inventory c) (cfg_max_cash c) (cfg_max_stock_price c)
    (cfg_max_depth c) (cfg_max_speed c) (cfg_half_spread c) (cfg_random_start
    c) (cfg_info_calculator c) (cfg_seed c) (cfg_num_trajectories c)
    (cfg_os_entropy c).

Definition with_price_impact_model (v : option P) (c : Config) : Config :=
  Build_Config (cfg_terminal_time c) (cfg_n_steps c) (cfg_reward_function c)
    (cfg_midprice_model c) (cfg_arrival_model c) (cfg_fill_probability_model
    c) v (cfg_action_type c) (cfg_initial_cash c) (cfg_initial_inventory c)
    (cfg_max_inventory c) (cfg_max_cash c) (cfg_max_stock_price c)
    (cfg_max_depth c) (cfg_max_speed c) (cfg_half_spread c) (cfg_random_start
    c) (cfg_info_calculator c) (cfg_seed c) (cfg_num_trajectories c)
    (cfg_os_entropy c).

Definition with_action_type (v : string) (c : Config) : Config :=
  Build_Config (cfg_terminal_time c) (cfg_n_steps c) (cfg_reward_function c)
    (cfg_midprice_model c) (cfg_arrival_model c) (cfg_fill_probability_model
    c) (cfg_price_impact_model c) v (cfg_initial_cash c)
    (cfg_initial_inventory c) (cfg_max_inventory c) (cfg_max_cash c)
    (cfg_max_stock_price c) (cfg_max_depth c) (cfg_max_speed c)
    (cfg_half_spread c) (cfg_random_start c) (cfg_info_calculator c) (cfg_seed
    c) (cfg_num_trajectories c) (cfg_os_entropy c).

Definition with_initial_cash (v : Q) (c : Config) : Config :=
  Build_Config (cfg_terminal_time c) (cfg_n_steps c) (cfg_reward_function c)
    (cfg_midprice_model c) (cfg_arrival_model c) (cfg_fill_probability_model
    c) (cfg_price_impact_model c) (cfg_action_type c) v (cfg_initial_inventory
    c) (cfg_max_inventory c) (cfg_max_cash c) (cfg_max_stock_price c)
    (cfg_max_depth c) (cfg_max_speed c) (cfg_half_spread c) (cfg_random_start
    c) (cfg_info_calculator c) (cfg_seed c) (cfg_num_trajectories c)
    (cfg_os_entropy c).

Definition with_initial_inventory (v : PyInventory) (c : Config) : Config :=
  Build_Config (cfg_terminal_time c) (cfg_n_steps c) (cfg_reward_function c)
    (cfg_midprice_model c) (cfg_arrival_model c) (cfg_fill_probability_model
    c) (cfg_price_impact_model c) (cfg_action_type c) (cfg_initial_cash c) v
    (cfg_max_inventory c) (cfg_max_cash c) (cfg_max_stock_price c)
    (cfg_max_depth c) (cfg_max_speed c) (cfg_half_spread c) (cfg_random_start
    c) (cfg_info_calculator c) (cfg_seed c) (cfg_num_trajectories c)
    (cfg_os_entropy c).

Definition with_max_inventory (v : Q) (c : Config) : Config :=
  Build_Config (cfg_terminal_time c) (cfg_n_steps c) (cfg_reward_function c)
    (cfg_midprice_model c) (cfg_arrival_model c) (cfg_fill_probability_model
    c) (cfg_price_impact_model c) (cfg_action_type c) (cfg_initial_cash c)
    (cfg_initial_inventory c) v (cfg_max_cash c) (cfg_max_stock_price c)
    (cfg_max_depth c) (cfg_max_speed c) (cfg_half_spread c) (cfg_random_start
    c) (cfg_info_calculator c) (cfg_seed c) (cfg_num_trajectories c)
    (cfg_os_entropy c).

Definition with_max_cash (v : option Q) (c : Config) : Config :=
  Build_Config (cfg_terminal_time c) (cfg_n_steps c) (cfg_reward_function c)
    (cfg_midprice_model c) (cfg_arrival_model c) (cfg_fill_probability_model
    c) (cfg_price_impact_model c) (cfg_action_type c) (cfg_initial_cash c)
    (cfg_initial_inventory c) (cfg_max_inventory c) v (cfg_max_stock_price c)
    (cfg_max_depth c) (cfg_max_speed c) (cfg_half_spread c) (cfg_random_start
    c) (cfg_info_calculator c) (cfg_seed c) (cfg_num_trajectories c)
    (cfg_os_entropy c).

Definition with_max_depth (v : option Q) (c : Config) : Config :=
  Build_Config (cfg_terminal_time c) (cfg_n_steps c) (cfg_reward_function c)
    (cfg_midprice_model c) (cfg_arrival_model c) (cfg_fill_probability_model
    c) (cfg_price_impact_model c) (cfg_action_type c) (cfg_initial_cash c)
    (cfg_initial_inventory c) (cfg_max_inventory c) (cfg_max_cash c)
    (cfg_max_stock_price c) v (cfg_max_speed c) (cfg_half_spread c)
    (cfg_random_start c) (cfg_info_calculator c) (cfg_seed c)
    (cfg_num_trajectories c) (cfg_os_entropy c).

Definition with_half_spread (v : option Q) (c : Config) : Config :=
  Build_Config (cfg_terminal_time c) (cfg_n_steps c) (cfg_reward_function c)
    (cfg_midprice_model c) (cfg_arrival_model c) (cfg_fill_probability_model
    c) (cfg_price_impact_model c) (cfg_action_type c) (cfg_initial_cash c)
    (cfg_initial_inventory c) (cfg_max_inventory c) (cfg_max_cash c)
    (cfg_max_stock_price c) (cfg_max_depth c) (cfg_max_speed c) v
    (cfg_random_start c) (cfg_info_calculator c) (cfg_seed c)
    (cfg_num_trajectories c) (cfg_os_entropy c).


Definition with_seed (v : option N) (c : Config) : Config :=
  Build_Config (cfg_terminal_time c) (cfg_n_steps c) (cfg_reward_function c)
    (cfg_midprice_model c) (cfg_arrival_model c) (cfg_fill_probability_model
    c) (cfg_price_impact_model c) (cfg_action_type c) (cfg_initial_cash c)
    (cfg_initial_inventory c) (cfg_max_inventory c) (cfg_max_cash c)
    (cfg_max_stock_price c) (cfg_max_depth c) (cfg_max_speed c)
    (cfg_half_spread c) (cfg_random_start c) (cfg_info_calculator c) v
    (cfg_num_trajectories c) (cfg_os_entropy c).

Definition with_reward_function (v : option R) (c : Config) : Config :=
  Build_Config (cfg_terminal_time c) (cfg_n_steps c) v (cfg_midprice_model c)
    (cfg_arrival_model c) (cfg_fill_probability_model c)
    (cfg_price_impact_model c) (cfg_action_type c) (cfg_initial_cash c)
    (cfg_initial_inventory c) (cfg_max_inventory c) (cfg_max_cash c)
    (cfg_max_stock_price c) (cfg_max_depth c) (cfg_max_speed c)
    (cfg_half_spread c) (cfg_random_start c) (cfg_info_calculator c) (cfg_seed
    c) (cfg_num_trajectories c) (cfg_os_entropy c).

Definition with_terminal_time (v : Q) (c : Config) : Config :=
  Build_Config v (cfg_n_steps c) (cfg_reward_function c) (cfg_midprice_model
    c) (cfg_arrival_model c) (cfg_fill_probability_model c)
    (cfg_price_impact_model c) (cfg_action_type c) (cfg_initial_cash c)
    (cfg_initial_inventory c) (cfg_max_inventory c) (cfg_max_cash c)
    (cfg_max_stock_price c) (cfg_max_depth c) (cfg_max_speed c)
    (cfg_half_spread c) (cfg_random_start c) (cfg_info_calculator c) (cfg_seed
    c) (cfg_num_trajectories c) (cfg_os_entropy c).

Definition with_n_steps (v : Z) (c : Config) : Config :=
  Build_Config (cfg_terminal_time c) v (cfg_reward_function c)
    (cfg_midprice_model c) (cfg_arrival_model c) (cfg_fill_probability_model
    c) (cfg_price_impact_model c) (cfg_action_type c) (cfg_initial_cash c)
    (cfg_initial_inventory c) (cfg_max_inventory c) (cfg_max_cash c)
    (cfg_max_stock_price c) (cfg_max_depth c) (cfg_max_speed c)
    (cfg_half_spread c) (cfg_random_start c) (cfg_info_calculator c) (cfg_seed
    c) (cfg_num_trajectories c) (cfg_os_entropy c).

Definition with_os_entropy (v : Z) (c : Config) : Config :=
  Build_Config (cfg_terminal_time c) (cfg_n_steps c) (cfg_reward_function c)
    (cfg_midprice_model c) (cfg_arrival_model c) (cfg_fill_probability_model
    c) (cfg_price_impact_model c) (cfg_action_type c) (cfg_initial_cash c)
    (cfg_initial_inventory c) (cfg_max_inventory c) (cfg_max_cash c)
    (cfg_max_stock_price c) (cfg_max_depth c) (cfg_max_speed c)
    (cfg_half_spread c) (cfg_random_start c) (cfg_info_calculator c) (cfg_seed
    c) (cfg_num_trajectories c) v.

(** The attributes of a [TradingEnvironment]. *)
Record Env : Type := {
  terminal_time : Q;
  _num_trajectories : nat;
  n_steps : Z;
  _step_size : Q;
  reward_function : R;
  midprice_model : P;
  arrival_model : option P;
  fill_probability_model : option P;
  price_impact_model : option P;
  action_type : string;
  stochastic_processes : list string;  (* the keys of the ordered dictionary *)
  stochastic_process_indices : list (string * (nat * nat));
  initial_cash : Q;
  initial_inventory : PyInventory;
  max_inventory : Q;
  rng : G;
  start_time : StartTime;
  state : matrix;
  max_stock_price : Q;
  max_cash : Q;
  max_depth : option Q;
  max_speed : option Q;
  observation_space : Space;
  action_space : option Space;
  half_spread : option Q;
  info_calculator : option InfoCalculator;
  empty_infos : Infos;
  multiplier : matrix;
  stdout : list Notice;  (* what [print] has written so far *)
  start_calls : nat;  (* how often a callable start time was invoked *)
  os_entropy : Z  (* the entropy an unseeded generator draws *)
}.

(** Assignments to single attributes. *)

Definition set_state (v : matrix) (e : Env) : Env :=
  Build_Env (terminal_time e) (_num_trajectories e) (n_steps e) (_step_size e)
    (reward_function e) (midprice_model e) (arrival_model e)
    (fill_probability_model e) (price_impact_model e) (action_type e)
    (stochastic_processes e) (stochastic_process_indices e) (initial_cash e)
    (initial_inventory e) (max_inventory e) (rng e) (start_time e) v
    (max_stock_price e) (max_cash e) (max_depth e) (max_speed e)
    (observation_space e) (action_space e) (half_spread e) (info_calculator e)
    (empty_infos e) (multiplier e) (stdout e) (start_calls e) (os_entropy e).

Definition set_rng (v : G) (e : Env) : Env :=
  Build_Env (terminal_time e) (_num_trajectories e) (n_steps e) (_step_size e)
    (reward_function e) (midprice_model e) (arrival_model e)
    (fill_probability_model e) (price_impact_model e) (action_type e)
    (stochastic_processes e) (stochastic_process_indices e) (initial_cash e)
    (initial_inventory e) (max_inventory e) v (start_time e) (state e)
    (max_stock_price e) (max_cash e) (max_depth e) (max_speed e)
    (observation_space e) (action_space e) (half_spread e) (info_calculator e)
    (empty_infos e) (multiplier e) (stdout e) (start_calls e) (os_entropy e).

Definition set_stdout (v : list Notice) (e : Env) : Env :=
  Build_Env (terminal_time e) (_num_trajectories e) (n_steps e) (_step_size e)
    (reward_function e) (midprice_model e) (arrival_model e)
    (fill_probability_model e) (price_impact_model e) (action_type e)
    (stochastic_processes e) (stochastic_process_indices e) (initial_cash e)
    (initial_inventory e) (max_inventory e) (rng e) (start_time e) (state e)
    (max_stock_price e) (max_cash e) (max_depth e) (max_speed e)
    (observation_space e) (action_space e) (half_spread e) (info_calculator e)
    (empty_infos e) (multiplier e) v (start_calls e) (os_entropy e).

Definition set_start_calls (v : nat) (e : Env) : Env :=
  Build_Env (terminal_time e) (_num_trajectories e) (n_steps e) (_step_size e)
    (reward_function e) (midprice_model e) (arrival_model e)
    (fill_probability_model e) (price_impact_model e) (action_type e)
    (stochastic_processes e) (stochastic_process_indices e) (initial_cash e)
    (initial_inventory e) (max_inventory e) (rng e) (start_time e) (state e)
    (max_stock_price e) (max_cash e) (max_depth e) (max_speed e)
    (observation_space e) (action_space e) (half_spread e) (info_calculator e)
    (empty_infos e) (multiplier e) (stdout e) v (os_entropy e).

Definition set__step_size (v : Q) (e : Env) : Env :=
  Build_Env (terminal_time e) (_num_trajectories e) (n_steps e) v
    (reward_function e) (midprice_model e) (arrival_model e)
    (fill_probability_model e) (price_impact_model e) (action_type e)
    (stochastic_processes e) (stochastic_process_indices e) (initial_cash e)
    (initial_inventory e) (max_inventory e) (rng e) (start_time e) (state e)
    (max_stock_price e) (max_cash e) (max_depth e) (max_speed e)
    (observation_space e) (action_space e) (half_spread e) (info_calculator e)
    (empty_infos e) (multiplier e) (stdout e) (start_calls e) (os_entropy e).

Definition set__num_trajectories (v : nat) (e : Env) : Env :=
  Build_Env (terminal_time e) v (n_steps e) (_step_size e) (reward_function e)
    (midprice_model e) (arrival_model e) (fill_probability_model e)
    (price_impact_model e) (action_type e) (stochastic_processes e)
    (stochastic_process_indices e) (initial_cash e) (initial_inventory e)
    (max_inventory e) (rng e) (start_time e) (state e) (max_stock_price e)
    (max_cash e) (max_depth e) (max_speed e) (observation_space e)
    (action_space e) (half_spread e) (info_calculator e) (empty_infos e)
    (multiplier e) (stdout e) (start_calls e) (os_entropy e).

Definition set_reward_function (v : R) (e : Env) : Env :=
  Build_Env (terminal_time e) (_num_trajectories e) (n_steps e) (_step_size e)
    v (midprice_model e) (arrival_model e) (fill_probability_model e)
    (price_impact_model e) (action_type e) (stochastic_processes e)
    (stochastic_process_indices e) (initial_cash e) (initial_inventory e)
    (max_inventory e) (rng e) (start_time e) (state e) (max_stock_price e)
    (max_cash e) (max_depth e) (max_speed e) (observation_space e)
    (action_space e) (half_spread e) (info_calculator e) (empty_infos e)
    (multiplier e) (stdout e) (start_calls e) (os_entropy e).

Definition set_midprice_model (v : P) (e : Env) : Env :=
  Build_Env (terminal_time e) (_num_trajectories e) (n_steps e) (_step_size e)
    (reward_function e) v (arrival_model e) (fill_probability_model e)
    (price_impact_model e) (action_type e) (stochastic_processes e)
    (stochastic_process_indices e) (initial_cash e) (initial_inventory e)
    (max_inventory e) (rng e) (start_time e) (state e) (max_stock_price e)
    (max_cash e) (max_depth e) (max_speed e) (observation_space e)
    (action_space e) (half_spread e) (info_calculator e) (empty_infos e)
    (multiplier e) (stdout e) (start_calls e) (os_entropy e).

Definition set_arrival_model (v : option P) (e : Env) : Env :=
  Build_Env (terminal_time e) (_num_trajectories e) (n_steps e) (_step_size e)
    (reward_function e) (midprice_model e) v (fill_probability_model e)
    (price_impact_model e) (action_type e) (stochastic_processes e)
    (stochastic_process_indices e) (initial_cash e) (initial_inventory e)
    (max_inventory e) (rng e) (start_time e) (state e) (max_stock_price e)
    (max_cash e) (max_depth e) (max_speed e) (observation_space e)
    (action_space e) (half_spread e) (info_calculator e) (empty_infos e)
    (multiplier e) (stdout e) (start_calls e) (os_entropy e).

Definition set_fill_probability_model (v : option P) (e : Env) : Env :=
  Build_Env (terminal_time e) (_num_trajectories e) (n_steps e) (_step_size e)
    (reward_function e) (midprice_model e) (arrival_model e) v
    (price_impact_model e) (action_type e) (stochastic_processes e)
    (stochastic_process_indices e) (initial_cash e) (initial_inventory e)
    (max_inventory e) (rng e) (start_time e) (state e) (max_stock_price e)
    (max_cash e) (max_depth e) (max_speed e) (observation_space e)
    (action_space e) (half_spread e) (info_calculator e) (empty_infos e)
    (multiplier e) (stdout e) (start_calls e) (os_entropy e).

Definition set_price_impact_model (v : option P) (e : Env) : Env :=
  Build_Env (terminal_time e) (_num_trajectories e) (n_steps e) (_step_size e)
    (reward_function e) (midprice_model e) (arrival_model e)
    (fill_probability_model e) v (action_type e) (stochastic_processes e)
    (stochastic_process_indices e) (initial_cash e) (initial_inventory e)
    (max_inventory e) (rng e) (start_time e) (state e) (max_stock_price e)
    (max_cash e) (max_depth e) (max_speed e) (observation_space e)
    (action_space e) (half_spread e) (info_calculator e) (empty_infos e)
    (multiplier e) (stdout e) (start_calls e) (os_entropy e).

Definition set_stochastic_processes (v : list string) (e : Env) : Env :=
  Build_Env (terminal_time e) (_num_trajectories e) (n_steps e) (_step_size e)
    (reward_function e) (midprice_model e) (arrival_model e)
    (fill_probability_model e) (price_impact_model e) (action_type e) v
    (stochastic_process_indices e) (initial_cash e) (initial_inventory e)
    (max_inventory e) (rng e) (start_time e) (state e) (max_stock_price e)
    (max_cash e) (max_depth e) (max_speed e) (observation_space e)
    (action_space e) (half_spread e) (info_calculator e) (empty_infos e)
    (multiplier e) (stdout e) (start_calls e) (os_entropy e).

Definition set_stochastic_process_indices (v : list (string * (nat * nat))) (e : Env) : Env :=
  Build_Env (terminal_time e) (_num_trajectories e) (n_steps e) (_step_size e)
    (reward_function e) (midprice_model e) (arrival_model e)
    (fill_probability_model e) (price_impact_model e) (action_type e)
    (stochastic_processes e) v (initial_cash e) (initial_inventory e)
    (max_inventory e) (rng e) (start_time e) (state e) (max_stock_price e)
    (max_cash e) (max_depth e) (max_speed e) (observation_space e)
    (action_space e) (half_spread e) (info_calculator e) (empty_infos e)
    (multiplier e) (stdout e) (start_calls e) (os_entropy e).

Definition set_max_stock_price (v : Q) (e : Env) : Env :=
  Build_Env (terminal_time e) (_num_trajectories e) (n_steps e) (_step_size e)
    (reward_function e) (midprice_model e) (arrival_model e)
    (fill_probability_model e) (price_impact_model e) (action_type e)
    (stochastic_processes e) (stochastic_process_indices e) (initial_cash e)
    (initial_inventory e) (max_inventory e) (rng e) (start_time e) (state e) v
    (max_cash e) (max_depth e) (max_speed e) (observation_space e)
    (action_space e) (half_spread e) (info_calculator e) (empty_infos e)
    (multiplier e) (stdout e) (start_calls e) (os_entropy e).

Definition set_max_cash (v : Q) (e : Env) : Env :=
  Build_Env (terminal_time e) (_num_trajectories e) (n_steps e) (_step_size e)
    (reward_function e) (midprice_model e) (arrival_model e)
    (fill_probability_model e) (price_impact_model e) (action_type e)
    (stochastic_processes e) (stochastic_process_indices e) (initial_cash e)
    (initial_inventory e) (max_inventory e) (rng e) (start_time e) (state e)
    (max_stock_price e) v (max_depth e) (max_speed e) (observation_space e)
    (action_space e) (half_spread e) (info_calculator e) (empty_infos e)
    (multiplier e) (stdout e) (start_calls e) (os_entropy e).

Definition set_max_depth (v : option Q) (e : Env) : Env :=
  Build_Env (terminal_time e) (_num_trajectories e) (n_steps e) (_step_size e)
    (reward_function e) (midprice_model e) (arrival_model e)
    (fill_probability_model e) (price_impact_model e) (action_type e)
    (stochastic_processes e) (stochastic_process_indices e) (initial_cash e)
    (initial_inventory e) (max_inventory e) (rng e) (start_time e) (state e)
    (max_stock_price e) (max_cash e) v (max_speed e) (observation_space e)
    (action_space e) (half_spread e) (info_calculator e) (empty_infos e)
    (multiplier e) (stdout e) (start_calls e) (os_entropy e).

Definition set_max_speed (v : option Q) (e : Env) : Env :=
  Build_Env (terminal_time e) (_num_trajectories e) (n_steps e) (_step_size e)
    (reward_function e) (midprice_model e) (arrival_model e)
    (fill_probability_model e) (price_impact_model e) (action_type e)
    (stochastic_processes e) (stochastic_process_indices e) (initial_cash e)
    (initial_inventory e) (max_inventory e) (rng e) (start_time e) (state e)
    (max_stock_price e) (max_cash e) (max_depth e) v (observation_space e)
    (action_space e) (half_spread e) (info_calculator e) (empty_infos e)
    (multiplier e) (stdout e) (start_calls e) (os_entropy e).

Definition set_observation_space (v : Space) (e : Env) : Env :=
  Build_Env (terminal_time e) (_num_trajectories e) (n_steps e) (_step_size e)
    (reward_function e) (midprice_model e) (arrival_model e)
    (fill_probability_model e) (price_impact_model e) (action_type e)
    (stochastic_processes e) (stochastic_process_indices e) (initial_cash e)
    (initial_inventory e) (max_inventory e) (rng e) (start_time e) (state e)
    (max_stock_price e) (max_cash e) (max_depth e) (max_speed e) v
    (action_space e) (half_spread e) (info_calculator e) (empty_infos e)
    (multiplier e) (stdout e) (start_calls e) (os_entropy e).

Definition set_action_space (v : option Space) (e : Env) : Env :=
  Build_Env (terminal_time e) (_num_trajectories e) (n_steps e) (_step_size e)
    (reward_function e) (midprice_model e) (arrival_model e)
    (fill_probability_model e) (price_impact_model e) (action_type e)
    (stochastic_processes e) (stochastic_process_indices e) (initial_cash e)
    (initial_inventory e) (max_inventory e) (rng e) (start_time e) (state e)
    (max_stock_price e) (max_cash e) (max_depth e) (max_speed e)
    (observation_space e) v (half_spread e) (info_calculator e) (empty_infos
    e) (multiplier e) (stdout e) (start_calls e) (os_entropy e).

Definition print (n : Notice) (e : Env) : Env :=
  set_stdout (stdout e ++ [n]) e.

(** *** Properties *)

Definition step_size (e : Env) : Q := _step_size e.
Definition num_trajectories (e : Env) : nat := _num_trajectories e.

Definition PROCESS_NAMES : list string :=
  ["midprice_model"; "arrival_model"; "fill_probability_model";
   "price_impact_model"].

(** [getattr(self, process_name)] on the four process slots. *)
Definition getattr (name : string) (e : Env) : option P :=
  if String.eqb name "midprice_model" then Some (midprice_model e)
  else if String.eqb name "arrival_model" then arrival_model e
  else if String.eqb name "fill_probability_model" then fill_probability_model e
  else if String.eqb name "price_impact_model" then price_impact_model e
  else None.

(** A process is an object: a call that changes it changes what the slot
    of that name holds. *)
Definition store (name : string) (p : P) (e : Env) : Env :=
  if String.eqb name "midprice_model" then set_midprice_model p e
  else if String.eqb name "arrival_model" then set_arrival_model (Some p) e
  else if String.eqb name "fill_probability_model"
       then set_fill_probability_model (Some p) e
  else if String.eqb name "price_impact_model"
       then set_price_impact_model (Some p) e
  else e.

(** [for i, (name, process) in enumerate(self.stochastic_processes.items())] *)
Fixpoint for_processes (body : nat -> string -> P -> Env -> Result Env)
  (i : nat) (names : list string) (e : Env) : Result Env :=
  match names with
  | [] => Ok e
  | name :: rest =>
      match getattr name e with
      | Some p => e' <- body i name p e ;; for_processes body (S i) rest e'
      | None => for_processes body (S i) rest e
      end
  end.

Definition is_at_max_inventory (e : Env) : Result (list bool) :=
  inv <- getcol INVENTORY_INDEX (state e) ;;
  Ok (map (fun q => Qgeb q (max_inventory e)) inv).

Definition is_at_min_inventory (e : Env) : Result (list bool) :=
  inv <- getcol INVENTORY_INDEX (state e) ;;
  Ok (map (fun q => Qle_bool q (- max_inventory e)) inv).

Definition midprice (e : Env) : Result ndarray :=
  c <- getcol 0 (Process.current_state (midprice_model e)) ;;
  Ok (Mat (column c)).

Definition set_step_size (v : Q) (e : Env) : Result Env :=
  let e := set__step_size v e in
  e <- for_processes
         (fun _ process_name process e =>
            if negb (Qeq_bool (Process.step_size process) v)
            then Ok (store process_name (Process.set_step_size v process)
                       (print (SettingStepSize process_name v) e))
            else Ok e)
         0 (stochastic_processes e) e ;;
  match Reward.step_size (reward_function e) with
  | Some _ =>
      Ok (set_reward_function (Reward.set_step_size v (reward_function e))
            (print (SettingStepSize "reward_function" v) e))
  | None => Ok e
  end.

Definition set_num_trajectories (v : nat) (e : Env) : Result Env :=
  let e := set__num_trajectories v e in
  for_processes
    (fun _ process_name process e =>
       if negb (Nat.eqb (Process.num_trajectories process) v)
       then Ok (store process_name (Process.set_num_trajectories v process)
                  (print (SettingNumTrajectories process_name v) e))
       else Ok e)
    0 (stochastic_processes e) e.

(** *** Reading the action *)

Definition _limit_depths (action : matrix) (e : Env) : Result matrix :=
  if str_in (action_type e) ["limit"; "limit_and_market"]
  then Ok (slice_cols 0 2 action)
  else Raise (PyException
    "Bid depth only exists for action_type in [limit, limit_and_market].").

Definition _market_order_buy (action : matrix) (e : Env) : Result (list Q) :=
  if String.eqb (action_type e) "limit_and_market"
  then getcol 2 action
  else Raise (PyException
    "Market order buy action only exists for action_type == limit_and_market.").

Definition _market_order_sell (action : matrix) (e : Env) : Result (list Q) :=
  if String.eqb (action_type e) "limit_and_market"
  then getcol 3 action
  else Raise (PyException
    "Market order sell action only exists for action_type == limit_and_market.").

Definition _post_at_touch (action : matrix) (e : Env) : Result matrix :=
  if String.eqb (action_type e) "touch"
  then Ok (slice_cols 0 2 action)
  else Raise (PyException
    "Post buy at touch action only exists for action_type == touch.").

(** *** Bounds *)

Definition _get_max_cash (e : Env) : Q := inject_Z (n_steps e) * max_stock_price e.

Definition _get_max_depth (e : Env) : option Q :=
  match fill_probability_model e with
  | Some m => Process.max_depth m
  | None => None
  end.

Definition _get_max_speed (e : Env) : option Q :=
  match price_impact_model e with
  | Some m => Process.max_speed m
  | None => None
  end.

Definition values (e : Env) : list P :=
  flat_map (fun name => match getattr name e with Some p => [p] | None => [] end)
           (stochastic_processes e).

Definition _get_observation_space (e : Env) : Space :=
  let low := [- max_cash e; - max_inventory e; 0] in
  let high := [max_cash e; max_inventory e; terminal_time e] in
  let low := fold_left (fun l p => l ++ concat (Process.min_value p)) (values e) low in
  let high := fold_left (fun h p => h ++ concat (Process.max_value p)) (values e) high in
  Box (map Some low) (map Some high).

(** *** Start time and initial state *)

Definition _quantise_time_to_step (time : Q) (e : Env) : Result Q :=
  _ <- py_assert (Qle_bool 0 time && Qltb time (terminal_time e))
         "Start time is not within (0, env.terminal_time)." ;;
  d <- py_div time (step_size e) ;;
  Ok (np_round d * step_size e).

Definition _get_start_time (e : Env) : Result (Q * Env) :=
  match start_time e with
  | StartNumber t =>
      q <- _quantise_time_to_step t e ;; Ok (q, e)
  | StartCallable f =>
      let random_start := f (start_calls e) in
      let e := set_start_calls (S (start_calls e)) e in
      q <- _quantise_time_to_step random_start e ;; Ok (q, e)
  | StartOther => Raise NotImplementedError
  end.

Definition ones (n : nat) : list Q := repeat 1 n.

Definition _get_initial_inventories (e : Env) : Result (ndarray * Env) :=
  match initial_inventory e with
  | InvTuple [low; high] =>
      ' (v, g) <- Random.integers low high (num_trajectories e) (rng e) ;;
      Ok (Vec v, set_rng g e)
  | InvInt z =>
      Ok (Vec (map (Qmult (inject_Z z)) (ones (num_trajectories e))), e)
  | _ => Raise (PyException
           "Initial inventory must be a tuple of length 2 or an int.")
  end.

Fixpoint append_initial_vector_states (ps : list P) (st : matrix) : Result matrix :=
  match ps with
  | [] => Ok st
  | p :: rest =>
      st' <- hstack st (Process.initial_vector_state p) ;;
      append_initial_vector_states rest st'
  end.

Definition initial_state (e : Env) : Result (matrix * Env) :=
  let scalar_initial_state := [initial_cash e; 0; 0] in
  let initial_state := repeat scalar_initial_state (num_trajectories e) in
  ' (start_time, e) <- _get_start_time e ;;
  initial_state <-
    setcol TIME_INDEX (Vec (map (Qmult start_time) (ones (num_trajectories e))))
           initial_state ;;
  ' (inventories, e) <- _get_initial_inventories e ;;
  initial_state <- setcol INVENTORY_INDEX inventories initial_state ;;
  initial_state <- append_initial_vector_states (values e) initial_state ;;
  Ok (initial_state, e).

(** *** Clipping *)

Definition differs (a b : list Q) : bool :=
  existsb (fun p => negb (Qeq_bool (fst p) (snd p))) (combine a b).

Definition _clip (not_clipped : list Q) (min max : Q) (cash_flag : bool) (e : Env)
  : list Q * Env :=
  let clipped := map (clip1 min max) not_clipped in
  let e := if differs not_clipped clipped && cash_flag
           then print (ClippingCash not_clipped clipped) e else e in
  let e := if differs not_clipped clipped && negb cash_flag
           then print (ClippingInventory not_clipped clipped) e else e in
  (clipped, e).

Definition _clip_inventory_and_cash (e : Env) : Result Env :=
  inv <- getcol INVENTORY_INDEX (state e) ;;
  let '(clipped, e) := _clip inv (- max_inventory e) (max_inventory e) false e in
  st <- setcol INVENTORY_INDEX (Vec clipped) (state e) ;;
  let e := set_state st e in
  cash <- getcol CASH_INDEX (state e) ;;
  let '(clipped, e) := _clip cash (- max_cash e) (max_cash e) true e in
  st <- setcol CASH_INDEX (Vec clipped) (state e) ;;
  Ok (set_state st e).

(** *** One step *)

Definition one_minus (b : list bool) : matrix :=
  column (map (fun x => 1 - of_bool x) b).

Definition _remove_max_inventory_fills (fills : ndarray) (e : Env) : Result ndarray :=
  at_max <- is_at_max_inventory e ;;
  at_min <- is_at_min_inventory e ;;
  fill_multiplier <- hstack (one_minus at_max) (one_minus at_min) ;;
  np_mul (Mat fill_multiplier) fills.

(** A method called on a slot that holds [None]. *)
Definition the_model (o : option P) : Result P :=
  match o with
  | Some p => Ok p
  | None => Raise AttributeError
  end.

(** Arithmetic on a value that is [None]. *)
Definition the_array (o : option ndarray) : Result ndarray :=
  match o with
  | Some a => Ok a
  | None => Raise TypeError
  end.

(** An attribute read on [None]. *)
Definition the_space (o : option Space) : Result Space :=
  match o with
  | Some sp => Ok sp
  | None => Raise AttributeError
  end.

Definition the_number (o : option Q) : Result Q :=
  match o with
  | Some q => Ok q
  | None => Raise TypeError
  end.

Definition _get_arrivals_and_fills (action : matrix) (e : Env)
  : Result (ndarray * ndarray * Env) :=
  am <- the_model (arrival_model e) ;;
  ' (arrivals, am) <- Process.get_arrivals am ;;
  let e := set_arrival_model (Some am) e in
  ' (fills, e) <-
    (if str_in (action_type e) ["limit"; "limit_and_market"]
     then depths <- _limit_depths action e ;;
          fm <- the_model (fill_probability_model e) ;;
          ' (fills, fm) <- Process.get_fills depths fm ;;
          Ok (fills, set_fill_probability_model (Some fm) e)
     else if String.eqb (action_type e) "touch"
     then fills <- _post_at_touch action e ;; Ok (Mat fills, e)
     else Raise NotImplementedError) ;;
  fills <- _remove_max_inventory_fills fills e ;;
  Ok (arrivals, fills, e).

(** [m[:, j] += rhs]: the view is taken, then the right-hand side is
    evaluated, then the sum is stored. *)
Definition iadd (j : nat) (rhs : Result ndarray) (m : matrix) : Result matrix :=
  _ <- getcol j m ;; a <- rhs ;; iop_col Qplus j a m.

Definition isub (j : nat) (rhs : Result ndarray) (m : matrix) : Result matrix :=
  _ <- getcol j m ;; a <- rhs ;; iop_col Qminus j a m.

Definition threshold (v : list Q) : ndarray :=
  Vec (map (fun x => of_bool (Qgtb x (1 # 2))) v).

(** [np.sum(multiplier * arrivals * fills * (midprice + offset * multiplier), axis=1)] *)
Definition cash_flow (arrivals fills : option ndarray) (offset : Result ndarray)
  (e : Env) : Result ndarray :=
  a <- the_array arrivals ;;
  x <- np_mul (Mat (multiplier e)) a ;;
  f <- the_array fills ;;
  x <- np_mul x f ;;
  mid <- midprice e ;;
  off <- offset ;;
  y <- np_mul off (Mat (multiplier e)) ;;
  y <- np_add mid y ;;
  x <- np_mul x y ;;
  np_sum_axis1 x.

(** [np.sum(arrivals * fills * -multiplier, axis=1)] *)
Definition inventory_flow (arrivals fills : option ndarray) (e : Env) : Result ndarray :=
  a <- the_array arrivals ;;
  f <- the_array fills ;;
  x <- np_mul a f ;;
  x <- np_mul x (np_map Qopp (Mat (multiplier e))) ;;
  np_sum_axis1 x.

(** The [if]/[elif] chain that opens [_update_agent_state]: the trades
    of the market-making regimes. *)
Definition market_making_trades (arrivals fills : option ndarray) (action : matrix)
  (e : Env) : Result Env :=
  if String.eqb (action_type e) "limit_and_market" then
    buy <- _market_order_buy action e ;;
    let mo_buy := threshold buy in
    sell <- _market_order_sell action e ;;
    let mo_sell := threshold sell in
    mid <- midprice e ;;
    hs <- the_number (half_spread e) ;;
    best_bid <- np_sub mid (Scalar hs) ;;
    mid <- midprice e ;;
    hs <- the_number (half_spread e) ;;
    best_ask <- np_add mid (Scalar hs) ;;
    st <- iadd CASH_INDEX
            (x <- np_mul mo_sell best_bid ;;
             y <- np_mul mo_buy best_ask ;;
             np_sub x y)
            (state e) ;;
    st <- iadd INVENTORY_INDEX (np_sub mo_buy mo_sell) st ;;
    Ok (set_state st e)
  else if String.eqb (action_type e) "touch" then
    st <- iadd CASH_INDEX
            (cash_flow arrivals fills
               (hs <- the_number (half_spread e) ;; Ok (Scalar hs)) e)
            (state e) ;;
    st <- iadd INVENTORY_INDEX (inventory_flow arrivals fills e) st ;;
    Ok (set_state st e)
  else if str_in (action_type e) ["limit"; "limit_and_market"] then
    st <- iadd INVENTORY_INDEX (inventory_flow arrivals fills e) (state e) ;;
    st <- iadd CASH_INDEX
            (cash_flow arrivals fills
               (d <- _limit_depths action e ;; Ok (Mat d)) e)
            st ;;
    Ok (set_state st e)
  else Ok e.

(** The [if self.action_type in EXECUTION_ACTION_TYPES] block that
    follows it: the trade of the execution regime. *)
Definition execution_trades (action : matrix) (e : Env) : Result Env :=
  if str_in (action_type e) EXECUTION_ACTION_TYPES then
    pm <- the_model (price_impact_model e) ;;
    price_impact <- Process.get_impact action pm ;;
    mid <- midprice e ;;
    execution_price <- np_add mid price_impact ;;
    volume <- np_mul (Mat action) (Scalar (step_size e)) ;;
    st <- isub CASH_INDEX
            (x <- np_mul volume execution_price ;; Ok (np_squeeze x))
            (state e) ;;
    st <- iadd INVENTORY_INDEX (Ok (np_squeeze volume)) st ;;
    Ok (set_state st e)
  else Ok e.

Definition _update_agent_state (arrivals fills : option ndarray) (action : matrix)
  (e : Env) : Result Env :=
  e <- market_making_trades arrivals fills action e ;;
  e <- execution_trades action e ;;
  e <- _clip_inventory_and_cash e ;;
  st <- iadd TIME_INDEX (Ok (Scalar (step_size e))) (state e) ;;
  Ok (set_state st e).

Definition lookup_indices (name : string) (idx : list (string * (nat * nat)))
  : Result (nat * nat) :=
  match find (fun p => String.eqb (fst p) name) idx with
  | Some (_, r) => Ok r
  | None => Raise KeyError
  end.

Definition _update_market_state (arrivals fills : option ndarray) (action : matrix)
  (e : Env) : Result Env :=
  for_processes
    (fun _ process_name process e =>
       process <- Process.update arrivals fills action process ;;
       let e := store process_name process e in
       ' (lower_index, upper_index) <-
         lookup_indices process_name (stochastic_process_indices e) ;;
       st <- set_slice lower_index upper_index
               (Mat (Process.current_state process)) (state e) ;;
       Ok (set_state st e))
    0 (stochastic_processes e) e.

Definition _update_state (action : matrix) (e : Env) : Result Env :=
  ' (arrivals, fills, e) <-
    (if str_in (action_type e) MARKET_MAKING_ACTION_TYPES
     then ' (arrivals, fills, e) <- _get_arrivals_and_fills action e ;;
          Ok (Some arrivals, Some fills, e)
     else Ok (None, None, e)) ;;
  e <- _update_agent_state arrivals fills action e ;;
  _update_market_state arrivals fills action e.

(** [self.state[0, TIME_INDEX]] *)
Definition item (i j : nat) (m : matrix) : Result Q :=
  match nth_error m i with
  | Some r =>
      match nth_error r j with
      | Some x => Ok x
      | None => Raise IndexError
      end
  | None => Raise IndexError
  end.

(** What [step] returns: the next state, the rewards, the done flags and
    the infos. *)
Record StepResult : Type := {
  next_state : matrix;
  rewards : ndarray;
  dones : list bool;
  infos : Infos
}.

Definition step (action : ndarray) (e : Env) : Result (StepResult * Env) :=
  let n := num_trajectories e in
  sp <- the_space (action_space e) ;;
  let w := space_shape0 sp in
  action <- (if has_shape n w action then Ok (as2d action)
             else reshape n w action) ;;
  let current_state := state e in
  e <- _update_state action e ;;
  let next_state := state e in
  t <- item 0 TIME_INDEX (state e) ;;
  let done := Qgeb t (terminal_time e - step_size e / 2) in
  let dones := repeat done (num_trajectories e) in
  ' (rewards, rf) <-
    Reward.calculate current_state action next_state done (reward_function e) ;;
  let e := set_reward_function rf e in
  let infos :=
    match info_calculator e with
    | Some calc => calc current_state action rewards
    | None => empty_infos e
    end in
  Ok (Build_StepResult next_state rewards dones infos, e).

(** *** Reset and seeding *)

Definition reset (e : Env) : Result (matrix * Env) :=
  e <- for_processes
         (fun _ process_name process e =>
            Ok (store process_name (Process.reset process) e))
         0 (stochastic_processes e) e ;;
  ' (st, e) <- initial_state e ;;
  let e := set_state st e in
  let e := set_reward_function (Reward.reset (state e) (reward_function e)) e in
  Ok (state e, e).

Definition seed (s : option N) (e : Env) : Result Env :=
  let e := set_rng (Random.default_rng s (os_entropy e)) e in
  for_processes
    (fun i process_name process e =>
       match s with
       | Some z => Ok (store process_name
                         (Process.seed (z + N.of_nat i + 1) process) e)
       | None => Raise TypeError
       end)
    0 (stochastic_processes e) e.

(** *** Construction *)

Definition _check_process_is_not_none (process : string) (e : Env) : Result unit :=
  py_assert (match getattr process e with Some _ => true | None => false end)
    "Action type requires a stochastic process that is None.".

Fixpoint check_all (processes : list string) (e : Env) : Result unit :=
  match processes with
  | [] => Ok tt
  | process :: rest =>
      _ <- _check_process_is_not_none process e ;; check_all rest e
  end.

Definition _check_required_stochastic_processes (e : Env) : Result unit :=
  _ <- py_assert (str_in (action_type e) ACTION_TYPES)
         "Action type is not in ACTION_TYPES." ;;
  processes <-
    (if String.eqb (action_type e) "touch" then Ok ["arrival_model"]
     else if str_in (action_type e) ["limit"; "limit_and_market"]
     then Ok ["arrival_model"; "fill_probability_model"]
     else if String.eqb (action_type e) "speed" then Ok ["price_impact_model"]
     else Raise NotImplementedError) ;;
  check_all processes e.

Definition _get_stochastic_processes (e : Env) : list string :=
  filter (fun process_name =>
            match getattr process_name e with Some _ => true | None => false end)
         PROCESS_NAMES.

Fixpoint indices_from (count : nat) (names : list string) (e : Env)
  : list (string * (nat * nat)) :=
  match names with
  | [] => []
  | process_name :: rest =>
      match getattr process_name e with
      | Some process =>
          let dimension := ncols (Process.initial_vector_state process) in
          (process_name, (count, (count + dimension)%nat))
            :: indices_from (count + dimension) rest e
      | None => indices_from count rest e
      end
  end.

Definition _get_stochastic_process_indices (e : Env) : list (string * (nat * nat)) :=
  indices_from 3 (stochastic_processes e) e.

Definition _get_action_space (e : Env) : Result (option Space) :=
  if String.eqb (action_type e) "touch" then Ok (Some (MultiBinary 2))
  else if String.eqb (action_type e) "limit" then
    _ <- py_assert (match max_depth e with Some _ => true | None => false end)
           "For limit orders max_depth cannot be None." ;;
    Ok (Some (Box [Some 0; Some 0] [max_depth e; max_depth e]))
  else if String.eqb (action_type e) "limit_and_market" then
    Ok (Some (Box [Some 0; Some 0; Some 0; Some 0]
                  [max_depth e; max_depth e; Some 1; Some 1]))
  else if String.eqb (action_type e) "speed" then
    ms <- the_number (max_speed e) ;;
    Ok (Some (Box [Some (- ms)] [Some ms]))
  else Ok None.

Definition get_empty_infos (n : nat) : Infos :=
  if Nat.ltb 1 n then InfoList (repeat [] n) else InfoDict [].

(** [np.append(-ones, ones, axis=1)] for [ones = np.ones((n, 1))]. *)
Definition get_multiplier (n : nat) : matrix := repeat [- (1); 1] n.

(** [TradingEnvironment(...)].  Attributes that [__init__] assigns late
    start with a placeholder that nothing reads before the assignment. *)
Definition init (c : Config) : Result Env :=
  step <- py_div (cfg_terminal_time c) (inject_Z (cfg_n_steps c)) ;;
  let reward :=
    match cfg_reward_function c with
    | Some r => r
    | None => Reward.PnL
    end in
  let mid :=
    match cfg_midprice_model c with
    | Some m => m
    | None => Process.BrownianMotionMidpriceModel step (cfg_num_trajectories c)
                (cfg_os_entropy c)
    end in
  let e :=
    {| terminal_time := cfg_terminal_time c;
       _num_trajectories := cfg_num_trajectories c;
       n_steps := cfg_n_steps c;
       _step_size := step;
       reward_function := reward;
       midprice_model := mid;
       arrival_model := cfg_arrival_model c;
       fill_probability_model := cfg_fill_probability_model c;
       price_impact_model := cfg_price_impact_model c;
       action_type := cfg_action_type c;
       stochastic_processes := [];
       stochastic_process_indices := [];
       initial_cash := cfg_initial_cash c;
       initial_inventory := cfg_initial_inventory c;
       max_inventory := cfg_max_inventory c;
       rng := Random.default_rng (cfg_seed c) (cfg_os_entropy c);
       start_time := cfg_random_start c;
       state := [];
       max_stock_price := 0;
       max_cash := 0;
       max_depth := None;
       max_speed := None;
       observation_space := Box [] [];
       action_space := None;
       half_spread := cfg_half_spread c;
       info_calculator := cfg_info_calculator c;
       empty_infos := get_empty_infos (cfg_num_trajectories c);
       multiplier := get_multiplier (cfg_num_trajectories c);
       stdout := [];
       start_calls := O;
       os_entropy := cfg_os_entropy c |} in
  _ <- _check_required_stochastic_processes e ;;
  let e := set_stochastic_processes (_get_stochastic_processes e) e in
  let e := set_stochastic_process_indices (_get_stochastic_process_indices e) e in
  e <- (match cfg_seed c with
        | Some z => if N.eqb z 0 then Ok e else seed (Some z) e
        | None => Ok e
        end) ;;
  ' (st, e) <- initial_state e ;;
  let e := set_state st e in
  msp <- (if truthy (cfg_max_stock_price c)
          then the_number (cfg_max_stock_price c)
          else item 0 0 (Process.max_value (midprice_model e))) ;;
  let e := set_max_stock_price msp e in
  mc <- (if truthy (cfg_max_cash c)
         then the_number (cfg_max_cash c)
         else Ok (_get_max_cash e)) ;;
  let e := set_max_cash mc e in
  let e := set_max_depth (py_or (cfg_max_depth c) (_get_max_depth e)) e in
  let e := set_max_speed (py_or (cfg_max_speed c) (_get_max_speed e)) e in
  let e := set_observation_space (_get_observation_space e) e in
  sp <- _get_action_space e ;;
  Ok (set_action_space sp e).

End Engine.

(** ** Concrete components for running the model

    Small deterministic stand-ins for the external components: a process
    whose every draw is a function of the state of its own generator, a
    reward equal to the change of cash, and a counter as random
    generator. *)
Module Fixture.

Record ToyProcess : Type := {
  tp_current : matrix;
  tp_initial : matrix;
  tp_step_size : Q;
  tp_num_trajectories : nat;
  tp_rng : N;                 (* the state of the generator it owns *)
  tp_arrivals : list Q;       (* the arrivals of one trajectory *)
  tp_max_depth : option Q;
  tp_max_speed : option Q;
  tp_max_value : Q
}.

Definition with_current (m : matrix) (p : ToyProcess) : ToyProcess :=
  Build_ToyProcess m (tp_initial p) (tp_step_size p) (tp_num_trajectories p)
    (tp_rng p) (tp_arrivals p) (tp_max_depth p) (tp_max_speed p) (tp_max_value p).

Definition with_rng (g : N) (p : ToyProcess) : ToyProcess :=
  Build_ToyProcess (tp_current p) (tp_initial p) (tp_step_size p)
    (tp_num_trajectories p) g (tp_arrivals p) (tp_max_depth p) (tp_max_speed p)
    (tp_max_value p).

Definition with_step_size (v : Q) (p : ToyProcess) : ToyProcess :=
  Build_ToyProcess (tp_current p) (tp_initial p) v (tp_num_trajectories p)
    (tp_rng p) (tp_arrivals p) (tp_max_depth p) (tp_max_speed p) (tp_max_value p).

Definition with_num_trajectories (n : nat) (p : ToyProcess) : ToyProcess :=
  Build_ToyProcess (tp_current p) (tp_initial p) (tp_step_size p) n
    (tp_rng p) (tp_arrivals p) (tp_max_depth p) (tp_max_speed p) (tp_max_value p).

Definition with_max_depth (d : option Q) (p : ToyProcess) : ToyProcess :=
  Build_ToyProcess (tp_current p) (tp_initial p) (tp_step_size p)
    (tp_num_trajectories p) (tp_rng p) (tp_arrivals p) d (tp_max_speed p)
    (tp_max_value p).

(** The next draw: an increment in {-1, 0, 1} read off the generator. *)
Definition noise (g : N) : Q := inject_Z (Z.of_N (g mod 3) - 1).

Definition toy_update (p : ToyProcess) : ToyProcess :=
  with_rng (tp_rng p + 1)
    (with_current (map (map (fun x => x + noise (tp_rng p))) (tp_current p)) p).

#[global] Instance toy_process : Process.StochasticProcessModel ToyProcess := {
  Process.current_state := tp_current;
  Process.initial_vector_state := tp_initial;
  Process.min_value := fun p => [[0]];
  Process.max_value := fun p => [[tp_max_value p]];
  Process.step_size := tp_step_size;
  Process.set_step_size := with_step_size;
  Process.num_trajectories := tp_num_trajectories;
  Process.set_num_trajectories := with_num_trajectories;
  Process.reset := fun p => with_current (tp_initial p) p;
  Process.seed := with_rng;
  Process.update := fun _ _ _ p => Ok (toy_update p);
  Process.get_arrivals := fun p =>
    Ok (Mat (repeat (tp_arrivals p) (tp_num_trajectories p)),
        with_rng (tp_rng p + 1) p);
  Process.get_fills := fun depths p =>
    Ok (Mat (map (map (fun _ => 1)) depths), with_rng (tp_rng p + 1) p);
  Process.max_depth := tp_max_depth;
  Process.get_impact := fun action p => Ok (Mat (map (map (fun a => a / 10)) action));
  Process.max_speed := tp_max_speed;
  Process.BrownianMotionMidpriceModel := fun step n entropy =>
    Build_ToyProcess (repeat [100] n) (repeat [100] n) step n (Z.to_N entropy)
      [] None None 1000
}.

(** A process with one state column that starts at [x0]. *)
Definition toy (n : nat) (step x0 : Q) (g : N) : ToyProcess :=
  Build_ToyProcess (repeat [x0] n) (repeat [x0] n) step n g [1; 1]
    (Some 5) (Some 10) 1000.

Record ToyReward : Type := {
  tr_step_size : option Q;
  tr_calls : nat
}.

#[global] Instance toy_reward : Reward.RewardFunction ToyReward := {
  Reward.calculate := fun current action next done r =>
    Ok (Vec (map (fun p => nth 0 (snd p) 0 - nth 0 (fst p) 0) (combine current next)),
        Build_ToyReward (tr_step_size r) (S (tr_calls r)));
  Reward.reset := fun _ r => Build_ToyReward (tr_step_size r) O;
  Reward.step_size := tr_step_size;
  Reward.set_step_size := fun v r => Build_ToyReward (Some v) (tr_calls r);
  Reward.PnL := Build_ToyReward None O
}.

(** The generator is a counter; [integers low high] walks through the
    integers of [low, high) and fails on an empty range. *)
#[global] Instance toy_generator : Random.Generator N := {
  Random.default_rng := fun s entropy =>
    match s with
    | Some z => z
    | None => Z.to_N entropy
    end;
  Random.integers := fun low high n g =>
    let lo := Qceiling low in
    let width := (Qceiling high - lo)%Z in
    if (0 <? width)%Z
    then Ok (map (fun i => inject_Z (lo + (Z.of_N g + Z.of_nat i) mod width))
                 (seq 0 n),
             (g + N.of_nat n)%N)
    else Raise ValueError
}.

Definition Cfg := @Config ToyProcess ToyReward.
Definition ToyEnv := @Env ToyProcess ToyReward N.

(** A configuration of [n] trajectories over [steps] steps of a unit
    horizon, in the given action regime. *)
Definition config (regime : string) (n : nat) (steps : Z) (s : option N) : Cfg :=
  {| cfg_terminal_time := 1;
     cfg_n_steps := steps;
     cfg_reward_function := None;
     cfg_midprice_model := Some (toy n (1 / inject_Z steps) 100 7);
     cfg_arrival_model := Some (toy n (1 / inject_Z steps) 0 11);
     cfg_fill_probability_model := Some (toy n (1 / inject_Z steps) 0 13);
     cfg_price_impact_model := Some (toy n (1 / inject_Z steps) 0 17);
     cfg_action_type := regime;
     cfg_initial_cash := 0;
     cfg_initial_inventory := InvInt 0;
     cfg_max_inventory := 2;
     cfg_max_cash := None;
     cfg_max_stock_price := None;
     cfg_max_depth := None;
     cfg_max_speed := None;
     cfg_half_spread := Some (1 # 2);
     cfg_random_start := StartNumber 0;
     cfg_info_calculator := None;
     cfg_seed := s;
     cfg_num_trajectories := n;
     cfg_os_entropy := 42 |}.

(** An environment nothing was assigned to, and the environment a
    configuration constructs when its construction succeeds. *)
Definition blank : ToyEnv :=
  {| terminal_time := 0; _num_trajectories := O; n_steps := 0; _step_size := 0;
     reward_function := Reward.PnL;
     midprice_model := toy 0 0 0 0;
     arrival_model := None; fill_probability_model := None;
     price_impact_model := None;
     action_type := ""; stochastic_processes := [];
     stochastic_process_indices := [];
     initial_cash := 0; initial_inventory := InvOther; max_inventory := 0;
     rng := 0%N; start_time := StartOther; state := [];
     max_stock_price := 0; max_cash := 0; max_depth := None; max_speed := None;
     observation_space := Box [] []; action_space := None; half_spread := None;
     info_calculator := None; empty_infos := InfoDict []; multiplier := [];
     stdout := []; start_calls := O; os_entropy := 0 |}.

Definition make (c : Cfg) : ToyEnv :=
  match init c with
  | Ok e => e
  | Raise _ => blank
  end.

End Fixture.

(** ** Notions used to state the properties *)

(** Row [r'] is row [r] with a new entry in column [j] only. *)
Definition only_col (j : nat) (r r' : list Q) : Prop :=
  length r' = length r /\ forall k, k <> j -> nth k r' 0 = nth k r 0.

Section Notions.

Context {P R G : Type}.
Context {PM : Process.StochasticProcessModel P}.
Context {RF : Reward.RewardFunction R}.
Context {RG : Random.Generator G}.

(** The start time that [_get_start_time] resolves at the next reset,
    before it is snapped to a step boundary. *)
Definition resolved_start (e : @Env P R G) : option Q :=
  match start_time e with
  | StartNumber t => Some t
  | StartCallable f => Some (f (start_calls e))
  | StartOther => None
  end.

(** What the state-vector layout and the clipping bounds are made of;
    nothing assigns these attributes after construction. *)
Definition layout (e : @Env P R G) : list (string * (nat * nat)) * Q * Q :=
  (stochastic_process_indices e, max_inventory e, max_cash e).

(** The attributes that [reset], [step] and [seed] leave alone. *)
Definition static (e : @Env P R G) :=
  (terminal_time e, _step_size e, n_steps e, _num_trajectories e,
   action_type e, stochastic_processes e, half_spread e, multiplier e,
   action_space e, start_time e, initial_cash e, initial_inventory e).

(** Every process slice of the state vector starts after the three
    columns of the agent. *)
Definition indices_ok (e : @Env P R G) : Prop :=
  Forall (fun p => (3 <= fst (snd p))%nat) (stochastic_process_indices e).

(** The environments a caller can hold: constructed, then driven through
    the public methods and property setters. *)
Inductive reachable : @Env P R G -> Prop :=
| reach_init (c : Config) (e : Env) :
    init c = Ok e -> reachable e
| reach_reset (e e' : Env) (st : matrix) :
    reachable e -> reset e = Ok (st, e') -> reachable e'
| reach_step (e e' : Env) (a : ndarray) (r : StepResult) :
    reachable e -> step a e = Ok (r, e') -> reachable e'
| reach_seed (e e' : Env) (s : option N) :
    reachable e -> seed s e = Ok e' -> reachable e'
| reach_set_step_size (e e' : Env) (v : Q) :
    reachable e -> set_step_size v e = Ok e' -> reachable e'
| reach_set_num_trajectories (e e' : Env) (v : nat) :
    reachable e -> set_num_trajectories v e = Ok e' -> reachable e'.

(** A row of the state within the inventory and cash bounds. *)
Definition bounded_row (max_inv max_csh : Q) (row : list Q) : Prop :=
  (- max_inv <= nth INVENTORY_INDEX row 0 /\ nth INVENTORY_INDEX row 0 <= max_inv) /\
  (- max_csh <= nth CASH_INDEX row 0 /\ nth CASH_INDEX row 0 <= max_csh).

(** The objects the environment owns. *)
Definition components (e : @Env P R G) :=
  (midprice_model e, arrival_model e, fill_probability_model e,
   price_impact_model e, reward_function e, rng e).

(** Row [r'] agrees with row [r] from column [k0] on, respectively
    before column [k0]. *)
Definition same_from (k0 : nat) (r r' : list Q) : Prop :=
  length r' = length r /\ forall k, (k0 <= k)%nat -> nth k r' 0 = nth k r 0.

Definition same_below (k0 : nat) (r r' : list Q) : Prop :=
  length r' = length r /\ forall k, (k < k0)%nat -> nth k r' 0 = nth k r 0.

(** What [_update_agent_state] does to a row: cash and inventory end up
    clipped, time advances by one step, the process columns stay. *)
Definition agent_row (max_inv max_csh step : Q) (r r' : list Q) : Prop :=
  length r' = length r /\ (3 <= length r)%nat /\
  (forall k, (3 <= k)%nat -> nth k r' 0 = nth k r 0) /\
  nth TIME_INDEX r' 0 = nth TIME_INDEX r 0 + step /\
  (exists x, nth INVENTORY_INDEX r' 0 = clip1 (- max_inv) max_inv x) /\
  (exists y, nth CASH_INDEX r' 0 = clip1 (- max_csh) max_csh y).

(** What the tail of [_update_agent_state] (the clipping and the clock)
    does to a row left by the trades. *)
Definition clipped_row (max_inv max_csh step : Q) (r r' : list Q) : Prop :=
  length r' = length r /\ (3 <= length r)%nat /\
  (forall k, (3 <= k)%nat -> nth k r' 0 = nth k r 0) /\
  nth TIME_INDEX r' 0 = nth TIME_INDEX r 0 + step /\
  nth INVENTORY_INDEX r' 0 = clip1 (- max_inv) max_inv (nth INVENTORY_INDEX r 0) /\
  nth CASH_INDEX r' 0 = clip1 (- max_csh) max_csh (nth CASH_INDEX r 0).

(** The same once the market update has overwritten the process columns. *)
Definition settled_row (max_inv max_csh step : Q) (r r' : list Q) : Prop :=
  length r' = length r /\ (3 <= length r)%nat /\
  nth TIME_INDEX r' 0 = nth TIME_INDEX r 0 + step /\
  nth INVENTORY_INDEX r' 0 = clip1 (- max_inv) max_inv (nth INVENTORY_INDEX r 0) /\
  nth CASH_INDEX r' 0 = clip1 (- max_csh) max_csh (nth CASH_INDEX r 0).

(** A trade that moves neither cash nor inventory. *)
Definition untraded_row (r r' : list Q) : Prop :=
  length r' = length r /\
  (forall k, (2 <= k)%nat -> nth k r' 0 = nth k r 0) /\
  nth CASH_INDEX r' 0 == nth CASH_INDEX r 0 /\
  nth INVENTORY_INDEX r' 0 == nth INVENTORY_INDEX r 0.

(** What one [step] does to a row of the state. *)
Definition step_row (max_inv max_csh step : Q) (r r' : list Q) : Prop :=
  length r' = length r /\ (3 <= length r)%nat /\
  nth TIME_INDEX r' 0 = nth TIME_INDEX r 0 + step /\
  (exists x, nth INVENTORY_INDEX r' 0 = clip1 (- max_inv) max_inv x) /\
  (exists y, nth CASH_INDEX r' 0 = clip1 (- max_csh) max_csh y).

(** The four process slots. *)
Definition slots (e : @Env P R G) :=
  (midprice_model e, arrival_model e, fill_probability_model e,
   price_impact_model e).

(** What the clipping stage prints for the state it is applied to. *)
Definition clip_notices (e : @Env P R G) : list Notice :=
  let inv := map (fun r => nth INVENTORY_INDEX r 0) (state e) in
  let cash := map (fun r => nth CASH_INDEX r 0) (state e) in
  let inv' := map (clip1 (- max_inventory e) (max_inventory e)) inv in
  let cash' := map (clip1 (- max_cash e) (max_cash e)) cash in
  (if differs inv inv' then [ClippingInventory inv inv'] else []) ++
  (if differs cash cash' then [ClippingCash cash cash'] else []).

(** An episode: one call to [step] per action, in order. *)
Fixpoint run (actions : list ndarray) (e : @Env P R G)
  : Result (list StepResult * Env) :=
  match actions with
  | [] => Ok ([], e)
  | a :: rest =>
      ' (r, e) <- step a e ;;
      ' (rs, e) <- run rest e ;;
      Ok (r :: rs, e)
  end.

(** The processes as they were handed to the constructor: the midprice
    model defaults to a Brownian motion built from the step size, the
    batch size and fresh entropy. *)
Definition configured_midprice (c : @Config P R) : P :=
  match cfg_midprice_model c with
  | Some m => m
  | None =>
      Process.BrownianMotionMidpriceModel
        (cfg_terminal_time c / inject_Z (cfg_n_steps c))
        (cfg_num_trajectories c) (cfg_os_entropy c)
  end.

Definition configured_slots (c : @Config P R) :=
  (configured_midprice c, cfg_arrival_model c, cfg_fill_probability_model c,
   cfg_price_impact_model c).

Definition present (o : option P) : N :=
  match o with
  | Some _ => 1%N
  | None => 0%N
  end.

(** The same processes after each received the derived seed
    [seed + i + 1], [i] being its position among the configured ones in
    the order midprice, arrival, fill probability, price impact. *)
Definition seeded_slots (z : N) (c : @Config P R) :=
  let i_arrival := 1%N in
  let i_fill := (i_arrival + present (cfg_arrival_model c))%N in
  let i_impact := (i_fill + present (cfg_fill_probability_model c))%N in
  (Process.seed (z + 0 + 1) (configured_midprice c),
   option_map (Process.seed (z + i_arrival + 1)) (cfg_arrival_model c),
   option_map (Process.seed (z + i_fill + 1)) (cfg_fill_probability_model c),
   option_map (Process.seed (z + i_impact + 1)) (cfg_price_impact_model c)).

(** The state-vector trajectory of one run: construction, a reset, and
    one step per action. *)
Definition episode (c : @Config P R) (actions : list ndarray)
  : Result (matrix * list matrix) :=
  e <- init (G := G) c ;;
  ' (s0, e) <- reset e ;;
  ' (rs, _) <- run actions e ;;
  Ok (s0, map next_state rs).

(** What the two setters print: one notice per registered process whose
    value differs from the new one, and for the step size one more
    whenever the reward function has a [step_size] attribute. *)
Definition step_size_notices (v : Q) (e : @Env P R G) : list Notice :=
  flat_map (fun name =>
              match getattr name e with
              | Some p => if negb (Qeq_bool (Process.step_size p) v)
                          then [SettingStepSize name v] else []
              | None => []
              end) (stochastic_processes e)
  ++ match Reward.step_size (reward_function e) with
     | Some _ => [SettingStepSize "reward_function" v]
     | None => []
     end.

Definition num_trajectories_notices (n : nat) (e : @Env P R G) : list Notice :=
  flat_map (fun name =>
              match getattr name e with
              | Some p => if negb (Nat.eqb (Process.num_trajectories p) n)
                          then [SettingNumTrajectories name n] else []
              | None => []
              end) (stochastic_processes e).

(** The distances from the midprice at which trajectory [i] quotes its
    bid and its ask: the two depths of its action in the limit regime,
    the half spread on both sides in the touch regime. *)
Definition posted_at (e : @Env P R G) (action : matrix) (i : nat) (ob oa : Q)
  : Prop :=
  (action_type e = "limit" /\
   exists arow, nth_error action i = Some arow /\ firstn 2 arow = [ob; oa]) \/
  (action_type e = "touch" /\ half_spread e = Some ob /\ oa = ob).

(** The cash a trajectory receives from its executed quotes: the ask
    side sells at [m + oa], the bid side buys at [m - ob]. *)
Definition quoted_cash_flow (ab aa fb fa m ob oa : Q) : Q :=
  aa * fa * (m + oa) - ab * fb * (m - ob).

(** [x or d] for an optional number [x] and a number [d]. *)
Definition value_or (o : option Q) (d : Q) : Q :=
  match o with
  | Some v => if Qeq_bool v 0 then d else v
  | None => d
  end.

(** The bounds of the observation space, written out: the three agent
    columns, then the bounds of every registered process in registry
    order, flattened. *)
Definition observation_bounds (e : @Env P R G) : list Q * list Q :=
  ([- max_cash e; - max_inventory e; 0]
     ++ flat_map (fun p => concat (Process.min_value p)) (values e),
   [max_cash e; max_inventory e; terminal_time e]
     ++ flat_map (fun p => concat (Process.max_value p)) (values e)).

(** The slices of the registered processes tile the columns from
    [count] on: each name has a slice, the first slice starts at [count]
    and each next one where the previous one ends. *)
Fixpoint tiles (idx : list (string * (nat * nat))) (count : nat)
  (names : list string) : Prop :=
  match names with
  | [] => True
  | name :: rest =>
      exists hi, lookup_indices name idx = Ok (count, hi) /\
                 (count <= hi)%nat /\ tiles idx hi rest
  end.

(** Columns [lo, hi) of a row. *)
Definition row_slice (lo hi : nat) (row : list Q) : list Q :=
  firstn (hi - lo) (skipn lo row).

End Notions.

(** An array all of whose entries are zero. *)
Definition all_zero (a : ndarray) : Prop :=
  Forall (Forall (fun x => x == 0)) (as2d a).

(** * Properties *)

(** ** Results *)

Lemma rbind_ok {A B : Type} (c : Result A) (k : A -> Result B) (b : B) :
  rbind c k = Ok b -> exists a, c = Ok a /\ k a = Ok b.
Proof.
  destruct c as [a|err]; simpl; intros Hk; [eauto | discriminate].
Qed.

Lemma rbind_raise {A B : Type} (c : Result A) (k : A -> Result B) (err : PyError) :
  c = Raise err -> rbind c k = Raise err.
Proof. intros ->. reflexivity. Qed.

Lemma py_assert_ok (b : bool) (msg : string) (u : unit) :
  py_assert b msg = Ok u -> b = true.
Proof. destruct b; simpl; [reflexivity | discriminate]. Qed.

(** Splits a successful sequence of binds into its successful parts. *)
Ltac split_ok H :=
  lazymatch type of H with
  | rbind ?c ?k = Ok ?b =>
      let x := fresh "x" in
      let Hc := fresh "Hc" in
      let Hk := fresh "Hk" in
      destruct (rbind_ok c k H) as (x & Hc & Hk); clear H;
      cbv beta in Hk; split_ok Hc; split_ok Hk
  | Ok _ = Ok _ => inversion H; subst; clear H
  | Raise _ = Ok _ => discriminate H
  | (match ?p with (_, _) => _ end) = Ok _ =>
      tryif is_var p then destruct p else destruct p eqn:?;
      split_ok H
  | _ => idtac
  end.

(** ** Rounding and clipping *)


Lemma Qgeb_true (x y : Q) : Qgeb x y = true <-> y <= x.
Proof. unfold Qgeb. apply Qle_bool_iff. Qed.


Lemma clip1_bounds (lo hi x : Q) : lo <= hi -> lo <= clip1 lo hi x <= hi.
Proof.
  intros Hle. unfold clip1. split.
  - apply Q.min_glb; [apply Q.le_max_r | exact Hle].
  - apply Q.le_min_r.
Qed.

Lemma clip1_upper (lo hi x : Q) : clip1 lo hi x <= hi.
Proof. unfold clip1. apply Q.le_min_r. Qed.

Lemma clip1_id (lo hi x : Q) : lo <= x <= hi -> clip1 lo hi x == x.
Proof.
  intros [Hlo Hhi]. unfold clip1.
  rewrite (Q.max_l x lo Hlo). apply Q.min_l. exact Hhi.
Qed.

Lemma np_round_integer (x : Q) : exists z : Z, np_round x = inject_Z z.
Proof.
  unfold np_round.
  destruct (x - inject_Z (Qfloor x) ?= 1 # 2); [destruct (Z.even (Qfloor x))| |]; eauto.
Qed.




(** ** Lists and columns *)

Lemma set_nth_length {A : Type} (j : nat) (x : A) (l : list A) :
  length (set_nth j x l) = length l.
Proof.
  revert j. induction l as [|h t IH]; intros [|j]; simpl; auto.
Qed.

Lemma nth_set_nth_same {A : Type} (j : nat) (x d : A) (l : list A) :
  (j < length l)%nat -> nth j (set_nth j x l) d = x.
Proof.
  revert j. induction l as [|h t IH]; intros [|j] Hlt; simpl in *; try lia; auto.
  apply IH. lia.
Qed.

Lemma nth_set_nth_other {A : Type} (j k : nat) (x d : A) (l : list A) :
  k <> j -> nth k (set_nth j x l) d = nth k l d.
Proof.
  revert j k. induction l as [|h t IH]; intros [|j] [|k] Hne; simpl; auto; try lia.
Qed.

Lemma nth_error_map_combine {A B C : Type} (f : A * B -> C)
  (a : list A) (b : list B) (i : nat) :
  nth_error (map f (combine a b)) i =
  match nth_error a i, nth_error b i with
  | Some x, Some y => Some (f (x, y))
  | _, _ => None
  end.
Proof.
  revert b i. induction a as [|x a IH]; intros [|y b] [|i]; simpl; auto.
  destruct (nth_error a i); reflexivity.
Qed.

Lemma getcol_ok (j : nat) (m : matrix) (v : list Q) :
  getcol j m = Ok v ->
  v = map (fun r => nth j r 0) m /\ Forall (fun r => (j < length r)%nat) m.
Proof.
  unfold getcol. destruct (forallb _ m) eqn:E; [|discriminate].
  intros Hv. inversion Hv. split; [reflexivity|].
  apply Forall_forall. intros r Hr.
  rewrite forallb_forall in E. apply Nat.ltb_lt. now apply E.
Qed.

Lemma getcol_wide (j : nat) (m : matrix) :
  Forall (fun r => (j < length r)%nat) m ->
  getcol j m = Ok (map (fun r => nth j r 0) m).
Proof.
  intros Hw. unfold getcol.
  replace (forallb _ m) with true; [reflexivity|].
  symmetry. apply forallb_forall. intros r Hr.
  apply Nat.ltb_lt. rewrite Forall_forall in Hw. now apply Hw.
Qed.

Lemma broadcast_to_view_length (n : nat) (a : ndarray) (v : list Q) :
  broadcast_to_view n a = Ok v -> length v = n.
Proof.
  destruct a as [x|w|m]; simpl.
  - intros Hv. inversion Hv. apply repeat_length.
  - destruct (Nat.eqb (length w) n) eqn:E.
    + intros Hv. inversion Hv. subst. now apply Nat.eqb_eq.
    + destruct (Nat.eqb (length w) 1); [|discriminate].
      intros Hv. inversion Hv. apply repeat_length.
  - discriminate.
Qed.

Lemma putcol_length (j : nat) (v : list Q) (m : matrix) :
  length v = length m -> length (putcol j v m) = length m.
Proof.
  intros Hl. unfold putcol. rewrite length_map, length_combine. lia.
Qed.

Lemma putcol_nth_error (j : nat) (v : list Q) (m : matrix) (i : nat) :
  nth_error (putcol j v m) i =
  match nth_error m i, nth_error v i with
  | Some r, Some x => Some (set_nth j x r)
  | _, _ => None
  end.
Proof. unfold putcol. apply nth_error_map_combine. Qed.

(** What an in-place update of column [j] does to each row. *)
Lemma iop_col_ok (f : Q -> Q -> Q) (j : nat) (a : ndarray) (m m' : matrix) :
  iop_col f j a m = Ok m' ->
  exists v, broadcast_to_view (length m) a = Ok v /\
    length m' = length m /\
    Forall (fun r => (j < length r)%nat) m /\
    forall i r, nth_error m i = Some r ->
      exists x, nth_error v i = Some x /\
        nth_error m' i = Some (set_nth j (f (nth j r 0) x) r).
Proof.
  unfold iop_col. intros H. split_ok H.
  apply getcol_ok in Hc as [-> Hw].
  pose proof (broadcast_to_view_length _ _ Hc0) as Hlen.
  exists x0. repeat split; auto.
  - rewrite putcol_length; [reflexivity|].
    rewrite length_map, length_combine, length_map. lia.
  - intros i r Hr.
    assert (Hi : (i < length x0)%nat).
    { rewrite Hlen. apply nth_error_Some. congruence. }
    destruct (nth_error x0 i) as [x|] eqn:Ex.
    2:{ apply nth_error_None in Ex. lia. }
    exists x. split; [reflexivity|].
    rewrite putcol_nth_error, Hr, nth_error_map_combine, nth_error_map, Hr, Ex.
    reflexivity.
Qed.

Lemma setcol_ok (j : nat) (a : ndarray) (m m' : matrix) :
  setcol j a m = Ok m' ->
  exists v, broadcast_to_view (length m) a = Ok v /\
    length m' = length m /\
    Forall (fun r => (j < length r)%nat) m /\
    forall i r, nth_error m i = Some r ->
      exists x, nth_error v i = Some x /\
        nth_error m' i = Some (set_nth j x r).
Proof.
  unfold setcol. intros H. split_ok H.
  apply getcol_ok in Hc as [-> Hw].
  pose proof (broadcast_to_view_length _ _ Hc0) as Hlen.
  exists x0. repeat split; auto.
  - now apply putcol_length.
  - intros i r Hr.
    assert (Hi : (i < length x0)%nat).
    { rewrite Hlen. apply nth_error_Some. congruence. }
    destruct (nth_error x0 i) as [x|] eqn:Ex.
    2:{ apply nth_error_None in Ex. lia. }
    exists x. split; [reflexivity|].
    now rewrite putcol_nth_error, Hr, Ex.
Qed.

(** Two matrices are related row by row as soon as they are at every
    index. *)
Lemma Forall2_by_index {A B : Type} (Rel : A -> B -> Prop) (a : list A) (b : list B) :
  length a = length b ->
  (forall i x, nth_error a i = Some x ->
     exists y, nth_error b i = Some y /\ Rel x y) ->
  Forall2 Rel a b.
Proof.
  revert b. induction a as [|x a IH]; intros [|y b] Hl Hi; simpl in *; try lia.
  - constructor.
  - constructor.
    + destruct (Hi O x eq_refl) as (y' & Hy & Hr). simpl in Hy.
      inversion Hy. now subst.
    + apply IH; [lia|]. intros i x' Hx. apply (Hi (S i) x' Hx).
Qed.

Lemma Forall2_index {A B : Type} (Rel : A -> B -> Prop) (a : list A) (b : list B) :
  Forall2 Rel a b ->
  forall i x, nth_error a i = Some x ->
    exists y, nth_error b i = Some y /\ Rel x y.
Proof.
  induction 1 as [|x y a b Hxy Hab IH]; intros [|i] x' Hx; simpl in *;
    try discriminate.
  - inversion Hx. subst. eauto.
  - now apply IH.
Qed.


(** ** Frames of the environment's methods *)

(** [store] only touches the four process slots. *)
Ltac store_frame :=
  intros; unfold store;
  repeat match goal with |- context [String.eqb ?a ?b] => destruct (String.eqb a b) end;
  reflexivity.

Section EngineFacts.

Context {P R G : Type}.
Context {PM : Process.StochasticProcessModel P}.
Context {RF : Reward.RewardFunction R}.
Context {RG : Random.Generator G}.

Local Abbreviation Env := (@Env P R G).

Lemma Forall2_Forall_r {A B : Type} (Pa : A -> Prop) (Pb : B -> Prop)
  (Rel : A -> B -> Prop) (a : list A) (b : list B) :
  (forall x y, Pa x -> Rel x y -> Pb y) ->
  Forall Pa a -> Forall2 Rel a b -> Forall Pb b.
Proof.
  intros Himp Ha Hab. induction Hab as [|x y a b Hxy Hab IH]; [constructor|].
  inversion Ha; subst. constructor; eauto.
Qed.

Lemma setcol_rows (j : nat) (a : ndarray) (m m' : matrix) :
  setcol j a m = Ok m' ->
  exists v, broadcast_to_view (length m) a = Ok v /\
    Forall2 (fun r r' => exists x, In x v /\ r' = set_nth j x r /\
                                   (j < length r)%nat) m m'.
Proof.
  intros H. destruct (setcol_ok _ _ _ H) as (v & Hv & Hl & Hw & Hi).
  exists v. split; [exact Hv|].
  apply Forall2_by_index; [congruence|].
  intros i r Hr. destruct (Hi i r Hr) as (x & Hx & Hm).
  exists (set_nth j x r). split; [exact Hm|].
  exists x. repeat split.
  - eapply nth_error_In; eauto.
  - rewrite Forall_forall in Hw. apply Hw. eapply nth_error_In; eauto.
Qed.

Lemma iop_col_rows (f : Q -> Q -> Q) (j : nat) (a : ndarray) (m m' : matrix) :
  iop_col f j a m = Ok m' ->
  exists v, broadcast_to_view (length m) a = Ok v /\
    Forall2 (fun r r' => exists x, In x v /\
                           r' = set_nth j (f (nth j r 0) x) r /\
                           (j < length r)%nat) m m'.
Proof.
  intros H. destruct (iop_col_ok _ _ _ _ H) as (v & Hv & Hl & Hw & Hi).
  exists v. split; [exact Hv|].
  apply Forall2_by_index; [congruence|].
  intros i r Hr. destruct (Hi i r Hr) as (x & Hx & Hm).
  exists (set_nth j (f (nth j r 0) x) r). split; [exact Hm|].
  exists x. repeat split.
  - eapply nth_error_In; eauto.
  - rewrite Forall_forall in Hw. apply Hw. eapply nth_error_In; eauto.
Qed.

Lemma hstack_rows (a b c : matrix) :
  hstack a b = Ok c -> Forall2 (fun r r' => exists ext, r' = r ++ ext) a c.
Proof.
  unfold hstack. destruct (Nat.eqb (length a) (length b)) eqn:E; [|discriminate].
  apply Nat.eqb_eq in E. intros Hc. inversion Hc. subst c. clear Hc.
  revert b E. induction a as [|x a IH]; intros [|y b] E; simpl in *; try lia.
  - constructor.
  - constructor; [eauto|]. apply IH. lia.
Qed.

Lemma append_initial_vector_states_rows (ps : list P) (st st' : matrix) :
  append_initial_vector_states ps st = Ok st' ->
  Forall2 (fun r r' => exists ext, r' = r ++ ext) st st'.
Proof.
  revert st. induction ps as [|p ps IH]; simpl; intros st H.
  - inversion H. subst. clear H. induction st'; constructor; auto.
    exists []. now rewrite app_nil_r.
  - split_ok H. apply hstack_rows in Hc. apply IH in Hk.
    clear IH. revert st' Hk. induction Hc as [|r r1 a b (e1 & ->) Hab IH];
      intros st' Hk; inversion Hk; subst; constructor.
    + destruct H1 as (e2 & ->). exists (e1 ++ e2). now rewrite app_assoc.
    + now apply IH.
Qed.


Lemma store_state name (p : P) (e : Env) : state (store name p e) = state e.
Proof. store_frame. Qed.
Lemma store_n_steps name (p : P) (e : Env) : n_steps (store name p e) = n_steps e.
Proof. store_frame. Qed.
Lemma store_num_trajectories name (p : P) (e : Env) :
  _num_trajectories (store name p e) = _num_trajectories e.
Proof. store_frame. Qed.

(** A loop over the processes keeps every attribute its body keeps. *)
Lemma for_processes_keeps {X : Type} (f : Env -> X)
  (body : nat -> string -> P -> Env -> Result Env) :
  (forall i name p e e', body i name p e = Ok e' -> f e' = f e) ->
  forall names i e e', for_processes body i names e = Ok e' -> f e' = f e.
Proof.
  intros Hbody. induction names as [|name names IH]; simpl; intros i e e' H.
  - inversion H. reflexivity.
  - destruct (getattr name e) as [p|].
    + split_ok H. rewrite (IH _ _ _ Hk). eauto.
    + eauto.
Qed.


(** ** Start time *)

Lemma _get_start_time_ok (e e' : Env) (q : Q) :
  _get_start_time e = Ok (q, e') ->
  exists t, resolved_start e = Some t /\
    _quantise_time_to_step t e = Ok q /\
    _num_trajectories e' = _num_trajectories e /\
    _step_size e' = _step_size e /\ terminal_time e' = terminal_time e.
Proof.
  unfold _get_start_time, resolved_start.
  destruct (start_time e) as [t|f|]; intros H; [| |discriminate].
  - split_ok H. exists t. auto.
  - split_ok H. exists (f (start_calls e)). auto.
Qed.



(** The rows of a fresh state start with the initial cash, an inventory
    and the snapped start time. *)
Lemma initial_state_ok (e e' : Env) (st : matrix) :
  initial_state e = Ok (st, e') ->
  exists t q, resolved_start e = Some t /\
    _quantise_time_to_step t e = Ok q /\
    length st = num_trajectories e /\
    Forall (fun row => (3 <= length row)%nat /\
                       nth CASH_INDEX row 0 = initial_cash e /\
                       nth TIME_INDEX row 0 == q) st.
Proof.
  unfold initial_state. intros H. split_ok H.
  destruct (_get_start_time_ok _ Hc) as (t & Ht & Hq & Hn & _).
  exists t, q. split; [exact Ht|]. split; [exact Hq|].
  apply setcol_rows in Hc0 as (v1 & Hv1 & Hr1).
  apply setcol_rows in Hc2 as (v2 & Hv2 & Hr2).
  apply append_initial_vector_states_rows in Hc3.
  split.
  - rewrite <- (Forall2_length Hc3), <- (Forall2_length Hr2), <- (Forall2_length Hr1).
    apply repeat_length.
  - simpl in Hv1. rewrite length_map in Hv1. unfold ones, num_trajectories in Hv1.
    rewrite !repeat_length, Hn, Nat.eqb_refl in Hv1. inversion Hv1. subst v1. clear Hv1.
    assert (H0 : Forall (fun r => r = [initial_cash e; 0; 0])
                   (repeat [initial_cash e; 0; 0] (num_trajectories e))).
    { apply Forall_forall. intros r Hr. now apply repeat_spec in Hr. }
    assert (H1 : Forall (fun r => exists z, z == q /\ r = [initial_cash e; 0; z]) x).
    { eapply Forall2_Forall_r; [|exact H0|exact Hr1].
      intros r r' -> (z & Hz & -> & _). exists z. split; [|reflexivity].
      apply in_map_iff in Hz as (o & <- & Ho). apply repeat_spec in Ho. subst o.
      ring. }
    assert (H2 : Forall (fun r => exists z y, z == q /\ r = [initial_cash e; y; z]) x0).
    { eapply Forall2_Forall_r; [|exact H1|exact Hr2].
      intros r r' (z & Hz & ->) (y & Hy & -> & _). exists z, y. auto. }
    eapply Forall2_Forall_r; [|exact H2|exact Hc3].
    intros r r' (z & y & Hz & ->) (ext & ->). simpl. repeat split; auto. lia.
Qed.




Lemma reset_processes_keeps {X : Type} (f : Env -> X) (e e1 : Env) :
  (forall name p e, f (store name p e) = f e) ->
  for_processes
    (fun _ process_name process e => Ok (store process_name (Process.reset process) e))
    0 (stochastic_processes e) e = Ok e1 ->
  f e1 = f e.
Proof.
  intros Hst. apply for_processes_keeps.
  intros i name p e0 e' H. inversion H. apply Hst.
Qed.


End EngineFacts.



(** ** What one step changes *)

Section StepFrames.

Context {P R G : Type}.
Context {PM : Process.StochasticProcessModel P}.
Context {RF : Reward.RewardFunction R}.
Context {RG : Random.Generator G}.

Local Abbreviation Env := (@Env P R G).

Lemma store_layout name (p : P) (e : Env) : layout (store name p e) = layout e.
Proof. store_frame. Qed.

Lemma store_static name (p : P) (e : Env) : static (store name p e) = static e.
Proof. store_frame. Qed.

Lemma Forall2_refl_of {A : Type} (Rel : A -> A -> Prop) (l : list A) :
  (forall x, Rel x x) -> Forall2 Rel l l.
Proof. intros Hr. induction l; constructor; auto. Qed.

Lemma Forall2_compose {A B C : Type} (R1 : A -> B -> Prop) (R2 : B -> C -> Prop)
  (R3 : A -> C -> Prop) (a : list A) (b : list B) (c : list C) :
  (forall x y z, R1 x y -> R2 y z -> R3 x z) ->
  Forall2 R1 a b -> Forall2 R2 b c -> Forall2 R3 a c.
Proof.
  intros Hc Hab. revert c. induction Hab as [|x y a b Hxy Hab IH]; intros c Hbc;
    inversion Hbc; subst; constructor; eauto.
Qed.

Lemma same_from_refl (k0 : nat) (r : list Q) : same_from k0 r r.
Proof. split; auto. Qed.

Lemma same_from_trans (k0 : nat) (r1 r2 r3 : list Q) :
  same_from k0 r1 r2 -> same_from k0 r2 r3 -> same_from k0 r1 r3.
Proof.
  intros [Hl1 H1] [Hl2 H2]. split; [congruence|].
  intros k Hk. rewrite H2, H1; auto.
Qed.

Lemma same_below_refl (k0 : nat) (r : list Q) : same_below k0 r r.
Proof. split; auto. Qed.

Lemma same_below_trans (k0 : nat) (r1 r2 r3 : list Q) :
  same_below k0 r1 r2 -> same_below k0 r2 r3 -> same_below k0 r1 r3.
Proof.
  intros [Hl1 H1] [Hl2 H2]. split; [congruence|].
  intros k Hk. rewrite H2, H1; auto.
Qed.

Lemma set_nth_same_from (j k0 : nat) (x : Q) (r : list Q) :
  (j < k0)%nat -> same_from k0 r (set_nth j x r).
Proof.
  intros Hj. split; [apply set_nth_length|].
  intros k Hk. apply nth_set_nth_other. lia.
Qed.

Lemma iadd_ok (j : nat) (rhs : Result ndarray) (m m' : matrix) :
  iadd j rhs m = Ok m' -> exists a, rhs = Ok a /\ iop_col Qplus j a m = Ok m'.
Proof. unfold iadd. intros H. split_ok H. eauto. Qed.

Lemma isub_ok (j : nat) (rhs : Result ndarray) (m m' : matrix) :
  isub j rhs m = Ok m' -> exists a, rhs = Ok a /\ iop_col Qminus j a m = Ok m'.
Proof. unfold isub. intros H. split_ok H. eauto. Qed.

Lemma iop_col_same_from (f : Q -> Q -> Q) (j k0 : nat) (a : ndarray) (m m' : matrix) :
  (j < k0)%nat -> iop_col f j a m = Ok m' -> Forall2 (same_from k0) m m'.
Proof.
  intros Hj H. apply iop_col_rows in H as (v & _ & Hr).
  eapply Forall2_impl; [|exact Hr]. simpl.
  intros r r' (x & _ & -> & _). now apply set_nth_same_from.
Qed.

Lemma iadd_same_from (j k0 : nat) (rhs : Result ndarray) (m m' : matrix) :
  (j < k0)%nat -> iadd j rhs m = Ok m' -> Forall2 (same_from k0) m m'.
Proof.
  intros Hj H. apply iadd_ok in H as (a & _ & H). eapply iop_col_same_from; eauto.
Qed.

Lemma isub_same_from (j k0 : nat) (rhs : Result ndarray) (m m' : matrix) :
  (j < k0)%nat -> isub j rhs m = Ok m' -> Forall2 (same_from k0) m m'.
Proof.
  intros Hj H. apply isub_ok in H as (a & _ & H). eapply iop_col_same_from; eauto.
Qed.

Lemma same_from_chain (k0 : nat) (a b c : matrix) :
  Forall2 (same_from k0) a b -> Forall2 (same_from k0) b c ->
  Forall2 (same_from k0) a c.
Proof. apply Forall2_compose. apply same_from_trans. Qed.

(** The trades change cash and inventory only. *)
Lemma market_making_trades_frame arrivals fills action (e e' : Env) :
  market_making_trades arrivals fills action e = Ok e' ->
  layout e' = layout e /\ static e' = static e /\ components e' = components e /\
  stdout e' = stdout e /\
  Forall2 (same_from 2) (state e) (state e').
Proof.
  unfold market_making_trades. intros H.
  destruct (String.eqb (action_type e) "limit_and_market").
  { split_ok H. repeat split; try reflexivity. simpl.
    eapply same_from_chain;
      (eapply iadd_same_from; [|eassumption]; unfold CASH_INDEX, INVENTORY_INDEX; lia). }
  destruct (String.eqb (action_type e) "touch").
  { split_ok H. repeat split; try reflexivity. simpl.
    eapply same_from_chain;
      (eapply iadd_same_from; [|eassumption]; unfold CASH_INDEX, INVENTORY_INDEX; lia). }
  destruct (str_in (action_type e) ["limit"; "limit_and_market"]).
  { split_ok H. repeat split; try reflexivity. simpl.
    eapply same_from_chain;
      (eapply iadd_same_from; [|eassumption]; unfold CASH_INDEX, INVENTORY_INDEX; lia). }
  inversion H. subst. repeat split; try reflexivity.
  apply Forall2_refl_of. apply same_from_refl.
Qed.

Lemma execution_trades_frame action (e e' : Env) :
  execution_trades action e = Ok e' ->
  layout e' = layout e /\ static e' = static e /\ components e' = components e /\
  stdout e' = stdout e /\
  Forall2 (same_from 2) (state e) (state e').
Proof.
  unfold execution_trades. intros H.
  destruct (str_in (action_type e) EXECUTION_ACTION_TYPES).
  { split_ok H. repeat split; try reflexivity. simpl.
    eapply same_from_chain;
      [eapply isub_same_from; [|eassumption] | eapply iadd_same_from; [|eassumption]];
      unfold CASH_INDEX, INVENTORY_INDEX; lia. }
  inversion H. subst. repeat split; try reflexivity.
  apply Forall2_refl_of. apply same_from_refl.
Qed.

Lemma setcol_vec_map (j : nat) (f : Q -> Q) (m m' : matrix) :
  setcol j (Vec (map f (map (fun r => nth j r 0) m))) m = Ok m' ->
  Forall2 (fun r r' => r' = set_nth j (f (nth j r 0)) r /\ (j < length r)%nat) m m'.
Proof.
  intros H. destruct (setcol_ok _ _ _ H) as (v & Hv & Hl & Hw & Hi).
  simpl in Hv. rewrite !length_map, Nat.eqb_refl in Hv. inversion Hv. subst v.
  apply Forall2_by_index; [congruence|].
  intros i r Hr. destruct (Hi i r Hr) as (x & Hx & Hm).
  rewrite !nth_error_map, Hr in Hx. simpl in Hx. inversion Hx. subst x.
  eexists. split; [exact Hm|]. split; [reflexivity|].
  rewrite Forall_forall in Hw. apply Hw. eapply nth_error_In; eauto.
Qed.

Lemma _clip_ok (v : list Q) (lo hi : Q) (flag : bool) (e : Env) :
  fst (_clip v lo hi flag e) = map (clip1 lo hi) v /\
  state (snd (_clip v lo hi flag e)) = state e /\
  layout (snd (_clip v lo hi flag e)) = layout e /\
  static (snd (_clip v lo hi flag e)) = static e /\
  components (snd (_clip v lo hi flag e)) = components e /\
  stdout (snd (_clip v lo hi flag e)) =
    stdout e ++
    (if differs v (map (clip1 lo hi) v)
     then [if flag then ClippingCash v (map (clip1 lo hi) v)
           else ClippingInventory v (map (clip1 lo hi) v)]
     else []).
Proof.
  unfold _clip. destruct (differs v (map (clip1 lo hi) v)), flag; simpl;
    repeat split; try reflexivity; now rewrite app_nil_r.
Qed.

(** Clipping stores the clipped inventory and cash of every row, touches
    nothing else in the state, and cannot fail on a state that has the
    two columns. *)
Lemma _clip_inventory_and_cash_ok (e e' : Env) :
  _clip_inventory_and_cash e = Ok e' ->
  layout e' = layout e /\ static e' = static e /\ components e' = components e /\
  Forall2 (fun r r' =>
             same_from 2 r r' /\ (2 <= length r)%nat /\
             nth INVENTORY_INDEX r' 0 =
               clip1 (- max_inventory e) (max_inventory e) (nth INVENTORY_INDEX r 0) /\
             nth CASH_INDEX r' 0 =
               clip1 (- max_cash e) (max_cash e) (nth CASH_INDEX r 0))
          (state e) (state e').
Proof.
  unfold _clip_inventory_and_cash. intros H. split_ok H.
  match goal with
  | H1 : _clip _ _ _ false e = (?c1, ?e1), H2 : _clip _ _ _ true _ = (?c2, ?e2) |- _ =>
      pose proof (_clip_ok x (- max_inventory e) (max_inventory e) false e) as K1;
      rewrite H1 in K1; simpl in K1;
      destruct K1 as (-> & Ks1 & Kl1 & Kt1 & Kc1 & _)
  end.
  apply getcol_ok in Hc as [-> Hw1].
  rewrite Ks1 in Hc0. apply setcol_vec_map in Hc0.
  match goal with
  | H2 : _clip ?v ?lo ?hi true ?e0 = (?c2, ?e2) |- _ =>
      pose proof (_clip_ok v lo hi true e0) as K2;
      rewrite H2 in K2; simpl in K2;
      destruct K2 as (-> & Ks2 & Kl2 & Kt2 & Kc2 & _)
  end.
  simpl in Hc1. apply getcol_ok in Hc1 as [-> Hw2].
  rewrite Ks2 in Hc2. simpl in Hc2.
  assert (Hmc : max_cash e0 = max_cash e).
  { unfold layout in Kl1. simpl. congruence. }
  assert (Hmi : max_inventory e0 = max_inventory e).
  { unfold layout in Kl1. congruence. }
  simpl in Hmc. rewrite Hmc in Hc2.
  apply setcol_vec_map in Hc2.
  split; [transitivity (layout e1); [reflexivity|]; rewrite Kl2; exact Kl1|].
  split; [transitivity (static e1); [reflexivity|]; rewrite Kt2; exact Kt1|].
  split; [transitivity (components e1); [reflexivity|]; rewrite Kc2; exact Kc1|].
  simpl.
  eapply Forall2_compose; [|exact Hc0|exact Hc2].
  intros r r1 r2 (-> & Hlt1) (-> & Hlt2).
  rewrite set_nth_length in Hlt2. unfold INVENTORY_INDEX, CASH_INDEX in *.
  repeat split.
  - now rewrite !set_nth_length.
  - intros k Hk. rewrite !nth_set_nth_other by lia. reflexivity.
  - lia.
  - rewrite nth_set_nth_other by lia. now rewrite nth_set_nth_same.
  - rewrite nth_set_nth_same by (rewrite set_nth_length; lia).
    now rewrite nth_set_nth_other by lia.
Qed.

Lemma iadd_scalar_rows (j : nat) (s : Q) (m m' : matrix) :
  iadd j (Ok (Scalar s)) m = Ok m' ->
  Forall2 (fun r r' => r' = set_nth j (nth j r 0 + s) r /\ (j < length r)%nat) m m'.
Proof.
  intros H. apply iadd_ok in H as (a & Ha & H). inversion Ha. subst a.
  apply iop_col_rows in H as (v & Hv & Hr). simpl in Hv. inversion Hv. subst v.
  eapply Forall2_impl; [|exact Hr]. simpl.
  intros r r' (x & Hx & -> & Hlt). apply repeat_spec in Hx. subst x. auto.
Qed.

Lemma Forall2_compose_ex {A B C : Type} (R1 : A -> B -> Prop) (R2 : B -> C -> Prop)
  (a : list A) (b : list B) (c : list C) :
  Forall2 R1 a b -> Forall2 R2 b c ->
  Forall2 (fun x z => exists y, R1 x y /\ R2 y z) a c.
Proof. apply Forall2_compose. eauto. Qed.

Lemma _update_agent_state_ok arrivals fills action (e e' : Env) :
  _update_agent_state arrivals fills action e = Ok e' ->
  layout e' = layout e /\ static e' = static e /\ components e' = components e /\
  Forall2 (agent_row (max_inventory e) (max_cash e) (step_size e)) (state e) (state e').
Proof.
  unfold _update_agent_state. intros H. split_ok H.
  apply market_making_trades_frame in Hc as (Hl1 & Ht1 & Hc1' & _ & Hs1).
  apply execution_trades_frame in Hc0 as (Hl2 & Ht2 & Hc2' & _ & Hs2).
  apply _clip_inventory_and_cash_ok in Hc1 as (Hl3 & Ht3 & Hc3' & Hs3).
  apply iadd_scalar_rows in Hc2.
  split; [transitivity (layout x1); [reflexivity|]; congruence|].
  split; [transitivity (static x1); [reflexivity|]; congruence|].
  split; [transitivity (components x1); [reflexivity|]; congruence|].
  simpl.
  assert (Hmi : max_inventory x0 = max_inventory e)
    by (unfold layout in *; congruence).
  assert (Hmc : max_cash x0 = max_cash e) by (unfold layout in *; congruence).
  assert (Hst : step_size x1 = step_size e).
  { unfold step_size, static in *. congruence. }
  rewrite Hmi, Hmc in Hs3. rewrite Hst in Hc2.
  pose proof (same_from_chain Hs1 Hs2) as Hs12.
  eapply Forall2_compose; [|exact Hs12|exact (Forall2_compose_ex Hs3 Hc2)].
  cbv beta. intros r0 r1 r3 [Hl01 H01] (r2 & ([Hl12 H12] & Hw & Hinv & Hcash) & -> & Hlt).
  unfold agent_row, TIME_INDEX, INVENTORY_INDEX, CASH_INDEX in *.
  rewrite Hl12 in Hlt.
  repeat split.
  - rewrite set_nth_length. congruence.
  - lia.
  - intros k Hk. rewrite nth_set_nth_other by lia. rewrite H12, H01 by lia. reflexivity.
  - rewrite nth_set_nth_same by lia. now rewrite H12, H01 by lia.
  - exists (nth 1 r1 0). now rewrite nth_set_nth_other by lia.
  - exists (nth 0 r1 0). now rewrite nth_set_nth_other by lia.
Qed.

Lemma zipWithM_rows {A B C : Type} (f : A -> B -> Result C)
  (a : list A) (b : list B) (c : list C) :
  length a = length b -> zipWithM f a b = Ok c ->
  Forall2 (fun y z => exists x, In x a /\ f x y = Ok z) b c.
Proof.
  revert b c. induction a as [|x a IH]; intros [|y b] c Hl H; simpl in *; try lia.
  - inversion H. constructor.
  - split_ok H. constructor; [eauto|].
    eapply Forall2_impl; [|apply IH; [lia|eassumption]].
    simpl. intros y' z' (x' & Hin & Hf). eauto.
Qed.

Lemma splice_row_same_below (lo hi : nat) (src row row' : list Q) :
  splice_row lo hi src row = Ok row' -> same_below lo row row'.
Proof.
  unfold splice_row.
  set (lo' := Nat.min lo (length row)).
  set (hi' := Nat.max lo' (Nat.min hi (length row))).
  assert (Hlo : (lo' <= length row)%nat) by (subst lo'; lia).
  assert (Hhi : (lo' <= hi' /\ hi' <= length row)%nat) by (subst hi' lo'; lia).
  assert (Hgen : forall mid, length mid = (hi' - lo')%nat ->
            same_below lo row (firstn lo' row ++ mid ++ skipn hi' row)).
  { intros mid Hm. split.
    - rewrite !length_app, length_firstn, length_skipn. lia.
    - intros k Hk. destruct (Nat.lt_ge_cases k lo') as [Hlt|Hge].
      + rewrite app_nth1 by (rewrite length_firstn; lia).
        rewrite nth_firstn. apply Nat.ltb_lt in Hlt. now rewrite Hlt.
      + assert (Hle : (length row <= k)%nat) by (subst lo'; lia).
        rewrite (nth_overflow row) by exact Hle.
        apply nth_overflow.
        rewrite !length_app, length_firstn, length_skipn. lia. }
  destruct (Nat.eqb (length src) (hi' - lo')) eqn:E1.
  - intros H. inversion H. apply Hgen. now apply Nat.eqb_eq.
  - destruct (Nat.eqb (length src) 1); [|discriminate].
    intros H. inversion H. apply Hgen. apply repeat_length.
Qed.

Lemma set_slice_same_below (lo hi : nat) (src : ndarray) (m m' : matrix) :
  set_slice lo hi src m = Ok m' -> Forall2 (same_below lo) m m'.
Proof.
  unfold set_slice.
  destruct (Nat.eqb (length (as2d src)) (length m)) eqn:E1.
  - apply Nat.eqb_eq in E1. intros H.
    eapply Forall2_impl; [|eapply zipWithM_rows; eauto].
    simpl. intros r r' (s & _ & Hs). eapply splice_row_same_below; eauto.
  - destruct (Nat.eqb (length (as2d src)) 1); [|discriminate].
    intros H.
    eapply Forall2_impl; [|eapply zipWithM_rows; [|eauto]].
    + simpl. intros r r' (s & _ & Hs). eapply splice_row_same_below; eauto.
    + apply repeat_length.
Qed.

Lemma same_below_weaken (k0 k1 : nat) (r r' : list Q) :
  (k0 <= k1)%nat -> same_below k1 r r' -> same_below k0 r r'.
Proof. intros Hk [Hl H]. split; [exact Hl|]. intros k Hlt. apply H. lia. Qed.

Lemma lookup_indices_in (name : string) idx (lo hi : nat) :
  lookup_indices name idx = Ok (lo, hi) -> exists name', In (name', (lo, hi)) idx.
Proof.
  unfold lookup_indices. destruct (find _ idx) as [[n r]|] eqn:E; [|discriminate].
  intros H. inversion H. subst r. apply find_some in E as [Hin _]. eauto.
Qed.

(** What a loop over the processes establishes between the environment
    before and after, for a relation that composes. *)
Lemma for_processes_rel (Rel : Env -> Env -> Prop)
  (body : nat -> string -> P -> Env -> Result Env) :
  (forall e, Rel e e) ->
  (forall e1 e2 e3, Rel e1 e2 -> Rel e2 e3 -> Rel e1 e3) ->
  (forall i name p e e', body i name p e = Ok e' -> Rel e e') ->
  forall names i e e', for_processes body i names e = Ok e' -> Rel e e'.
Proof.
  intros Hrefl Htrans Hbody. induction names as [|name names IH]; simpl; intros i e e' H.
  - inversion H. apply Hrefl.
  - destruct (getattr name e) as [p|].
    + split_ok H. eapply Htrans; eauto.
    + eauto.
Qed.

Lemma same_below_chain (k0 : nat) (a b c : matrix) :
  Forall2 (same_below k0) a b -> Forall2 (same_below k0) b c ->
  Forall2 (same_below k0) a c.
Proof. apply Forall2_compose. apply same_below_trans. Qed.

(** The market update overwrites process slices only: the three columns
    of the agent are out of its reach. *)
Lemma _update_market_state_ok arrivals fills action (e e' : Env) :
  _update_market_state arrivals fills action e = Ok e' ->
  layout e' = layout e /\ static e' = static e /\
  reward_function e' = reward_function e /\ rng e' = rng e /\
  stdout e' = stdout e /\
  (indices_ok e -> Forall2 (same_below 3) (state e) (state e')).
Proof.
  unfold _update_market_state.
  apply (for_processes_rel
    (fun e e' => layout e' = layout e /\ static e' = static e /\
       reward_function e' = reward_function e /\ rng e' = rng e /\
       stdout e' = stdout e /\
       (indices_ok e -> Forall2 (same_below 3) (state e) (state e')))).
  - intros e0. repeat split; auto. intros _. apply Forall2_refl_of, same_below_refl.
  - intros e1 e2 e3 (Hl1 & Ht1 & Hr1 & Hg1 & Ho1 & Hs1) (Hl2 & Ht2 & Hr2 & Hg2 & Ho2 & Hs2).
    repeat split; try congruence.
    intros Hok. eapply same_below_chain; [apply Hs1; exact Hok|].
    apply Hs2. unfold indices_ok, layout in *. congruence.
  - intros i name p e0 e1 H. split_ok H.
    assert (Hidx : stochastic_process_indices (store name x e0) =
                   stochastic_process_indices e0).
    { pose proof (store_layout name x e0) as Hl. unfold layout in Hl. congruence. }
    split; [transitivity (layout (store name x e0)); [reflexivity|apply store_layout]|].
    split; [transitivity (static (store name x e0)); [reflexivity|apply store_static]|].
    split; [simpl; store_frame|]. split; [simpl; store_frame|].
    split; [simpl; store_frame|].
    intros Hok. simpl. rewrite store_state in Hc1.
    apply set_slice_same_below in Hc1.
    eapply Forall2_impl; [|exact Hc1]. intros r r'. apply same_below_weaken.
    rewrite Hidx in Hc0. apply lookup_indices_in in Hc0 as (name' & Hin).
    unfold indices_ok in Hok. rewrite Forall_forall in Hok.
    apply (Hok _ Hin).
Qed.

Lemma _get_arrivals_and_fills_frame action (e e1 : Env) (arrivals fills : ndarray) :
  _get_arrivals_and_fills action e = Ok (arrivals, fills, e1) ->
  state e1 = state e /\ layout e1 = layout e /\ static e1 = static e /\
  midprice_model e1 = midprice_model e /\
  price_impact_model e1 = price_impact_model e /\
  reward_function e1 = reward_function e /\ rng e1 = rng e /\
  stdout e1 = stdout e.
Proof.
  unfold _get_arrivals_and_fills. intros H. split_ok H.
  destruct (str_in _ _).
  - split_ok Hc1. repeat split; reflexivity.
  - destruct (String.eqb _ _); [|discriminate].
    split_ok Hc1. repeat split; reflexivity.
Qed.

Lemma agent_row_then_market (mi mc s : Q) (r1 r2 r3 : list Q) :
  agent_row mi mc s r1 r2 -> same_below 3 r2 r3 -> step_row mi mc s r1 r3.
Proof.
  unfold agent_row, step_row, TIME_INDEX, INVENTORY_INDEX, CASH_INDEX.
  intros (Hl & Hw & _ & Ht & Hi & Hc) [Hl' Hb].
  repeat split; try congruence; try lia.
  - rewrite Hb by lia. exact Ht.
  - destruct Hi as (x & Hx). exists x. rewrite Hb by lia. exact Hx.
  - destruct Hc as (y & Hy). exists y. rewrite Hb by lia. exact Hy.
Qed.

Lemma _update_state_ok action (e e' : Env) :
  _update_state action e = Ok e' ->
  layout e' = layout e /\ static e' = static e /\
  (indices_ok e ->
   Forall2 (step_row (max_inventory e) (max_cash e) (step_size e))
     (state e) (state e')).
Proof.
  unfold _update_state. intros H. split_ok H. rename x into e2.
  assert (Hpre : state e0 = state e /\ layout e0 = layout e /\ static e0 = static e).
  { destruct (str_in _ _).
    - split_ok Hc. apply _get_arrivals_and_fills_frame in Hc1. tauto.
    - inversion Hc. auto. }
  destruct Hpre as (Hs0 & Hl0 & Ht0).
  apply _update_agent_state_ok in Hc0 as (Hl1 & Ht1 & _ & Hr1).
  apply _update_market_state_ok in Hk0 as (Hl2 & Ht2 & _ & _ & _ & Hr2).
  split; [congruence|]. split; [congruence|].
  intros Hok.
  assert (Hok1 : indices_ok e2).
  { unfold indices_ok, layout in *. congruence. }
  specialize (Hr2 Hok1). rewrite Hs0 in Hr1.
  assert (Hmi : max_inventory e0 = max_inventory e) by (unfold layout in *; congruence).
  assert (Hmc : max_cash e0 = max_cash e) by (unfold layout in *; congruence).
  assert (Hst : step_size e0 = step_size e).
  { unfold step_size, static in *. congruence. }
  rewrite Hmi, Hmc, Hst in Hr1.
  eapply Forall2_compose; [|exact Hr1|exact Hr2].
  apply agent_row_then_market.
Qed.


(** What a successful [step] returns and leaves behind. *)
Lemma step_ok (a : ndarray) (e e' : Env) (r : StepResult) :
  step a e = Ok (r, e') ->
  layout e' = layout e /\ static e' = static e /\
  next_state r = state e' /\
  (exists t, item 0 TIME_INDEX (state e') = Ok t /\
     dones r = repeat (Qgeb t (terminal_time e - step_size e / 2))
                      (num_trajectories e)) /\
  (indices_ok e ->
   Forall2 (step_row (max_inventory e) (max_cash e) (step_size e))
     (state e) (state e')).
Proof.
  unfold step. intros H. split_ok H.
  apply _update_state_ok in Hc1 as (Hl & Ht & Hr).
  split; [exact Hl|]. split; [exact Ht|]. split; [reflexivity|].
  split; [|exact Hr].
  exists x2. split; [exact Hc2|]. simpl.
  unfold num_trajectories, step_size, static in *.
  replace (terminal_time x1) with (terminal_time e) by congruence.
  replace (_step_size x1) with (_step_size e) by congruence.
  replace (_num_trajectories x1) with (_num_trajectories e) by congruence.
  reflexivity.
Qed.

(** ** What the other methods change *)

Lemma store_slots_frame {X : Type} (f : Env -> X) (body : nat -> string -> P -> P) :
  (forall name p e, f (store name p e) = f e) ->
  forall names i e e',
    for_processes (fun i name p e => Ok (store name (body i name p) e)) i names e = Ok e' ->
    f e' = f e.
Proof.
  intros Hst. apply for_processes_keeps.
  intros i name p e0 e' H. inversion H. apply Hst.
Qed.

Lemma initial_state_frame (e e' : Env) (st : matrix) :
  initial_state e = Ok (st, e') ->
  layout e' = layout e /\ static e' = static e /\ slots e' = slots e /\
  reward_function e' = reward_function e /\ stdout e' = stdout e /\
  state e' = state e.
Proof.
  unfold initial_state. intros H. split_ok H.
  assert (H1 : layout e0 = layout e /\ static e0 = static e /\ slots e0 = slots e /\
               reward_function e0 = reward_function e /\ stdout e0 = stdout e /\
               state e0 = state e).
  { unfold _get_start_time in Hc. destruct (start_time e); split_ok Hc; repeat split. }
  assert (H2 : layout e' = layout e0 /\ static e' = static e0 /\ slots e' = slots e0 /\
               reward_function e' = reward_function e0 /\ stdout e' = stdout e0 /\
               state e' = state e0).
  { unfold _get_initial_inventories in Hc1.
    destruct (initial_inventory e0) as [z|[|lo [|hi [|]]]|]; split_ok Hc1; repeat split. }
  destruct H1 as (? & ? & ? & ? & ? & ?), H2 as (? & ? & ? & ? & ? & ?).
  repeat split; congruence.
Qed.

Lemma reset_frame (e e' : Env) (st : matrix) :
  reset e = Ok (st, e') ->
  layout e' = layout e /\ static e' = static e /\ st = state e'.
Proof.
  unfold reset. intros H. split_ok H.
  pose proof (store_slots_frame layout (fun _ _ p => Process.reset p)
                store_layout _ _ _ Hc) as Hl.
  pose proof (store_slots_frame static (fun _ _ p => Process.reset p)
                store_static _ _ _ Hc) as Ht.
  apply initial_state_frame in Hc0 as (Hl' & Ht' & _).
  repeat split; simpl; try reflexivity.
  - transitivity (layout e0); [reflexivity|congruence].
  - transitivity (static e0); [reflexivity|congruence].
Qed.

Lemma seed_frame (s : option N) (e e' : Env) :
  seed s e = Ok e' ->
  layout e' = layout e /\ static e' = static e /\ state e' = state e /\
  stdout e' = stdout e.
Proof.
  unfold seed. intros H.
  assert (Hgen : forall {X : Type} (f : Env -> X),
            (forall name p e, f (store name p e) = f e) ->
            f e' = f (set_rng (Random.default_rng s (os_entropy e)) e)).
  { intros X f Hst. revert H. apply for_processes_keeps.
    intros i name p e0 e1 Hb. destruct s; [|discriminate]. inversion Hb. apply Hst. }
  split; [apply (Hgen _ layout store_layout)|].
  split; [apply (Hgen _ static store_static)|].
  split; [apply (Hgen _ state store_state)|].
  apply (Hgen _ stdout). store_frame.
Qed.

Lemma set_step_size_frame (v : Q) (e e' : Env) :
  set_step_size v e = Ok e' -> layout e' = layout e /\ state e' = state e.
Proof.
  unfold set_step_size. intros H. split_ok H.
  assert (Hgen : forall {X : Type} (f : Env -> X),
            (forall name p e, f (store name p e) = f e) ->
            (forall n e, f (print n e) = f e) ->
            f x = f (set__step_size v e)).
  { intros X f Hst Hpr. revert Hc. apply for_processes_keeps.
    intros i name p e0 e1 Hb. destruct (negb _); inversion Hb; [|reflexivity].
    now rewrite Hst, Hpr. }
  pose proof (Hgen _ layout store_layout (fun _ _ => eq_refl)) as Hl.
  pose proof (Hgen _ state store_state (fun _ _ => eq_refl)) as Hs.
  destruct (Reward.step_size (reward_function x)); inversion Hk; subst; split;
    solve [exact Hl | exact Hs].
Qed.

Lemma set_num_trajectories_frame (v : nat) (e e' : Env) :
  set_num_trajectories v e = Ok e' -> layout e' = layout e /\ state e' = state e.
Proof.
  unfold set_num_trajectories. intros H.
  assert (Hgen : forall {X : Type} (f : Env -> X),
            (forall name p e, f (store name p e) = f e) ->
            (forall n e, f (print n e) = f e) ->
            f e' = f (set__num_trajectories v e)).
  { intros X f Hst Hpr. revert H. apply for_processes_keeps.
    intros i name p e0 e1 Hb. destruct (negb _); inversion Hb; [|reflexivity].
    now rewrite Hst, Hpr. }
  split.
  - apply (Hgen _ layout store_layout (fun _ _ => eq_refl)).
  - apply (Hgen _ state store_state (fun _ _ => eq_refl)).
Qed.

(** ** Construction *)

Lemma indices_from_ge (names : list string) (count : nat) (e : Env) :
  Forall (fun p => (count <= fst (snd p))%nat) (indices_from count names e).
Proof.
  revert count. induction names as [|name names IH]; intros count; simpl.
  - constructor.
  - destruct (getattr name e) as [p|]; [|apply IH].
    constructor; [simpl; lia|].
    eapply Forall_impl; [|apply IH]. simpl. intros a Ha. lia.
Qed.

Lemma py_div_ok (x y q : Q) : py_div x y = Ok q -> ~ y == 0 /\ q = x / y.
Proof.
  unfold py_div. destruct (Qeq_bool y 0) eqn:E; [discriminate|].
  intros H. inversion H. split; [|reflexivity].
  intros Hz. apply Qeq_bool_iff in Hz. congruence.
Qed.

(** The environment after the optional seeding of [__init__]. *)
Lemma init_seed_frame (s : option N) (e e' : Env) :
  match s with
  | Some z => if N.eqb z 0 then Ok e else seed (Some z) e
  | None => Ok e
  end = Ok e' ->
  layout e' = layout e /\ static e' = static e /\ state e' = state e /\
  stdout e' = stdout e.
Proof.
  destruct s as [z|]; [destruct (N.eqb z 0)|]; intros H;
    try (inversion H; subst; tauto); eapply seed_frame; eassumption.
Qed.

(** What a successful construction has assigned. *)
Lemma init_ok (c : Config) (e : Env) :
  init c = Ok e ->
  terminal_time e = cfg_terminal_time c /\
  n_steps e = cfg_n_steps c /\
  _num_trajectories e = cfg_num_trajectories c /\
  (~ inject_Z (cfg_n_steps c) == 0 /\
   _step_size e = cfg_terminal_time c / inject_Z (cfg_n_steps c)) /\
  action_type e = cfg_action_type c /\
  max_inventory e = cfg_max_inventory c /\
  half_spread e = cfg_half_spread c /\
  start_time e = cfg_random_start c /\
  multiplier e = get_multiplier (cfg_num_trajectories c) /\
  stdout e = [] /\
  indices_ok e.
Proof.
  unfold init. intros H. split_ok H.
  apply py_div_ok in Hc as (Hn & ->).
  apply (init_seed_frame (cfg_seed c)) in Hc1 as (Hl1 & Ht1 & _ & Ho1).
  apply initial_state_frame in Hc2 as (Hl2 & Ht2 & _ & _ & Ho2 & _).
  unfold static, layout in *. simpl in *.
  inversion Ht1. inversion Ht2. inversion Hl1. inversion Hl2.
  repeat split; try congruence.
  unfold indices_ok. simpl.
  replace (stochastic_process_indices e0) with (stochastic_process_indices x1)
    by congruence.
  match goal with H : stochastic_process_indices x1 = _ |- _ => rewrite H end.
  eapply Forall_impl; [|apply indices_from_ge]. simpl. intros a Ha. exact Ha.
Qed.

Lemma reachable_indices_ok (e : Env) : reachable e -> indices_ok e.
Proof.
  assert (Hkeep : forall e e' : Env, layout e' = layout e -> indices_ok e -> indices_ok e').
  { unfold indices_ok, layout. intros e1 e2 Hl. inversion Hl. congruence. }
  induction 1 as [c e H|e e' st _ IH H|e e' a r _ IH H|e e' s _ IH H
                 |e e' v _ IH H|e e' v _ IH H].
  - now apply init_ok in H.
  - apply reset_frame in H as (Hl & _). eauto.
  - apply step_ok in H as (Hl & _). eauto.
  - apply seed_frame in H as (Hl & _). eauto.
  - apply set_step_size_frame in H as (Hl & _). eauto.
  - apply set_num_trajectories_frame in H as (Hl & _). eauto.
Qed.

(** ** The clipping invariant *)

Lemma setcol_vec_total (j : nat) (v : list Q) (m : matrix) :
  Forall (fun r => (j < length r)%nat) m -> length v = length m ->
  setcol j (Vec v) m = Ok (putcol j v m).
Proof.
  intros Hw Hl. unfold setcol. rewrite (getcol_wide Hw). simpl.
  rewrite Hl, Nat.eqb_refl. reflexivity.
Qed.

Lemma putcol_wide (j k : nat) (v : list Q) (m : matrix) :
  Forall (fun r => (k < length r)%nat) m ->
  Forall (fun r => (k < length r)%nat) (putcol j v m).
Proof.
  intros Hw. apply Forall_forall. intros r Hr.
  apply In_nth_error in Hr as (i & Hi). rewrite putcol_nth_error in Hi.
  destruct (nth_error m i) as [r0|] eqn:E; [|discriminate].
  destruct (nth_error v i); [|discriminate]. inversion Hi.
  rewrite set_nth_length. rewrite Forall_forall in Hw. apply Hw.
  eapply nth_error_In; eauto.
Qed.

Lemma putcol_other_col (j k : nat) (v : list Q) (m : matrix) :
  k <> j -> length v = length m ->
  map (fun r => nth k r 0) (putcol j v m) = map (fun r => nth k r 0) m.
Proof.
  intros Hne. revert v. induction m as [|r m IH]; intros [|x v] Hl; simpl in *;
    try lia; [reflexivity|].
  unfold putcol in *. simpl. rewrite nth_set_nth_other by exact Hne.
  f_equal. apply IH. lia.
Qed.

Lemma _clip_inventory_and_cash_total (e : Env) :
  Forall (fun r => (2 <= length r)%nat) (state e) ->
  exists e', _clip_inventory_and_cash e = Ok e' /\
    stdout e' = stdout e ++ clip_notices e.
Proof.
  intros Hw.
  assert (Hw1 : Forall (fun r => (INVENTORY_INDEX < length r)%nat) (state e)).
  { eapply Forall_impl; [|exact Hw]. unfold INVENTORY_INDEX. simpl. lia. }
  assert (Hw0 : Forall (fun r => (CASH_INDEX < length r)%nat) (state e)).
  { eapply Forall_impl; [|exact Hw]. unfold CASH_INDEX. simpl. lia. }
  unfold _clip_inventory_and_cash. rewrite (getcol_wide Hw1). cbn [rbind].
  set (inv := map (fun r => nth INVENTORY_INDEX r 0) (state e)).
  pose proof (_clip_ok inv (- max_inventory e) (max_inventory e) false e) as K1.
  destruct (_clip inv (- max_inventory e) (max_inventory e) false e) as [c1 e1].
  cbn [fst snd] in K1. destruct K1 as (-> & Ks1 & Kl1 & _ & _ & Ko1).
  cbv beta iota. rewrite Ks1.
  rewrite setcol_vec_total by (subst inv; rewrite ?length_map; auto).
  cbn [rbind].
  set (m1 := putcol INVENTORY_INDEX
               (map (clip1 (- max_inventory e) (max_inventory e)) inv) (state e)).
  change (state (set_state m1 e1)) with m1.
  change (max_cash (set_state m1 e1)) with (max_cash e1).
  assert (Hw0' : Forall (fun r => (CASH_INDEX < length r)%nat) m1)
    by (apply putcol_wide; exact Hw0).
  rewrite (getcol_wide Hw0'). cbn [rbind].
  assert (Hcash : map (fun r => nth CASH_INDEX r 0) m1 =
                  map (fun r => nth CASH_INDEX r 0) (state e)).
  { apply putcol_other_col; [discriminate|]. subst inv. now rewrite !length_map. }
  rewrite Hcash.
  set (cash := map (fun r => nth CASH_INDEX r 0) (state e)).
  assert (Hmc : max_cash e1 = max_cash e) by (unfold layout in Kl1; congruence).
  rewrite Hmc.
  pose proof (_clip_ok cash (- max_cash e) (max_cash e) true (set_state m1 e1)) as K2.
  destruct (_clip cash (- max_cash e) (max_cash e) true (set_state m1 e1)) as [c2 e2].
  cbn [fst snd] in K2. destruct K2 as (-> & Ks2 & _ & _ & _ & Ko2).
  cbv beta iota. rewrite Ks2.
  change (state (set_state m1 e1)) with m1.
  rewrite setcol_vec_total.
  - cbn [rbind]. eexists. split; [reflexivity|].
    change (stdout (set_state ?m e2)) with (stdout e2).
    rewrite Ko2. change (stdout (set_state m1 e1)) with (stdout e1). rewrite Ko1.
    unfold clip_notices. fold inv. fold cash.
    now rewrite <- app_assoc.
  - exact Hw0'.
  - subst cash m1 inv. rewrite !length_map. symmetry. apply putcol_length.
    now rewrite !length_map.
Qed.

Lemma iadd_scalar_total (j : nat) (s : Q) (m : matrix) :
  Forall (fun r => (j < length r)%nat) m ->
  exists m', iadd j (Ok (Scalar s)) m = Ok m'.
Proof.
  intros Hw. unfold iadd, iop_col. rewrite (getcol_wide Hw). simpl. eauto.
Qed.

Lemma Forall2_wide (k : nat) (Rel : list Q -> list Q -> Prop) (a b : matrix) :
  (forall r r', Rel r r' -> length r' = length r) ->
  Forall (fun r => (k <= length r)%nat) a -> Forall2 Rel a b ->
  Forall (fun r => (k <= length r)%nat) b.
Proof.
  intros Hlen. apply Forall2_Forall_r. intros r r' Hr Hrel.
  rewrite (Hlen _ _ Hrel). exact Hr.
Qed.

(** Clipping and the time increment cannot fail once the trades are
    made: a breach of the bounds is printed, never raised. *)
Lemma _update_agent_state_total arrivals fills action (e e1 e2 : Env) :
  Forall (fun r => (3 <= length r)%nat) (state e) ->
  market_making_trades arrivals fills action e = Ok e1 ->
  execution_trades action e1 = Ok e2 ->
  exists e3 e4,
    _clip_inventory_and_cash e2 = Ok e3 /\
    stdout e3 = stdout e ++ clip_notices e2 /\
    _update_agent_state arrivals fills action e = Ok e4 /\
    stdout e4 = stdout e3.
Proof.
  intros Hw H1 H2.
  pose proof H1 as H1'. pose proof H2 as H2'.
  apply market_making_trades_frame in H1' as (_ & _ & _ & Ho1 & Hs1).
  apply execution_trades_frame in H2' as (_ & _ & _ & Ho2 & Hs2).
  assert (Hw2 : Forall (fun r => (3 <= length r)%nat) (state e2)).
  { eapply Forall2_wide; [| |exact Hs2]; [intros r r' [Hl _]; exact Hl|].
    eapply Forall2_wide; [| |exact Hs1]; [intros r r' [Hl _]; exact Hl|exact Hw]. }
  destruct (_clip_inventory_and_cash_total e2) as (e3 & H3 & Ho3).
  { eapply Forall_impl; [|exact Hw2]. simpl. lia. }
  pose proof (_clip_inventory_and_cash_ok _ H3) as (_ & _ & _ & Hs3).
  assert (Hw3 : Forall (fun r => (TIME_INDEX < length r)%nat) (state e3)).
  { eapply Forall_impl;
      [|eapply Forall2_wide; [| |exact Hs3]; [intros r r' ([Hl _] & _); exact Hl|exact Hw2]].
    unfold TIME_INDEX. simpl. lia. }
  destruct (iadd_scalar_total (step_size e3) Hw3) as (m4 & H4).
  exists e3, (set_state m4 e3). split; [exact H3|].
  split; [rewrite Ho3; congruence|]. split; [|reflexivity].
  unfold _update_agent_state. rewrite H1. simpl. rewrite H2. simpl.
  rewrite H3. simpl. rewrite H4. reflexivity.
Qed.

Lemma Forall2_right {A B : Type} (Pb : B -> Prop) (Rel : A -> B -> Prop)
  (a : list A) (b : list B) :
  (forall x y, Rel x y -> Pb y) -> Forall2 Rel a b -> Forall Pb b.
Proof.
  intros Himp Hab. induction Hab; constructor; eauto.
Qed.

Lemma reachable_state_wide (e : Env) :
  reachable e -> Forall (fun r => (3 <= length r)%nat) (state e).
Proof.
  induction 1 as [c e H|e e' st Hr IH H|e e' a r Hr IH H|e e' s Hr IH H
                 |e e' v Hr IH H|e e' v Hr IH H].
  - unfold init in H. split_ok H. simpl.
    match goal with
    | Hi : initial_state _ = Ok _ |- _ =>
        apply initial_state_ok in Hi as (? & ? & _ & _ & _ & Hrows)
    end.
    eapply Forall_impl; [|exact Hrows]. simpl. tauto.
  - unfold reset in H. split_ok H. simpl.
    match goal with
    | Hi : initial_state _ = Ok _ |- _ =>
        apply initial_state_ok in Hi as (? & ? & _ & _ & _ & Hrows)
    end.
    eapply Forall_impl; [|exact Hrows]. simpl. tauto.
  - pose proof (reachable_indices_ok Hr) as Hok1.
    apply step_ok in H as (_ & _ & _ & _ & Hrows).
    eapply Forall2_wide; [| |exact (Hrows Hok1)]; [|exact IH].
    intros r0 r1 (Hl & _). exact Hl.
  - apply seed_frame in H as (_ & _ & Hs & _). rewrite Hs. exact IH.
  - apply set_step_size_frame in H as (_ & Hs). rewrite Hs. exact IH.
  - apply set_num_trajectories_frame in H as (_ & Hs). rewrite Hs. exact IH.
Qed.

(** C1 (as amended).  In every environment a caller can hold whose
    max_inventory and max_cash are non-negative, after any call to [step]
    the inventory of every trajectory lies in
    [-max_inventory, max_inventory] and its cash in [-max_cash, max_cash].
    Within the step the values are clipped after the trades; clipping
    cannot raise, it prints one notice per clipped column, and the step
    carries on with the clipped values.  The constructor checks neither
    bound, and a negative one leaves an empty interval. *)
Theorem C1_inventory_and_cash_stay_clipped (e : Env) :
  reachable e -> 0 <= max_inventory e -> 0 <= max_cash e ->
  (forall a r e', step a e = Ok (r, e') ->
     max_inventory e' = max_inventory e /\ max_cash e' = max_cash e /\
     next_state r = state e' /\
     Forall (bounded_row (max_inventory e) (max_cash e)) (state e')) /\
  (forall arrivals fills action e1 e2,
     market_making_trades arrivals fills action e = Ok e1 ->
     execution_trades action e1 = Ok e2 ->
     exists e3 e4,
       _clip_inventory_and_cash e2 = Ok e3 /\
       stdout e3 = stdout e ++ clip_notices e2 /\
       Forall (bounded_row (max_inventory e) (max_cash e)) (state e3) /\
       _update_agent_state arrivals fills action e = Ok e4 /\
       stdout e4 = stdout e3 /\
       Forall (bounded_row (max_inventory e) (max_cash e)) (state e4)).
Proof.
  intros Hr Hmi Hmc.
  assert (Hclip : forall lo x, 0 <= lo -> - lo <= clip1 (- lo) lo x /\ clip1 (- lo) lo x <= lo).
  { intros lo x Hlo. apply clip1_bounds. lra. }
  split.
  - intros a r e' H. apply step_ok in H as (Hl & _ & Hn & _ & Hrows).
    split; [unfold layout in Hl; congruence|].
    split; [unfold layout in Hl; congruence|].
    split; [exact Hn|].
    specialize (Hrows (reachable_indices_ok Hr)).
    eapply Forall2_right; [|exact Hrows].
    intros row row' (_ & _ & _ & (x & Hx) & (y & Hy)).
    unfold bounded_row. rewrite Hx, Hy. split; apply Hclip; assumption.
  - intros arrivals fills action e1 e2 H1 H2.
    destruct (_update_agent_state_total arrivals fills action e
                (reachable_state_wide Hr) H1 H2) as (e3 & e4 & H3 & Ho3 & H4 & Ho4).
    exists e3, e4. repeat split; auto.
    + apply market_making_trades_frame in H1 as (Hl1 & _).
      apply execution_trades_frame in H2 as (Hl2 & _).
      apply _clip_inventory_and_cash_ok in H3 as (_ & _ & _ & Hrows).
      assert (Hb : max_inventory e2 = max_inventory e /\ max_cash e2 = max_cash e).
      { unfold layout in *. split; congruence. }
      destruct Hb as [Hb1 Hb2]. rewrite Hb1, Hb2 in Hrows.
      eapply Forall2_right; [|exact Hrows].
      intros row row' (_ & _ & Hx & Hy).
      unfold bounded_row. rewrite Hx, Hy. split; apply Hclip; assumption.
    + apply _update_agent_state_ok in H4 as (_ & _ & _ & Hrows).
      eapply Forall2_right; [|exact Hrows].
      intros row row' (_ & _ & _ & _ & (x & Hx) & (y & Hy)).
      unfold bounded_row. rewrite Hx, Hy. split; apply Hclip; assumption.
Qed.

End StepFrames.

(** C1 on a touch environment of two trajectories, fresh from its
    constructor. *)
Lemma C1_inventory_and_cash_stay_clipped_witness :
  let e := Fixture.make (Fixture.config "touch" 2 4 (Some 3%N)) in
  reachable e /\ 0 <= max_inventory e /\ 0 <= max_cash e /\
  (forall a r e', step a e = Ok (r, e') ->
     max_inventory e' = max_inventory e /\ max_cash e' = max_cash e /\
     next_state r = state e' /\
     Forall (bounded_row (max_inventory e) (max_cash e)) (state e')) /\
  (forall arrivals fills action e1 e2,
     market_making_trades arrivals fills action e = Ok e1 ->
     execution_trades action e1 = Ok e2 ->
     exists e3 e4,
       _clip_inventory_and_cash e2 = Ok e3 /\
       stdout e3 = stdout e ++ clip_notices e2 /\
       Forall (bounded_row (max_inventory e) (max_cash e)) (state e3) /\
       _update_agent_state arrivals fills action e = Ok e4 /\
       stdout e4 = stdout e3 /\
       Forall (bounded_row (max_inventory e) (max_cash e)) (state e4)).
Proof.
  intros e.
  assert (Hr : reachable e).
  { apply (reach_init (Fixture.config "touch" 2 4 (Some 3%N))).
    vm_compute. reflexivity. }
  assert (Hmi : 0 <= max_inventory e) by (vm_compute; discriminate).
  assert (Hmc : 0 <= max_cash e) by (vm_compute; discriminate).
  split; [exact Hr|]. split; [exact Hmi|]. split; [exact Hmc|].
  exact (C1_inventory_and_cash_stay_clipped Hr Hmi Hmc).
Defined.

(** C1 as stated fails: the constructor stores max_inventory unchecked,
    and with max_inventory = -1 the interval [1, -1] is empty.  numpy's
    clip then returns the upper bound: a step of a touch environment
    built with that bound returns, and leaves every trajectory with an
    inventory of -1, which is not in [-max_inventory, max_inventory]. *)
Lemma C1_counterexample :
  let e := Fixture.make
             (with_max_inventory (- (1)) (Fixture.config "touch" 2 4 (Some 3%N))) in
  reachable e /\ max_inventory e = - (1) /\
  exists r e',
    step (Mat [[1; 1]; [1; 1]]) e = Ok (r, e') /\
    map (fun row => Qred (nth INVENTORY_INDEX row 0)) (state e) = [0; 0] /\
    map (fun row => Qred (nth INVENTORY_INDEX row 0)) (next_state r) =
      [- (1); - (1)] /\
    Forall (fun row => ~ bounded_row (max_inventory e) (max_cash e) row)
      (next_state r).
Proof.
  intros e. split.
  { apply (reach_init
             (with_max_inventory (- (1)) (Fixture.config "touch" 2 4 (Some 3%N)))).
    vm_compute. reflexivity. }
  split; [reflexivity|].
  do 2 eexists. split; [vm_compute; reflexivity|].
  split; [vm_compute; reflexivity|]. split; [vm_compute; reflexivity|].
  repeat constructor; unfold bounded_row; intros [[H1 H2] _];
    vm_compute in H1; apply H1; reflexivity.
Qed.

(** ** Episode length *)

Section Episode.

Context {P R G : Type}.
Context {PM : Process.StochasticProcessModel P}.
Context {RF : Reward.RewardFunction R}.
Context {RG : Random.Generator G}.

Local Abbreviation Env := (@Env P R G).







End Episode.


(** ** Seeding *)

Section Seeding.

Context {P R G : Type}.
Context {PM : Process.StochasticProcessModel P}.
Context {RF : Reward.RewardFunction R}.
Context {RG : Random.Generator G}.

Local Abbreviation Env := (@Env P R G).

Lemma seed_some_slots (z : N) (e e' : Env) :
  stochastic_processes e = _get_stochastic_processes e ->
  seed (Some z) e = Ok e' ->
  slots e' =
    (Process.seed (z + 0 + 1) (midprice_model e),
     option_map (Process.seed (z + 1 + 1)) (arrival_model e),
     option_map (Process.seed (z + (1 + present (arrival_model e)) + 1))
       (fill_probability_model e),
     option_map
       (Process.seed
          (z + (1 + present (arrival_model e) + present (fill_probability_model e)) + 1))
       (price_impact_model e)).
Proof.
  unfold seed. intros Hn H.
  change (stochastic_processes (set_rng _ e)) with (stochastic_processes e) in H.
  rewrite Hn in H. unfold _get_stochastic_processes, PROCESS_NAMES in H.
  destruct (arrival_model e) as [pa|] eqn:Ea,
           (fill_probability_model e) as [pf|] eqn:Ef,
           (price_impact_model e) as [pi|] eqn:Ei;
    cbn in H; rewrite ?Ea, ?Ef, ?Ei in H; cbn in H;
    rewrite ?Ea, ?Ef, ?Ei in H; cbn in H; rewrite ?Ea, ?Ef, ?Ei in H; cbn in H;
    injection H as <-; unfold slots; cbn; rewrite ?Ea, ?Ef, ?Ei; reflexivity.
Qed.

(** C10.  A constructor called with seed 0 builds the engine's generator
    from that seed but seeds no process: the processes are left as they
    were configured, exactly as when no seed is given.  For every other
    seed each configured process receives seed + position + 1. *)
Theorem C10_seed_zero_is_not_propagated (c : Config) (e : Env) :
  init c = Ok e ->
  (exists (e_pre : Env) (st : matrix) (e_post : Env),
     rng e_pre = Random.default_rng (cfg_seed c) (cfg_os_entropy c) /\
     initial_state e_pre = Ok (st, e_post) /\ rng e = rng e_post) /\
  (cfg_seed c = Some 0%N \/ cfg_seed c = None -> slots e = configured_slots c) /\
  (forall z, cfg_seed c = Some z -> z <> 0%N -> slots e = seeded_slots z c).
Proof.
  unfold init. intros H. split_ok H.
  apply py_div_ok in Hc as (_ & ->).
  match goal with
  | Hs : match cfg_seed c with _ => _ end = Ok ?e1,
    Hi : initial_state ?e1 = Ok (?st, ?e2) |- _ =>
      rename e1 into e_pre; rename e2 into e_post; rename Hs into Hseed;
      pose proof (initial_state_frame _ Hi) as (_ & _ & Hslots & _);
      assert (Hrng : rng e_pre = Random.default_rng (cfg_seed c) (cfg_os_entropy c));
      [|split; [exists e_pre, st, e_post; repeat split; assumption|]]
  end.
  { destruct (cfg_seed c) as [z|]; [destruct (N.eqb z 0) eqn:Ez|].
    - inversion Hseed. reflexivity.
    - unfold seed in Hseed.
      apply (for_processes_keeps rng) in Hseed; [exact Hseed|].
      intros i name p ea eb Hb. inversion Hb. store_frame.
    - inversion Hseed. reflexivity. }
  change (slots (set_action_space _ _)) with (slots e_post).
  rewrite Hslots.
  split.
  - intros [Hs|Hs]; rewrite Hs in Hseed; cbn [N.eqb] in Hseed;
      injection Hseed as <-; reflexivity.
  - intros z Hz Hnz. rewrite Hz in Hseed.
    apply N.eqb_neq in Hnz. rewrite Hnz in Hseed.
    apply seed_some_slots in Hseed; [|reflexivity].
    rewrite Hseed. reflexivity.
Qed.

End Seeding.

(** C10 on a configuration with seed 0. *)
Lemma C10_seed_zero_is_not_propagated_witness :
  let c := Fixture.config "touch" 2 4 (Some 0%N) in
  let e := Fixture.make c in
  init c = Ok e /\
  ((exists (e_pre : Fixture.ToyEnv) (st : matrix) (e_post : Fixture.ToyEnv),
      rng e_pre = Random.default_rng (cfg_seed c) (cfg_os_entropy c) /\
      initial_state e_pre = Ok (st, e_post) /\ rng e = rng e_post) /\
   (cfg_seed c = Some 0%N \/ cfg_seed c = None -> slots e = configured_slots c) /\
   (forall z, cfg_seed c = Some z -> z <> 0%N -> slots e = seeded_slots z c)).
Proof.
  intros c e.
  assert (Hinit : init c = Ok e) by (vm_compute; reflexivity).
  split; [exact Hinit|]. exact (C10_seed_zero_is_not_propagated c Hinit).
Defined.

(** The generators of the four processes after construction: untouched
    under seed 0, the derived seeds 4, 5, 6, 7 under seed 3. *)
Example seeds_of_the_processes :
  let rngs (e : Fixture.ToyEnv) :=
    (Fixture.tp_rng (midprice_model e),
     option_map Fixture.tp_rng (arrival_model e),
     option_map Fixture.tp_rng (fill_probability_model e),
     option_map Fixture.tp_rng (price_impact_model e)) in
  rngs (Fixture.make (Fixture.config "touch" 2 4 (Some 0%N)))
    = (7%N, Some 11%N, Some 13%N, Some 17%N) /\
  rngs (Fixture.make (Fixture.config "touch" 2 4 None))
    = (7%N, Some 11%N, Some 13%N, Some 17%N) /\
  rngs (Fixture.make (Fixture.config "touch" 2 4 (Some 3%N)))
    = (4%N, Some 5%N, Some 6%N, Some 7%N).
Proof. repeat split; vm_compute; reflexivity. Qed.

(** C5 fails at seed 0.  Two runs of one configuration (the default
    midprice model, seed 0) that differ only in the entropy the operating
    system hands to unseeded generators start from the same state and
    leave it with different asset prices after the first step. *)
Lemma C5_seed_zero_runs_differ :
  let c := with_midprice_model None (Fixture.config "touch" 2 4 (Some 0%N)) in
  let a := Mat [[1; 1]; [1; 0]] in
  exists s0 m1 m2 l1 l2,
    episode (G := N) (with_os_entropy 42 c) [a; a; a; a] = Ok (s0, m1 :: l1) /\
    episode (G := N) (with_os_entropy 43 c) [a; a; a; a] = Ok (s0, m2 :: l2) /\
    ~ nth ASSET_PRICE_INDEX (nth 0 m1 []) 0 == nth ASSET_PRICE_INDEX (nth 0 m2 []) 0.
Proof.
  intros c a. do 5 eexists.
  split; [vm_compute; reflexivity|]. split; [vm_compute; reflexivity|].
  vm_compute. discriminate.
Qed.

(** Under a seed other than 0 the same two runs coincide. *)
Example nonzero_seed_runs_coincide :
  let c := with_midprice_model None (Fixture.config "touch" 2 4 (Some 3%N)) in
  let a := Mat [[1; 1]; [1; 0]] in
  episode (G := N) (with_os_entropy 42 c) [a; a; a; a]
  = episode (G := N) (with_os_entropy 43 c) [a; a; a; a] /\
  is_ok (episode (G := N) (with_os_entropy 42 c) [a; a; a; a]) = true.
Proof. split; vm_compute; reflexivity. Qed.

(** ** The property setters *)

Section Setters.

Context {P R G : Type}.
Context {PM : Process.StochasticProcessModel P}.
Context {RF : Reward.RewardFunction R}.
Context {RG : Random.Generator G}.

Local Abbreviation Env := (@Env P R G).

Lemma getattr_names (name : string) (e : Env) (p : P) :
  getattr name e = Some p -> In name PROCESS_NAMES.
Proof.
  unfold getattr, PROCESS_NAMES.
  destruct (String.eqb_spec name "midprice_model") as [->|_]; [simpl; auto|].
  destruct (String.eqb_spec name "arrival_model") as [->|_]; [simpl; auto|].
  destruct (String.eqb_spec name "fill_probability_model") as [->|_]; [simpl; auto|].
  destruct (String.eqb_spec name "price_impact_model") as [->|_]; [simpl; auto 6|].
  discriminate.
Qed.

Lemma getattr_store_same (name : string) (e : Env) (p q : P) :
  getattr name e = Some q -> getattr name (store name p e) = Some p.
Proof.
  intros Hq. apply getattr_names in Hq. unfold PROCESS_NAMES in Hq. simpl in Hq.
  destruct Hq as [<-|[<-|[<-|[<-|[]]]]]; reflexivity.
Qed.

Lemma getattr_store_other (name name' : string) (e : Env) (p : P) :
  name <> name' -> getattr name (store name' p e) = getattr name e.
Proof.
  intros Hne. unfold store.
  destruct (String.eqb_spec name' "midprice_model") as [->|_].
  { unfold getattr. destruct (String.eqb_spec name "midprice_model"); [congruence|].
    reflexivity. }
  destruct (String.eqb_spec name' "arrival_model") as [->|_].
  { unfold getattr. destruct (String.eqb_spec name "midprice_model"); [reflexivity|].
    destruct (String.eqb_spec name "arrival_model"); [congruence|]. reflexivity. }
  destruct (String.eqb_spec name' "fill_probability_model") as [->|_].
  { unfold getattr. destruct (String.eqb_spec name "midprice_model"); [reflexivity|].
    destruct (String.eqb_spec name "arrival_model"); [reflexivity|].
    destruct (String.eqb_spec name "fill_probability_model"); [congruence|].
    reflexivity. }
  destruct (String.eqb_spec name' "price_impact_model") as [->|_]; [|reflexivity].
  unfold getattr. destruct (String.eqb_spec name "midprice_model"); [reflexivity|].
  destruct (String.eqb_spec name "arrival_model"); [reflexivity|].
  destruct (String.eqb_spec name "fill_probability_model"); [reflexivity|].
  destruct (String.eqb_spec name "price_impact_model"); [congruence|]. reflexivity.
Qed.

(** A loop that replaces, under a condition and with a notice, each
    registered process by an updated one. *)
Lemma for_processes_update (cond : P -> bool) (f : P -> P) (note : string -> Notice)
  (names : list string) :
  NoDup names ->
  forall (i : nat) (e : Env),
  exists e',
    for_processes
      (fun _ name p e =>
         if cond p then Ok (store name (f p) (print (note name) e)) else Ok e)
      i names e = Ok e' /\
    (forall name p, In name names -> getattr name e = Some p ->
       getattr name e' = Some (if cond p then f p else p)) /\
    (forall name, ~ In name names -> getattr name e' = getattr name e) /\
    stdout e' =
      stdout e ++
      flat_map (fun name =>
                  match getattr name e with
                  | Some p => if cond p then [note name] else []
                  | None => []
                  end) names /\
    reward_function e' = reward_function e /\
    _step_size e' = _step_size e /\ _num_trajectories e' = _num_trajectories e /\
    stochastic_processes e' = stochastic_processes e.
Proof.
  induction 1 as [|name names Hnotin Hnd IH]; intros i e; simpl.
  - exists e. repeat split; auto; try tauto. now rewrite app_nil_r.
  - destruct (getattr name e) as [p|] eqn:Ep.
    + set (e1 := if cond p then store name (f p) (print (note name) e) else e).
      assert (Hbody : (if cond p then Ok (store name (f p) (print (note name) e))
                       else Ok e) = Ok e1) by (subst e1; destruct (cond p); reflexivity).
      rewrite Hbody. simpl.
      destruct (IH (S i) e1) as (e' & Hrun & Hin & Hout & Hstd & Hrf & Hs & Hn & Hnames).
      assert (Hget1 : forall n0, n0 <> name -> getattr n0 e1 = getattr n0 e).
      { intros n0 Hne. subst e1. destruct (cond p); [|reflexivity].
        now rewrite getattr_store_other. }
      assert (Hsame1 : getattr name e1 = Some (if cond p then f p else p)).
      { subst e1. destruct (cond p); [|exact Ep].
        eapply getattr_store_same. exact Ep. }
      exists e'. split; [exact Hrun|].
      split; [|split; [|split; [|repeat split]]].
      * intros n0 p0 [<-|Hn0] Hp0.
        -- rewrite (Hout _ Hnotin), Hsame1. rewrite Ep in Hp0.
           injection Hp0 as <-. reflexivity.
        -- assert (Hne : n0 <> name) by (intros ->; contradiction).
           apply Hin; [exact Hn0|]. now rewrite Hget1.
      * intros n0 Hn0. rewrite Hout by tauto. apply Hget1. intros ->. apply Hn0. now left.
      * rewrite Hstd.
        assert (Hfm : flat_map (fun name0 => match getattr name0 e1 with
                                 | Some p0 => if cond p0 then [note name0] else []
                                 | None => [] end) names
                    = flat_map (fun name0 => match getattr name0 e with
                                 | Some p0 => if cond p0 then [note name0] else []
                                 | None => [] end) names).
        { rewrite !flat_map_concat_map. f_equal. apply map_ext_in.
          intros n0 Hn0. rewrite Hget1; [reflexivity|].
          intros ->. contradiction. }
        rewrite Hfm. subst e1. destruct (cond p); simpl.
        -- assert (Ho : stdout (store name (f p) (print (note name) e))
                         = stdout e ++ [note name]) by store_frame.
           rewrite Ho, <- app_assoc. reflexivity.
        -- reflexivity.
      * rewrite Hrf. subst e1. destruct (cond p); [store_frame|reflexivity].
      * rewrite Hs. subst e1. destruct (cond p); [store_frame|reflexivity].
      * rewrite Hn. subst e1. destruct (cond p); [store_frame|reflexivity].
      * rewrite Hnames. subst e1. destruct (cond p); [store_frame|reflexivity].
    + destruct (IH (S i) e) as (e' & Hrun & Hin & Hout & Hstd & Hrest).
      exists e'. split; [exact Hrun|].
      split; [|split; [|split; [|exact Hrest]]].
      * intros n0 p0 [<-|Hn0] Hp0; [congruence|]. now apply Hin.
      * intros n0 Hn0. apply Hout. tauto.
      * exact Hstd.
Qed.

Lemma init_names_nodup (c : Config) (e : Env) :
  init c = Ok e -> NoDup (stochastic_processes e).
Proof.
  unfold init. intros H. split_ok H.
  match goal with
  | Hs : match cfg_seed c with _ => _ end = Ok ?e1,
    Hi : initial_state ?e1 = Ok (?st, ?e2) |- _ =>
      apply (init_seed_frame (cfg_seed c)) in Hs as (_ & Ht1 & _);
      apply initial_state_frame in Hi as (_ & Ht2 & _);
      change (stochastic_processes (set_action_space _ _))
        with (stochastic_processes e2);
      replace (stochastic_processes e2) with (stochastic_processes e1)
        by (unfold static in Ht2; congruence)
  end.
  unfold static in Ht1. cbn [stochastic_processes set_stochastic_process_indices
                              set_stochastic_processes] in Ht1.
  injection Ht1 as _ _ _ _ _ Hn _ _ _ _ _ _. rewrite Hn.
  unfold _get_stochastic_processes. apply NoDup_filter. unfold PROCESS_NAMES.
  repeat constructor; simpl; intuition discriminate.
Qed.

Lemma set_step_size_names (v : Q) (e e' : Env) :
  set_step_size v e = Ok e' -> stochastic_processes e' = stochastic_processes e.
Proof.
  unfold set_step_size. intros H. split_ok H.
  assert (Hx : stochastic_processes x = stochastic_processes e).
  { apply (for_processes_keeps stochastic_processes) in Hc; [exact Hc|].
    intros i name p e0 e1 Hb. destruct (negb _); inversion Hb; [|reflexivity].
    store_frame. }
  destruct (Reward.step_size (reward_function x)); inversion Hk; subst; exact Hx.
Qed.

Lemma set_num_trajectories_names (v : nat) (e e' : Env) :
  set_num_trajectories v e = Ok e' -> stochastic_processes e' = stochastic_processes e.
Proof.
  unfold set_num_trajectories. intros H.
  apply (for_processes_keeps stochastic_processes) in H; [exact H|].
  intros i name p e0 e1 Hb. destruct (negb _); inversion Hb; [|reflexivity].
  store_frame.
Qed.

Lemma reachable_names_nodup (e : Env) : reachable e -> NoDup (stochastic_processes e).
Proof.
  induction 1 as [c e H|e e' st _ IH H|e e' a r _ IH H|e e' s _ IH H
                 |e e' v _ IH H|e e' v _ IH H].
  - eapply init_names_nodup; eauto.
  - apply reset_frame in H as (_ & Ht & _). unfold static in Ht.
    replace (stochastic_processes e') with (stochastic_processes e) by congruence.
    exact IH.
  - apply step_ok in H as (_ & Ht & _). unfold static in Ht.
    replace (stochastic_processes e') with (stochastic_processes e) by congruence.
    exact IH.
  - apply seed_frame in H as (_ & Ht & _). unfold static in Ht.
    replace (stochastic_processes e') with (stochastic_processes e) by congruence.
    exact IH.
  - rewrite (set_step_size_names _ _ H). exact IH.
  - rewrite (set_num_trajectories_names _ _ H). exact IH.
Qed.

(** C7 (as amended).  Setting [step_size] stores the new value, hands it
    to every registered process whose step size differs (printing a
    notice for each), and hands it to the reward function when the reward
    function has a [step_size] attribute (printing a notice then, and only
    then).  Setting [num_trajectories] stores the new value and hands it
    to every registered process whose batch size differs (printing a
    notice for each); the reward function is not touched and no notice
    mentions it.  Neither setter can raise. *)
Theorem C7_setters_propagate (e : Env) :
  reachable e ->
  (forall v, exists e',
     set_step_size v e = Ok e' /\ step_size e' = v /\
     (forall name p, In name (stochastic_processes e) -> getattr name e = Some p ->
        getattr name e' =
          Some (if negb (Qeq_bool (Process.step_size p) v)
                then Process.set_step_size v p else p)) /\
     reward_function e' =
       match Reward.step_size (reward_function e) with
       | Some _ => Reward.set_step_size v (reward_function e)
       | None => reward_function e
       end /\
     stdout e' = stdout e ++ step_size_notices v e) /\
  (forall n, exists e',
     set_num_trajectories n e = Ok e' /\ num_trajectories e' = n /\
     (forall name p, In name (stochastic_processes e) -> getattr name e = Some p ->
        getattr name e' =
          Some (if negb (Nat.eqb (Process.num_trajectories p) n)
                then Process.set_num_trajectories n p else p)) /\
     reward_function e' = reward_function e /\
     stdout e' = stdout e ++ num_trajectories_notices n e).
Proof.
  intros Hr. pose proof (reachable_names_nodup Hr) as Hnd. split.
  - intros v. unfold set_step_size.
    destruct (for_processes_update
                (fun p => negb (Qeq_bool (Process.step_size p) v))
                (Process.set_step_size v) (fun name => SettingStepSize name v)
                Hnd 0 (set__step_size v e))
      as (e1 & Hrun & Hin & _ & Hstd & Hrf & Hs & _ & _).
    change (stochastic_processes (set__step_size v e)) with (stochastic_processes e).
    rewrite Hrun. cbn [rbind]. unfold step_size_notices.
    change (reward_function (set__step_size v e)) with (reward_function e) in Hrf.
    change (stdout (set__step_size v e)) with (stdout e) in Hstd.
    rewrite Hrf.
    destruct (Reward.step_size (reward_function e)); eexists; (split; [reflexivity|]);
      unfold step_size.
    + cbn [_step_size set_reward_function print set_stdout reward_function stdout].
      split; [exact Hs|]. split; [exact Hin|]. split; [reflexivity|].
      rewrite Hstd, <- app_assoc. reflexivity.
    + split; [exact Hs|]. split; [exact Hin|]. split; [exact Hrf|].
      rewrite Hstd, app_nil_r. reflexivity.
  - intros n. unfold set_num_trajectories.
    destruct (for_processes_update
                (fun p => negb (Nat.eqb (Process.num_trajectories p) n))
                (Process.set_num_trajectories n)
                (fun name => SettingNumTrajectories name n)
                Hnd 0 (set__num_trajectories n e))
      as (e1 & Hrun & Hin & _ & Hstd & Hrf & _ & Hn & _).
    change (stochastic_processes (set__num_trajectories n e))
      with (stochastic_processes e).
    exists e1. split; [exact Hrun|]. split; [exact Hn|]. split; [exact Hin|].
    split; [exact Hrf|]. exact Hstd.
Qed.

End Setters.

(** C7 on a touch environment fresh from its constructor. *)
Lemma C7_setters_propagate_witness :
  let e := Fixture.make (Fixture.config "touch" 2 4 (Some 3%N)) in
  reachable e /\
  (forall v, exists e',
     set_step_size v e = Ok e' /\ step_size e' = v /\
     (forall name p, In name (stochastic_processes e) -> getattr name e = Some p ->
        getattr name e' =
          Some (if negb (Qeq_bool (Process.step_size p) v)
                then Process.set_step_size v p else p)) /\
     reward_function e' =
       match Reward.step_size (reward_function e) with
       | Some _ => Reward.set_step_size v (reward_function e)
       | None => reward_function e
       end /\
     stdout e' = stdout e ++ step_size_notices v e) /\
  (forall n, exists e',
     set_num_trajectories n e = Ok e' /\ num_trajectories e' = n /\
     (forall name p, In name (stochastic_processes e) -> getattr name e = Some p ->
        getattr name e' =
          Some (if negb (Nat.eqb (Process.num_trajectories p) n)
                then Process.set_num_trajectories n p else p)) /\
     reward_function e' = reward_function e /\
     stdout e' = stdout e ++ num_trajectories_notices n e).
Proof.
  intros e.
  assert (Hr : reachable e).
  { apply (reach_init (Fixture.config "touch" 2 4 (Some 3%N))).
    vm_compute. reflexivity. }
  split; [exact Hr|]. exact (C7_setters_propagate Hr).
Defined.

(** C7 as stated fails.  Setting [num_trajectories] leaves a reward
    function that tracks the step size as it was and prints nothing about
    it; setting [step_size] does the same to a reward function without a
    [step_size] attribute. *)
Lemma C7_counterexample :
  let with_attribute :=
    with_reward_function (Some (Fixture.Build_ToyReward (Some (1 # 4)) 0))
      (Fixture.config "touch" 2 4 None) in
  let without_attribute := Fixture.config "touch" 2 4 None in
  (exists e e',
     init with_attribute = Ok e /\
     set_num_trajectories 5 e = Ok e' /\
     num_trajectories e' = 5%nat /\
     reward_function e' = reward_function e /\
     stdout e' =
       [SettingNumTrajectories "midprice_model" 5;
        SettingNumTrajectories "arrival_model" 5;
        SettingNumTrajectories "fill_probability_model" 5;
        SettingNumTrajectories "price_impact_model" 5]) /\
  (exists e e',
     init without_attribute = Ok e /\
     set_step_size (1 # 8) e = Ok e' /\
     Reward.step_size (reward_function e') = None /\
     reward_function e' = reward_function e /\
     stdout e' =
       [SettingStepSize "midprice_model" (1 # 8);
        SettingStepSize "arrival_model" (1 # 8);
        SettingStepSize "fill_probability_model" (1 # 8);
        SettingStepSize "price_impact_model" (1 # 8)]).
Proof.
  intros c1 c2. split; do 2 eexists;
    (split; [vm_compute; reflexivity|]); (split; [vm_compute; reflexivity|]);
    repeat split.
Qed.

(** ** Construction errors *)

Section Construction.

Context {P R G : Type}.
Context {PM : Process.StochasticProcessModel P}.
Context {RF : Reward.RewardFunction R}.
Context {RG : Random.Generator G}.

Local Abbreviation Env := (@Env P R G).

Lemma check_all_ok (names : list string) (e : Env) (u : unit) :
  check_all names e = Ok u ->
  forall name, In name names -> getattr name e <> None.
Proof.
  induction names as [|n names IH]; simpl; intros H name Hin; [contradiction|].
  split_ok H. apply py_assert_ok in Hc.
  destruct Hin as [<-|Hin]; [|eapply IH; eauto].
  destruct (getattr n e); [discriminate|discriminate].
Qed.

Lemma _check_required_stochastic_processes_ok (e : Env) (u : unit) :
  _check_required_stochastic_processes e = Ok u ->
  str_in (action_type e) ACTION_TYPES = true /\
  (action_type e = "touch" -> arrival_model e <> None) /\
  (action_type e = "limit" \/ action_type e = "limit_and_market" ->
   arrival_model e <> None /\ fill_probability_model e <> None) /\
  (action_type e = "speed" -> price_impact_model e <> None).
Proof.
  unfold _check_required_stochastic_processes. intros H. split_ok H.
  apply py_assert_ok in Hc. split; [exact Hc|].
  pose proof (check_all_ok _ _ Hk0) as Hall. clear Hk0.
  repeat split.
  - intros Ha. rewrite Ha in Hc0. simpl in Hc0. inversion Hc0. subst.
    apply (Hall "arrival_model"). simpl. auto.
  - destruct H as [Ha|Ha]; rewrite Ha in Hc0; simpl in Hc0; inversion Hc0; subst;
      apply (Hall "arrival_model"); simpl; auto.
  - destruct H as [Ha|Ha]; rewrite Ha in Hc0; simpl in Hc0; inversion Hc0; subst;
      apply (Hall "fill_probability_model"); simpl; auto.
  - intros Ha. rewrite Ha in Hc0. simpl in Hc0. inversion Hc0. subst.
    apply (Hall "price_impact_model"). simpl. auto.
Qed.

Lemma _get_initial_inventories_ok (e e' : Env) (a : ndarray) :
  _get_initial_inventories e = Ok (a, e') ->
  (exists z, initial_inventory e = InvInt z) \/
  (exists low high, initial_inventory e = InvTuple [low; high]).
Proof.
  unfold _get_initial_inventories.
  destruct (initial_inventory e) as [z|[|lo [|hi [|]]]|]; intros H;
    try discriminate; eauto.
Qed.

(** The two limit regimes part ways on a missing maximal depth: the
    limit regime asserts, the limit-and-market regime builds its box. *)
Lemma _get_action_space_limit (e : Env) :
  action_type e = "limit" -> max_depth e = None ->
  exists msg, _get_action_space e = Raise (AssertionError msg).
Proof.
  intros Ha Hd. unfold _get_action_space. rewrite Ha, Hd. simpl. eauto.
Qed.

Lemma _get_action_space_limit_and_market (e : Env) :
  action_type e = "limit_and_market" -> max_depth e = None ->
  _get_action_space e =
    Ok (Some (Box [Some 0; Some 0; Some 0; Some 0] [None; None; Some 1; Some 1])).
Proof.
  intros Ha Hd. unfold _get_action_space. rewrite Ha, Hd. reflexivity.
Qed.

Lemma _get_start_time_static (e e' : Env) (q : Q) :
  _get_start_time e = Ok (q, e') -> static e' = static e.
Proof.
  unfold _get_start_time. destruct (start_time e); intros H; split_ok H; reflexivity.
Qed.

(** What a successful construction required of its arguments. *)
Lemma init_requirements (c : Config) (e : Env) :
  init c = Ok e ->
  ~ inject_Z (cfg_n_steps c) == 0 /\
  str_in (cfg_action_type c) ACTION_TYPES = true /\
  (cfg_action_type c = "touch" -> cfg_arrival_model c <> None) /\
  (cfg_action_type c = "limit" \/ cfg_action_type c = "limit_and_market" ->
   cfg_arrival_model c <> None /\ cfg_fill_probability_model c <> None) /\
  (cfg_action_type c = "speed" -> cfg_price_impact_model c <> None) /\
  ((exists z, cfg_initial_inventory c = InvInt z) \/
   (exists low high, cfg_initial_inventory c = InvTuple [low; high])) /\
  (cfg_action_type c = "limit" -> max_depth e <> None).
Proof.
  intros H. pose proof (init_ok _ H) as (_ & _ & _ & _ & Hat & _).
  unfold init in H. split_ok H.
  apply py_div_ok in Hc as (Hn & ->).
  apply _check_required_stochastic_processes_ok in Hc0 as (Ha & Ht & Hl & Hs).
  cbn [action_type arrival_model fill_probability_model price_impact_model] in Ha, Ht, Hl, Hs.
  split; [exact Hn|]. split; [exact Ha|]. split; [exact Ht|]. split; [exact Hl|].
  split; [exact Hs|]. split.
  - match goal with
    | Hs : match cfg_seed c with _ => _ end = Ok ?e1,
      Hi : initial_state ?e1 = Ok _ |- _ =>
        apply (init_seed_frame (cfg_seed c)) in Hs as (_ & Ht1 & _);
        unfold initial_state in Hi; split_ok Hi
    end.
    match goal with
    | Hs : _get_start_time _ = Ok (_, ?e2),
      Hv : _get_initial_inventories ?e2 = Ok _ |- _ =>
        apply _get_initial_inventories_ok in Hv;
        apply _get_start_time_static in Hs;
        replace (initial_inventory e2) with (cfg_initial_inventory c) in Hv;
        [exact Hv|]
    end.
    unfold static in *. cbn [initial_inventory set_stochastic_process_indices
                             set_stochastic_processes] in Ht1. congruence.
  - intros Hlimit Hnone.
    match goal with
    | Hsp : _get_action_space ?e5 = Ok _ |- _ =>
        destruct (_get_action_space_limit e5) as (msg & Hraise);
        [|exact Hnone|congruence]
    end.
    rewrite <- Hlimit. exact Hat.
Qed.

(** The fatal errors of construction: an unsupported action type, a
    required process that is missing, an initial inventory that is
    neither an int nor a pair; and, in the limit regime, a maximal depth
    that cannot be resolved. *)
Lemma construction_errors (c : Config) :
  str_in (cfg_action_type c) ACTION_TYPES = false \/
  (cfg_action_type c = "touch" /\ cfg_arrival_model c = None) \/
  ((cfg_action_type c = "limit" \/ cfg_action_type c = "limit_and_market") /\
   (cfg_arrival_model c = None \/ cfg_fill_probability_model c = None)) \/
  (cfg_action_type c = "speed" /\ cfg_price_impact_model c = None) \/
  ((forall z, cfg_initial_inventory c <> InvInt z) /\
   (forall low high, cfg_initial_inventory c <> InvTuple [low; high])) ->
  exists err, init c = Raise err.
Proof.
  intros Hbad. destruct (init c) as [e|err] eqn:E; [exfalso|eauto].
  apply init_requirements in E as (_ & Ha & Ht & Hl & Hs & Hi & _).
  destruct Hbad as [H|[[H1 H2]|[[H1 H2]|[[H1 H2]|[H1 H2]]]]].
  - congruence.
  - now apply Ht.
  - destruct (Hl H1) as [Hx Hy]. destruct H2; contradiction.
  - now apply Hs.
  - destruct Hi as [(z & Hz)|(lo & hi & Hz)]; [eapply H1|eapply H2]; eauto.
Qed.

End Construction.

(** C8 fails in the limit-and-market regime.  With a fill-probability
    model that has no maximal depth and no [max_depth] argument, the
    limit regime raises the assertion error of [_get_action_space], and
    the limit-and-market regime constructs an environment whose action
    space has two undefined upper bounds. *)
Lemma C8_limit_and_market_without_max_depth :
  let fill := Fixture.with_max_depth None (Fixture.toy 2 (1 # 4) 0 13) in
  let c regime :=
    with_fill_probability_model (Some fill) (Fixture.config regime 2 4 None) in
  (exists msg, init (G := N) (c "limit") = Raise (AssertionError msg)) /\
  exists e, init (c "limit_and_market") = Ok e /\
    max_depth e = None /\
    action_space e =
      Some (Box [Some 0; Some 0; Some 0; Some 0] [None; None; Some 1; Some 1]).
Proof.
  intros fill c. split.
  - eexists. vm_compute. reflexivity.
  - eexists. split; [vm_compute; reflexivity|]. split; reflexivity.
Qed.

(** Construction succeeds in each regime when nothing is missing. *)
Example construction_succeeds :
  forallb (fun regime => is_ok (init (G := N) (Fixture.config regime 2 4 (Some 3%N))))
          ACTION_TYPES = true.
Proof. vm_compute. reflexivity. Qed.

(** ** Broadcasting, index by index *)

Lemma zipWithM_index {A B C : Type} (f : A -> B -> Result C)
  (a : list A) (b : list B) (c : list C) (i : nat) (x : A) (y : B) :
  zipWithM f a b = Ok c ->
  nth_error a i = Some x -> nth_error b i = Some y ->
  exists z, nth_error c i = Some z /\ f x y = Ok z.
Proof.
  revert b c i. induction a as [|x0 a IH]; intros [|y0 b] c i H Hx Hy;
    try (destruct i; discriminate).
  simpl in H. split_ok H. destruct i as [|i]; simpl in *.
  - inversion Hx. inversion Hy. subst. eauto.
  - eapply IH; eauto.
Qed.

Lemma zipWithM_index_inv {A B C : Type} (f : A -> B -> Result C)
  (a : list A) (b : list B) (c : list C) (i : nat) (z : C) :
  zipWithM f a b = Ok c -> nth_error c i = Some z ->
  exists x y, nth_error a i = Some x /\ nth_error b i = Some y /\ f x y = Ok z.
Proof.
  revert b c i. induction a as [|x0 a IH]; intros [|y0 b] c i H Hz; simpl in H;
    try (inversion H; subst; destruct i; discriminate).
  split_ok H. destruct i as [|i]; simpl in *.
  - inversion Hz. subst. eauto.
  - eapply IH; eauto.
Qed.

Lemma zipWithM_length {A B C : Type} (f : A -> B -> Result C)
  (a : list A) (b : list B) (c : list C) :
  zipWithM f a b = Ok c -> length c = Nat.min (length a) (length b).
Proof.
  revert b c. induction a as [|x0 a IH]; intros [|y0 b] c H; simpl in H;
    try (inversion H; reflexivity).
  split_ok H. simpl. f_equal. now apply IH.
Qed.

Lemma stretch_nth {A : Type} (k i : nat) (l : list A) (x : A) :
  nth_error l i = Some x -> (length l = 1%nat -> (i < k)%nat) ->
  nth_error (stretch k l) i = Some x.
Proof.
  intros Hx Hk. destruct l as [|a [|b l]]; simpl; try exact Hx.
  destruct i as [|i]; [|destruct i; discriminate].
  simpl in Hx. inversion Hx. subst.
  rewrite nth_error_repeat by (apply Hk; reflexivity). reflexivity.
Qed.

Lemma stretch_single {A : Type} (k i : nat) (x : A) :
  (i < k)%nat -> nth_error (stretch k [x]) i = Some x.
Proof. intros Hk. simpl. now apply nth_error_repeat. Qed.

Lemma stretch_nth_inv {A : Type} (k i : nat) (l : list A) (x : A) :
  nth_error (stretch k l) i = Some x -> In x l.
Proof.
  destruct l as [|a [|b l]]; simpl; intros H.
  - destruct i; discriminate.
  - left. apply nth_error_In in H. now apply repeat_spec in H.
  - apply nth_error_In in H. exact H.
Qed.

Lemma stretch_length {A : Type} (k : nat) (l : list A) :
  length (stretch k l) = if Nat.eqb (length l) 1 then k else length l.
Proof.
  destruct l as [|a [|b l]]; simpl; auto. apply repeat_length.
Qed.

(** Where both operands have an entry, so has the result. *)
Lemma bzip_index {A B C : Type} (f : A -> B -> Result C)
  (a : list A) (b : list B) (c : list C) (i : nat) (x : A) (y : B) :
  bzip f a b = Ok c ->
  nth_error a i = Some x -> nth_error b i = Some y ->
  exists z, nth_error c i = Some z /\ f x y = Ok z.
Proof.
  unfold bzip. destruct (compatible _ _); [|discriminate]. intros H Hx Hy.
  eapply zipWithM_index; [exact H| |].
  - apply stretch_nth; [exact Hx|]. intros _. apply nth_error_Some. congruence.
  - apply stretch_nth; [exact Hy|]. intros _. apply nth_error_Some. congruence.
Qed.

Lemma bzip_index_single_l {A B C : Type} (f : A -> B -> Result C)
  (x : A) (b : list B) (c : list C) (i : nat) (y : B) :
  bzip f [x] b = Ok c -> nth_error b i = Some y ->
  exists z, nth_error c i = Some z /\ f x y = Ok z.
Proof.
  unfold bzip. destruct (compatible _ _); [|discriminate]. intros H Hy.
  assert (Hi : (i < length b)%nat) by (apply nth_error_Some; congruence).
  eapply zipWithM_index; [exact H| |].
  - now apply stretch_single.
  - apply stretch_nth; [exact Hy|]. simpl. intros Hb. rewrite Hb in Hi. exact Hi.
Qed.

Lemma bzip_index_single_r {A B C : Type} (f : A -> B -> Result C)
  (a : list A) (y : B) (c : list C) (i : nat) (x : A) :
  bzip f a [y] = Ok c -> nth_error a i = Some x ->
  exists z, nth_error c i = Some z /\ f x y = Ok z.
Proof.
  unfold bzip. destruct (compatible _ _); [|discriminate]. intros H Hx.
  assert (Hi : (i < length a)%nat) by (apply nth_error_Some; congruence).
  eapply zipWithM_index; [exact H| |].
  - apply stretch_nth; [exact Hx|]. simpl. intros Ha. rewrite Ha in Hi. exact Hi.
  - now apply stretch_single.
Qed.

Lemma stretch_nth_same {A : Type} (k i : nat) (l : list A) (x x' : A) :
  nth_error l i = Some x -> nth_error (stretch k l) i = Some x' -> x' = x.
Proof.
  destruct l as [|a [|b l]]; simpl; intros Hx Hx'; try congruence.
  destruct i as [|i]; [|destruct i; discriminate]. simpl in Hx.
  apply nth_error_In, repeat_spec in Hx'. congruence.
Qed.

(** Every entry of the result comes from the left operand's entry of the
    same index, once that entry exists. *)
Lemma bzip_left {A B C : Type} (f : A -> B -> Result C)
  (a : list A) (b : list B) (c : list C) (i : nat) (x : A) (z : C) :
  bzip f a b = Ok c ->
  nth_error a i = Some x -> nth_error c i = Some z ->
  exists y, In y b /\ f x y = Ok z.
Proof.
  unfold bzip. destruct (compatible _ _); [|discriminate]. intros H Hx Hz.
  destruct (zipWithM_index_inv _ _ _ _ H Hz) as (x' & y & Hx' & Hy & Hf).
  rewrite (stretch_nth_same _ _ _ Hx Hx') in Hf.
  exists y. split; [|exact Hf]. eapply stretch_nth_inv; eauto.
Qed.

Lemma bzip_right {A B C : Type} (f : A -> B -> Result C)
  (a : list A) (b : list B) (c : list C) (i : nat) (y : B) (z : C) :
  bzip f a b = Ok c ->
  nth_error b i = Some y -> nth_error c i = Some z ->
  exists x, In x a /\ f x y = Ok z.
Proof.
  unfold bzip. destruct (compatible _ _); [|discriminate]. intros H Hy Hz.
  destruct (zipWithM_index_inv _ _ _ _ H Hz) as (x & y' & Hx & Hy' & Hf).
  rewrite (stretch_nth_same _ _ _ Hy Hy') in Hf.
  exists x. split; [|exact Hf]. eapply stretch_nth_inv; eauto.
Qed.

Lemma bzip_length {A B C : Type} (f : A -> B -> Result C)
  (a : list A) (b : list B) (c : list C) :
  bzip f a b = Ok c ->
  length c = if Nat.eqb (length a) 1 then length b else length a.
Proof.
  unfold bzip. destruct (compatible _ _) eqn:Ec; [|discriminate]. intros H.
  rewrite (zipWithM_length _ _ _ H), !stretch_length.
  unfold compatible in Ec.
  destruct (Nat.eqb_spec (length a) 1) as [Ea|Ea],
           (Nat.eqb_spec (length b) 1) as [Eb|Eb]; try lia.
  rewrite !orb_false_r in Ec. apply Nat.eqb_eq in Ec. lia.
Qed.

Lemma np_binop_rank (f : Q -> Q -> Q) (a b c : ndarray) :
  np_binop f a b = Ok c -> rank c = Nat.max (rank a) (rank b).
Proof.
  unfold np_binop. intros H. split_ok H.
  destruct a, b; reflexivity.
Qed.

(** The product with a matrix is a matrix. *)
Lemma np_binop_Mat_l (f : Q -> Q -> Q) (m : matrix) (b c : ndarray) :
  np_binop f (Mat m) b = Ok c ->
  exists rows, c = Mat rows /\
    bzip (bzip (fun x y => Ok (f x y))) m (as2d b) = Ok rows.
Proof.
  unfold np_binop. intros H. split_ok H. exists x. split; [|exact Hc].
  destruct b; reflexivity.
Qed.

Lemma np_binop_Mat_r (f : Q -> Q -> Q) (a : ndarray) (m : matrix) (c : ndarray) :
  np_binop f a (Mat m) = Ok c ->
  exists rows, c = Mat rows /\
    bzip (bzip (fun x y => Ok (f x y))) (as2d a) m = Ok rows.
Proof.
  unfold np_binop. intros H. split_ok H. exists x. split; [|exact Hc].
  destruct a; reflexivity.
Qed.

(** ** Fill suppression *)

Section Fills.

Context {P R G : Type}.
Context {PM : Process.StochasticProcessModel P}.
Context {RF : Reward.RewardFunction R}.
Context {RG : Random.Generator G}.

Local Abbreviation Env := (@Env P R G).

(** The row of the fill multiplier that belongs to a row of the state. *)
Lemma fill_multiplier_row (e : Env) (at_max at_min : list bool) (fm : matrix)
  (i : nat) (row : list Q) :
  is_at_max_inventory e = Ok at_max ->
  is_at_min_inventory e = Ok at_min ->
  hstack (one_minus at_max) (one_minus at_min) = Ok fm ->
  nth_error (state e) i = Some row ->
  nth_error fm i =
    Some [1 - of_bool (Qgeb (nth INVENTORY_INDEX row 0) (max_inventory e));
          1 - of_bool (Qle_bool (nth INVENTORY_INDEX row 0) (- max_inventory e))].
Proof.
  unfold is_at_max_inventory, is_at_min_inventory, hstack, one_minus, column.
  intros H1 H2 H3 Hrow. split_ok H1. split_ok H2.
  apply getcol_ok in Hc as [-> _]. apply getcol_ok in Hc0 as [-> _].
  destruct (Nat.eqb _ _); [|discriminate]. inversion H3. subst fm.
  rewrite nth_error_map_combine, !nth_error_map, Hrow. reflexivity.
Qed.

Lemma bzip_pair (f : Q -> Q -> Q) (m0 m1 : Q) (rb rc : list Q) :
  bzip (fun x y => Ok (f x y)) [m0; m1] rb = Ok rc ->
  exists y0 y1, rc = [f m0 y0; f m1 y1].
Proof.
  intros H. pose proof (bzip_length _ _ _ H) as Hl. simpl in Hl.
  destruct rc as [|z0 [|z1 [|]]]; try discriminate.
  destruct (bzip_left _ _ _ 0 H eq_refl eq_refl) as (y0 & _ & E0).
  destruct (bzip_left _ _ _ 1 H eq_refl eq_refl) as (y1 & _ & E1).
  inversion E0. inversion E1. eauto.
Qed.

Lemma _remove_max_inventory_fills_ok (fills fills' : ndarray) (e : Env) :
  _remove_max_inventory_fills fills e = Ok fills' ->
  exists rows, fills' = Mat rows /\
    forall i row frow,
      nth_error (state e) i = Some row -> nth_error rows i = Some frow ->
      exists fb fa, frow = [fb; fa] /\
        (max_inventory e <= nth INVENTORY_INDEX row 0 -> fb == 0) /\
        (nth INVENTORY_INDEX row 0 <= - max_inventory e -> fa == 0).
Proof.
  unfold _remove_max_inventory_fills. intros H. split_ok H.
  match goal with
  | Hm : np_mul _ _ = Ok _ |- _ =>
      unfold np_mul in Hm; apply np_binop_Mat_l in Hm as (rows & -> & Hrows)
  end.
  exists rows. split; [reflexivity|]. intros i row frow Hrow Hfrow.
  match goal with
  | H1 : is_at_max_inventory e = Ok _, H2 : is_at_min_inventory e = Ok _,
    H3 : hstack _ _ = Ok _ |- _ =>
      pose proof (fill_multiplier_row _ _ H1 H2 H3 Hrow) as Hfm
  end.
  destruct (bzip_left _ _ _ _ Hrows Hfm Hfrow) as (rb & _ & Hb).
  apply bzip_pair in Hb as (y0 & y1 & ->).
  exists ((1 - of_bool (Qgeb (nth INVENTORY_INDEX row 0) (max_inventory e))) * y0),
         ((1 - of_bool (Qle_bool (nth INVENTORY_INDEX row 0) (- max_inventory e))) * y1).
  split; [reflexivity|]. split; intros Hle.
  - apply Qgeb_true in Hle. rewrite Hle. simpl. ring.
  - apply Qle_bool_iff in Hle. rewrite Hle. simpl. ring.
Qed.

Lemma np_binop_rows (f : Q -> Q -> Q) (A B : matrix) (c : ndarray)
  (i : nat) (ra rb : list Q) :
  np_binop f (Mat A) (Mat B) = Ok c ->
  nth_error A i = Some ra -> nth_error B i = Some rb ->
  exists rows rc, c = Mat rows /\ nth_error rows i = Some rc /\
    bzip (fun x y => Ok (f x y)) ra rb = Ok rc.
Proof.
  intros H Ha Hb. apply np_binop_Mat_l in H as (rows & -> & Hrows).
  destruct (bzip_index _ _ _ _ Hrows Ha Hb) as (rc & Hrc & Hz).
  exists rows, rc. auto.
Qed.

(** The inventory flow of a trajectory: what the bid side fills minus
    what the ask side fills. *)
Lemma inventory_flow_row (A F : matrix) (e : Env) (d : ndarray) (i : nat)
  (ab aa fb fa : Q) :
  inventory_flow (Some (Mat A)) (Some (Mat F)) e = Ok d ->
  nth_error A i = Some [ab; aa] -> nth_error F i = Some [fb; fa] ->
  nth_error (multiplier e) i = Some [- (1); 1] ->
  exists dv di, d = Vec dv /\ nth_error dv i = Some di /\
    di == ab * fb - aa * fa.
Proof.
  unfold inventory_flow, np_mul. intros H Ha Hf Hm. cbn [the_array rbind] in H.
  split_ok H.
  destruct (@np_binop_rows Qmult A F x i [ab; aa] [fb; fa] Hc Ha Hf)
    as (X1 & r1 & -> & Hr1 & Hb1).
  simpl in Hb1. inversion Hb1. subst r1. clear Hb1.
  cbn [np_map] in Hc0.
  assert (Hneg : nth_error (map (map Qopp) (multiplier e)) i
                 = Some (map Qopp [- (1); 1]))
    by (rewrite nth_error_map, Hm; reflexivity).
  destruct (@np_binop_rows Qmult X1 _ x0 i _ _ Hc0 Hr1 Hneg)
    as (X2 & r2 & -> & Hr2 & Hb2).
  simpl in Hb2. inversion Hb2. subst r2. clear Hb2.
  simpl in Hk0. inversion Hk0.
  eexists. eexists. split; [reflexivity|]. split.
  - rewrite nth_error_map, Hr2. reflexivity.
  - unfold vsum. simpl. ring.
Qed.

(** C2.  In the arrival-driven regimes the fills that
    [_get_arrivals_and_fills] hands to the agent-state update are zero on
    the bid side for every trajectory whose inventory is at or above
    max_inventory, and zero on the ask side for every trajectory at or
    below -max_inventory, whatever the fill-probability model returned.
    The inventory flow that these fills produce for a trajectory at the
    ceiling is minus its ask-side execution, and for a trajectory at the
    floor it is its bid-side execution: the fill is suppressed before the
    inventory is updated, and nothing is left to the later clipping. *)
Theorem C2_fills_are_suppressed_at_the_bounds (action : matrix) (e e1 : Env)
  (arrivals fills : ndarray) :
  _get_arrivals_and_fills action e = Ok (arrivals, fills, e1) ->
  state e1 = state e /\
  (str_in (action_type e) MARKET_MAKING_ACTION_TYPES = true ->
   _update_state action e =
     (e2 <- _update_agent_state (Some arrivals) (Some fills) action e1 ;;
      _update_market_state (Some arrivals) (Some fills) action e2)) /\
  exists rows, fills = Mat rows /\
    forall i row frow,
      nth_error (state e) i = Some row -> nth_error rows i = Some frow ->
      exists fb fa, frow = [fb; fa] /\
        (max_inventory e <= nth INVENTORY_INDEX row 0 -> fb == 0) /\
        (nth INVENTORY_INDEX row 0 <= - max_inventory e -> fa == 0) /\
        forall A ab aa d,
          arrivals = Mat A -> nth_error A i = Some [ab; aa] ->
          nth_error (multiplier e) i = Some [- (1); 1] ->
          inventory_flow (Some arrivals) (Some fills) e1 = Ok d ->
          exists dv di, d = Vec dv /\ nth_error dv i = Some di /\
            di == ab * fb - aa * fa /\
            (max_inventory e <= nth INVENTORY_INDEX row 0 -> di == - (aa * fa)) /\
            (nth INVENTORY_INDEX row 0 <= - max_inventory e -> di == ab * fb).
Proof.
  intros H. pose proof (_get_arrivals_and_fills_frame _ _ H)
    as (Hs & Hl & Hst & _).
  split; [exact Hs|]. split.
  { intros Hmm. unfold _update_state. rewrite Hmm, H. reflexivity. }
  assert (Hm0 : max_inventory e1 = max_inventory e)
    by (unfold layout in Hl; congruence).
  unfold _get_arrivals_and_fills in H. split_ok H.
  match goal with
  | Hr : _remove_max_inventory_fills _ _ = Ok _ |- _ =>
      apply _remove_max_inventory_fills_ok in Hr as (rows & -> & Hrows)
  end.
  exists rows. split; [reflexivity|]. intros i row frow Hrow Hfrow.
  rewrite <- Hs in Hrow.
  destruct (Hrows i row frow Hrow Hfrow) as (fb & fa & -> & Hb & Ha).
  rewrite Hm0 in Hb, Ha.
  exists fb, fa. split; [reflexivity|]. split; [exact Hb|]. split; [exact Ha|].
  intros A ab aa d -> HA Hmul Hflow.
  assert (Hmul1 : nth_error (multiplier e1) i = Some [- (1); 1]).
  { unfold static in Hst. replace (multiplier e1) with (multiplier e) by congruence.
    exact Hmul. }
  destruct (@inventory_flow_row A rows e1 d i ab aa fb fa Hflow HA Hfrow Hmul1)
    as (dv & di & -> & Hdi & Hv).
  exists dv, di. split; [reflexivity|]. split; [exact Hdi|]. split; [exact Hv|].
  split; intros Hle.
  - rewrite Hv, (Hb Hle). ring.
  - rewrite Hv, (Ha Hle). ring.
Qed.

End Fills.

(** C2 in the limit regime, both trajectories at the inventory ceiling
    and a fill-probability model that fills every order. *)
Lemma C2_fills_are_suppressed_at_the_bounds_witness :
  let e := Fixture.make
             (with_initial_inventory (InvInt 2) (Fixture.config "limit" 2 4 (Some 3%N))) in
  let action := [[1; 1]; [1; 1]] in
  exists arrivals fills e1,
    _get_arrivals_and_fills action e = Ok (arrivals, fills, e1) /\
    state e1 = state e /\
    (str_in (action_type e) MARKET_MAKING_ACTION_TYPES = true ->
     _update_state action e =
       (e2 <- _update_agent_state (Some arrivals) (Some fills) action e1 ;;
        _update_market_state (Some arrivals) (Some fills) action e2)) /\
    exists rows, fills = Mat rows /\
      forall i row frow,
        nth_error (state e) i = Some row -> nth_error rows i = Some frow ->
        exists fb fa, frow = [fb; fa] /\
          (max_inventory e <= nth INVENTORY_INDEX row 0 -> fb == 0) /\
          (nth INVENTORY_INDEX row 0 <= - max_inventory e -> fa == 0) /\
          forall A ab aa d,
            arrivals = Mat A -> nth_error A i = Some [ab; aa] ->
            nth_error (multiplier e) i = Some [- (1); 1] ->
            inventory_flow (Some arrivals) (Some fills) e1 = Ok d ->
            exists dv di, d = Vec dv /\ nth_error dv i = Some di /\
              di == ab * fb - aa * fa /\
              (max_inventory e <= nth INVENTORY_INDEX row 0 -> di == - (aa * fa)) /\
              (nth INVENTORY_INDEX row 0 <= - max_inventory e -> di == ab * fb).
Proof.
  intros e action. do 3 eexists.
  split; [vm_compute; reflexivity|].
  eapply C2_fills_are_suppressed_at_the_bounds. vm_compute. reflexivity.
Defined.

(** The same input, run: at the ceiling the bid fill is 0 although the
    model filled it, the ask fill stays 1, and one step takes the
    inventory from 2 to 1. *)
Example fills_at_the_ceiling :
  let e := Fixture.make
             (with_initial_inventory (InvInt 2) (Fixture.config "limit" 2 4 (Some 3%N))) in
  let action := [[1; 1]; [1; 1]] in
  exists arrivals rows e1 r e2,
    _get_arrivals_and_fills action e = Ok (arrivals, Mat rows, e1) /\
    map (map Qred) rows = [[0; 1]; [0; 1]] /\
    map (fun row => Qred (nth INVENTORY_INDEX row 0)) (state e) = [2; 2] /\
    step (Mat action) e = Ok (r, e2) /\
    map (fun row => Qred (nth INVENTORY_INDEX row 0)) (next_state r) = [1; 1].
Proof.
  intros e action. do 5 eexists.
  split; [vm_compute; reflexivity|]. split; [vm_compute; reflexivity|].
  split; [vm_compute; reflexivity|]. split; vm_compute; reflexivity.
Qed.

(** ** The zero trade *)

Lemma zipWithM_all {A B C : Type} (f : A -> B -> Result C) (Pc : C -> Prop)
  (a : list A) (b : list B) (c : list C) :
  zipWithM f a b = Ok c ->
  (forall x y z, In x a -> f x y = Ok z -> Pc z) -> Forall Pc c.
Proof.
  revert b c. induction a as [|x0 a IH]; intros [|y0 b] c H Hp; simpl in H;
    try (inversion H; constructor).
  split_ok H. constructor.
  - eapply Hp; [left; reflexivity|eassumption].
  - eapply IH; [eassumption|]. intros ? ? ? Hin. apply Hp. now right.
Qed.

Lemma stretch_in {A : Type} (k : nat) (l : list A) (x : A) :
  In x (stretch k l) -> In x l.
Proof.
  destruct l as [|a [|b l]]; simpl; auto.
  intros H. apply repeat_spec in H. auto.
Qed.

(** A property of the result that every entry of the left operand
    enforces. *)
Lemma bzip_all_l {A B C : Type} (f : A -> B -> Result C) (Pc : C -> Prop)
  (a : list A) (b : list B) (c : list C) :
  bzip f a b = Ok c ->
  (forall x y z, In x a -> f x y = Ok z -> Pc z) -> Forall Pc c.
Proof.
  unfold bzip. destruct (compatible _ _); [|discriminate]. intros H Hp.
  eapply zipWithM_all; [exact H|]. intros x y z Hin. apply Hp.
  eapply stretch_in; eauto.
Qed.

Lemma np_mul_zero_l (V : matrix) (b c : ndarray) :
  all_zero (Mat V) -> np_mul (Mat V) b = Ok c -> all_zero c.
Proof.
  unfold all_zero, np_mul. simpl. intros Hz H.
  apply np_binop_Mat_l in H as (rows & -> & Hrows). simpl.
  eapply bzip_all_l; [exact Hrows|].
  intros r rb rc Hr Hrc. cbv beta in Hrc.
  eapply bzip_all_l; [exact Hrc|].
  intros x y z Hx Hxyz. inversion Hxyz.
  rewrite Forall_forall in Hz. specialize (Hz r Hr).
  rewrite Forall_forall in Hz. rewrite (Hz x Hx). ring.
Qed.

Lemma np_mul_scalar_zero (V : matrix) (s : Q) (c : ndarray) :
  all_zero (Mat V) -> np_mul (Mat V) (Scalar s) = Ok c ->
  exists rows, c = Mat rows /\ all_zero (Mat rows).
Proof.
  intros Hz H. pose proof (@np_mul_zero_l _ _ _ Hz H) as Hc.
  unfold np_mul in H. apply np_binop_Mat_l in H as (rows & -> & _). eauto.
Qed.

Lemma np_squeeze_zero (a : ndarray) : all_zero a -> all_zero (np_squeeze a).
Proof.
  unfold all_zero. destruct a as [x|v|m]; simpl; [auto| |].
  - destruct v as [|x [|y v]]; simpl; auto.
  - intros H. destruct m as [|r [|r' m]].
    + simpl. constructor; constructor.
    + destruct r as [|x [|y r]]; simpl; auto.
    + assert (Hh : Forall (fun x => x == 0)
                     (map (fun r0 : list Q => nth 0 r0 0) (r :: r' :: m))).
      { apply Forall_forall. intros z Hz.
        apply in_map_iff in Hz as (r0 & <- & Hr0).
        rewrite Forall_forall in H. specialize (H r0 Hr0).
        destruct r0 as [|z0 r0]; simpl; [reflexivity|]. now inversion H. }
      destruct r as [|x [|y r]]; cbn [np_squeeze];
        destruct (forallb _ _); cbn [as2d]; auto.
Qed.

Lemma broadcast_to_view_zero (n : nat) (a : ndarray) (v : list Q) :
  all_zero a -> broadcast_to_view n a = Ok v -> Forall (fun x => x == 0) v.
Proof.
  unfold all_zero. destruct a as [x|w|m]; simpl; intros Hz H.
  - inversion H. apply Forall_forall. intros y Hy. apply repeat_spec in Hy. subst.
    inversion Hz as [|? ? Hx _]. now inversion Hx.
  - inversion Hz as [|? ? Hw _]. subst.
    destruct (Nat.eqb (length w) n); [inversion H; subst; exact Hw|].
    destruct (Nat.eqb (length w) 1); [|discriminate].
    inversion H. apply Forall_forall. intros y Hy. apply repeat_spec in Hy. subst.
    destruct w as [|z w]; simpl; [reflexivity|]. now inversion Hw.
  - discriminate.
Qed.

Lemma clip1_comp (lo hi x y : Q) : x == y -> clip1 lo hi x == clip1 lo hi y.
Proof. intros Hxy. unfold clip1. now rewrite Hxy. Qed.

Section Stages.

Context {P R G : Type}.
Context {PM : Process.StochasticProcessModel P}.
Context {RF : Reward.RewardFunction R}.
Context {RG : Random.Generator G}.

Local Abbreviation Env := (@Env P R G).

(** [_update_agent_state] is the trades, then the clipping and the clock. *)
Lemma _update_agent_state_split arrivals fills action (e e' : Env) :
  _update_agent_state arrivals fills action e = Ok e' ->
  exists e1 e2,
    market_making_trades arrivals fills action e = Ok e1 /\
    execution_trades action e1 = Ok e2 /\
    Forall2 (clipped_row (max_inventory e) (max_cash e) (step_size e))
      (state e2) (state e').
Proof.
  unfold _update_agent_state. intros H. split_ok H.
  match goal with
  | H1 : market_making_trades _ _ _ e = Ok ?a, H2 : execution_trades _ _ = Ok ?b,
    H3 : _clip_inventory_and_cash _ = Ok ?c, H4 : iadd _ _ _ = Ok _ |- _ =>
      exists a, b; split; [exact H1|]; split; [exact H2|];
      pose proof (market_making_trades_frame _ _ _ _ H1) as (Hl1 & Ht1 & _);
      pose proof (execution_trades_frame _ _ H2) as (Hl2 & Ht2 & _);
      apply _clip_inventory_and_cash_ok in H3 as (Hl3 & Ht3 & _ & Hs3);
      apply iadd_scalar_rows in H4;
      assert (Hmi : max_inventory b = max_inventory e)
        by (unfold layout in *; congruence);
      assert (Hmc : max_cash b = max_cash e) by (unfold layout in *; congruence);
      assert (Hst : step_size c = step_size e)
        by (unfold step_size, static in *; congruence);
      rewrite Hmi, Hmc in Hs3; rewrite Hst in H4;
      simpl; eapply Forall2_compose; [|exact Hs3|exact H4]
  end.
  cbv beta. intros r1 r2 r3 ([Hl12 H12] & Hw & Hinv & Hcash) (-> & Hlt).
  unfold clipped_row, TIME_INDEX, INVENTORY_INDEX, CASH_INDEX in *.
  rewrite Hl12 in Hlt.
  repeat split.
  - rewrite set_nth_length. congruence.
  - lia.
  - intros k Hk. rewrite nth_set_nth_other by lia. now rewrite H12 by lia.
  - rewrite nth_set_nth_same by lia. now rewrite H12 by lia.
  - now rewrite nth_set_nth_other by lia.
  - now rewrite nth_set_nth_other by lia.
Qed.

(** [_update_state] is the sampling of arrivals and fills in the
    market-making regimes, the trades, the clipping and the clock, and the
    market update, in this order. *)
Lemma _update_state_split action (e e' : Env) :
  _update_state action e = Ok e' -> indices_ok e ->
  exists arrivals fills e0 e1 e2,
    (if str_in (action_type e) MARKET_MAKING_ACTION_TYPES
     then exists A F, arrivals = Some A /\ fills = Some F /\
                      _get_arrivals_and_fills action e = Ok (A, F, e0)
     else arrivals = None /\ fills = None /\ e0 = e) /\
    market_making_trades arrivals fills action e0 = Ok e1 /\
    execution_trades action e1 = Ok e2 /\
    Forall2 (settled_row (max_inventory e) (max_cash e) (step_size e))
      (state e2) (state e').
Proof.
  unfold _update_state. intros H Hok. split_ok H.
  match goal with
  | H1 : _update_agent_state ?a ?f _ ?e0 = Ok ?e3,
    H2 : _update_market_state _ _ _ _ = Ok _ |- _ =>
      assert (Hpre : (if str_in (action_type e) MARKET_MAKING_ACTION_TYPES
                      then exists A F, a = Some A /\ f = Some F /\
                             _get_arrivals_and_fills action e = Ok (A, F, e0)
                      else a = None /\ f = None /\ e0 = e) /\
                     layout e0 = layout e /\ static e0 = static e);
      [|pose proof (_update_agent_state_ok _ _ _ _ H1) as (Hl1 & Ht1 & _);
        apply _update_agent_state_split in H1 as (e1 & e2 & Hm & Hx & Hrows);
        apply _update_market_state_ok in H2 as (_ & _ & _ & _ & _ & Hr2);
        exists a, f, e0, e1, e2]
  end.
  { destruct (str_in _ _).
    - split_ok Hc.
      match goal with
      | H1 : _get_arrivals_and_fills _ _ = Ok _ |- _ =>
          pose proof (_get_arrivals_and_fills_frame _ _ H1) as (_ & Hl & Ht & _)
      end.
      split; [eauto|]. split; assumption.
    - inversion Hc. auto. }
  destruct Hpre as (Hpre & Hl0 & Ht0).
  split; [exact Hpre|]. split; [exact Hm|]. split; [exact Hx|].
  assert (Hmi : max_inventory e0 = max_inventory e) by (unfold layout in *; congruence).
  assert (Hmc : max_cash e0 = max_cash e) by (unfold layout in *; congruence).
  assert (Hst : step_size e0 = step_size e).
  { unfold step_size, static in *. congruence. }
  rewrite Hmi, Hmc, Hst in Hrows.
  eapply Forall2_compose; [|exact Hrows|apply Hr2].
  - unfold clipped_row, settled_row, TIME_INDEX, INVENTORY_INDEX, CASH_INDEX.
    intros r1 r2 r3 (Hl & Hw & _ & Ht & Hi & Hc') [Hl' Hb].
    repeat split; try congruence; try lia; rewrite Hb by lia; assumption.
  - unfold indices_ok, layout in *. congruence.
Qed.

(** [step] reshapes the action and hands it to [_update_state]; the state
    it returns is the one that call leaves. *)
Lemma step_split (a : ndarray) (e e' : Env) (r : StepResult) :
  step a e = Ok (r, e') ->
  exists sp action,
    the_space (action_space e) = Ok sp /\
    (if has_shape (num_trajectories e) (space_shape0 sp) a then Ok (as2d a)
     else reshape (num_trajectories e) (space_shape0 sp) a) = Ok action /\
    exists e1, _update_state action e = Ok e1 /\
      next_state r = state e1 /\ state e' = state e1.
Proof.
  unfold step. intros H. split_ok H.
  do 2 eexists. split; [eassumption|]. split; [eassumption|].
  eexists. split; [eassumption|]. split; reflexivity.
Qed.

Lemma chunks_all (Pq : Q -> Prop) (w n : nat) (l : list Q) :
  Forall Pq l -> Forall (Forall Pq) (chunks w n l).
Proof.
  revert l. induction n as [|n IH]; intros l Hl; simpl; constructor;
    rewrite <- (firstn_skipn w l) in Hl; apply Forall_app in Hl as [H1 H2];
    auto.
Qed.

Lemma reshaped_zero (n w : nat) (a : ndarray) (action : matrix) :
  Forall (fun x => x == 0) (flatten a) ->
  (if has_shape n w a then Ok (as2d a) else reshape n w a) = Ok action ->
  all_zero (Mat action).
Proof.
  unfold all_zero, flatten. intros Hz H. simpl.
  destruct (has_shape n w a).
  - inversion H. subst. apply Forall_forall. intros r Hr.
    apply Forall_forall. intros x Hx. rewrite Forall_forall in Hz. apply Hz.
    apply in_concat. eauto.
  - unfold reshape in H. destruct (Nat.eqb _ _); [|discriminate].
    inversion H. now apply chunks_all.
Qed.

(** A zero trading speed moves neither cash nor inventory. *)
Lemma execution_trades_zero action (e e' : Env) :
  all_zero (Mat action) -> execution_trades action e = Ok e' ->
  Forall2 untraded_row (state e) (state e').
Proof.
  unfold execution_trades. intros Hz H.
  destruct (str_in (action_type e) EXECUTION_ACTION_TYPES).
  2:{ inversion H. subst. apply Forall2_refl_of. intros r.
      repeat split; reflexivity. }
  split_ok H.
  match goal with
  | Hv : np_mul (Mat action) (Scalar _) = Ok _ |- _ =>
      apply np_mul_scalar_zero in Hv as (rows & -> & Hvz); [|exact Hz]
  end.
  match goal with
  | H1 : isub _ _ _ = Ok _ |- _ =>
      apply isub_ok in H1 as (c1 & Ec1 & H1);
      apply iop_col_rows in H1 as (v1 & Hv1 & Hr1)
  end.
  match goal with
  | H2 : iadd _ _ _ = Ok _ |- _ =>
      apply iadd_ok in H2 as (c2 & Ec2 & H2);
      apply iop_col_rows in H2 as (v2 & Hv2 & Hr2)
  end.
  split_ok Ec1.
  assert (Ec : c2 = np_squeeze (Mat rows)) by congruence. subst c2. clear Ec2.
  assert (Hv1z : Forall (fun x => x == 0) v1).
  { eapply broadcast_to_view_zero; [|exact Hv1].
    apply np_squeeze_zero. eapply np_mul_zero_l; [exact Hvz|eassumption]. }
  assert (Hv2z : Forall (fun x => x == 0) v2).
  { eapply broadcast_to_view_zero; [|exact Hv2].
    apply np_squeeze_zero. exact Hvz. }
  rewrite Forall_forall in Hv1z, Hv2z.
  simpl. eapply Forall2_compose; [|exact Hr1|exact Hr2].
  cbv beta. intros r0 r1 r2 (y1 & Hx1 & -> & Hl1) (y2 & Hx2 & -> & Hl2).
  rewrite set_nth_length in Hl2.
  unfold untraded_row, CASH_INDEX, INVENTORY_INDEX in *.
  repeat split.
  - now rewrite !set_nth_length.
  - intros k Hk. now rewrite !nth_set_nth_other by lia.
  - rewrite nth_set_nth_other by lia. rewrite nth_set_nth_same by lia.
    rewrite (Hv1z _ Hx1). ring.
  - rewrite nth_set_nth_same by (rewrite set_nth_length; lia).
    rewrite nth_set_nth_other by lia. rewrite (Hv2z _ Hx2). ring.
Qed.

(** C6 (as amended).  In the speed regime a step with an all-zero action
    leaves every trajectory's cash and inventory at their clipped values,
    hence unchanged when they lie within the bounds, and advances the
    elapsed time by exactly one step size; nothing is said of the process
    columns, which the market update overwrites. *)
Theorem C6_zero_speed_keeps_cash_and_inventory (a : ndarray) (e e' : Env)
  (r : StepResult) :
  reachable e ->
  action_type e = "speed" ->
  Forall (fun x => x == 0) (flatten a) ->
  step a e = Ok (r, e') ->
  state e' = next_state r /\
  Forall2 (fun row row' =>
             nth CASH_INDEX row' 0 ==
               clip1 (- max_cash e) (max_cash e) (nth CASH_INDEX row 0) /\
             nth INVENTORY_INDEX row' 0 ==
               clip1 (- max_inventory e) (max_inventory e)
                     (nth INVENTORY_INDEX row 0) /\
             nth TIME_INDEX row' 0 == nth TIME_INDEX row 0 + step_size e /\
             (bounded_row (max_inventory e) (max_cash e) row ->
              nth CASH_INDEX row' 0 == nth CASH_INDEX row 0 /\
              nth INVENTORY_INDEX row' 0 == nth INVENTORY_INDEX row 0))
          (state e) (next_state r).
Proof.
  intros Hreach Hty Hzero H.
  apply step_split in H as (sp & action & _ & Hact & e1 & Hup & Hn & Hs).
  split; [congruence|]. rewrite Hn.
  apply reshaped_zero in Hact; [|exact Hzero].
  apply _update_state_split in Hup; [|now apply reachable_indices_ok].
  destruct Hup as (arrivals & fills & e0 & e2 & e3 & Hpre & Hm & Hx & Hrows).
  rewrite Hty in Hpre. simpl in Hpre. destruct Hpre as (_ & _ & ->).
  unfold market_making_trades in Hm. rewrite Hty in Hm. simpl in Hm.
  inversion Hm. subst e2.
  apply execution_trades_zero in Hx; [|exact Hact].
  eapply Forall2_compose; [|exact Hx|exact Hrows].
  unfold untraded_row, settled_row, bounded_row, TIME_INDEX, INVENTORY_INDEX,
    CASH_INDEX.
  intros r0 r1 r2 (Hl & Hk & Hc & Hi) (Hl' & Hw & Ht & Hi' & Hc').
  assert (Ec : nth 0 r2 0 == clip1 (- max_cash e) (max_cash e) (nth 0 r0 0)).
  { rewrite Hc'. now apply clip1_comp. }
  assert (Ei : nth 1 r2 0 ==
               clip1 (- max_inventory e) (max_inventory e) (nth 1 r0 0)).
  { rewrite Hi'. now apply clip1_comp. }
  repeat split.
  - exact Ec.
  - exact Ei.
  - rewrite Ht, Hk by lia. reflexivity.
  - rewrite Ec. apply clip1_id. tauto.
  - rewrite Ei. apply clip1_id. tauto.
Qed.

End Stages.

(** C6 (as amended) on a speed environment of two trajectories, fresh from
    its constructor, with the zero action. *)
Lemma C6_zero_speed_keeps_cash_and_inventory_witness :
  let e := Fixture.make (Fixture.config "speed" 2 4 (Some 1%N)) in
  let a := Mat [[0]; [0]] in
  exists r e',
    step a e = Ok (r, e') /\
    state e' = next_state r /\
    Forall2 (fun row row' =>
               nth CASH_INDEX row' 0 ==
                 clip1 (- max_cash e) (max_cash e) (nth CASH_INDEX row 0) /\
               nth INVENTORY_INDEX row' 0 ==
                 clip1 (- max_inventory e) (max_inventory e)
                       (nth INVENTORY_INDEX row 0) /\
               nth TIME_INDEX row' 0 == nth TIME_INDEX row 0 + step_size e /\
               (bounded_row (max_inventory e) (max_cash e) row ->
                nth CASH_INDEX row' 0 == nth CASH_INDEX row 0 /\
                nth INVENTORY_INDEX row' 0 == nth INVENTORY_INDEX row 0))
            (state e) (next_state r).
Proof.
  intros e a. do 2 eexists.
  split; [vm_compute; reflexivity|].
  eapply C6_zero_speed_keeps_cash_and_inventory with (a := a) (e := e).
  - apply (reach_init (Fixture.config "speed" 2 4 (Some 1%N))).
    vm_compute. reflexivity.
  - vm_compute. reflexivity.
  - unfold a, flatten. simpl. repeat constructor.
  - vm_compute. reflexivity.
Defined.

(** C6 as stated fails: the same step with the zero action moves the asset
    price of the first trajectory from 100 to 101, because the market
    update advances every process whatever the action is. *)
Lemma C6_counterexample :
  let e := Fixture.make (Fixture.config "speed" 2 4 (Some 1%N)) in
  let a := Mat [[0]; [0]] in
  action_type e = "speed" /\
  Forall (fun x => x == 0) (flatten a) /\
  exists r e' row row',
    step a e = Ok (r, e') /\
    nth_error (state e) 0 = Some row /\
    nth_error (next_state r) 0 = Some row' /\
    map Qred row = [0; 0; 0; 100; 0; 0; 0] /\
    map Qred row' = [0; 0; 1 # 4; 101; -1; 0; 1] /\
    ~ (forall k, k <> TIME_INDEX -> nth k row' 0 == nth k row 0).
Proof.
  intros e a. split; [vm_compute; reflexivity|]. split; [unfold a, flatten; simpl; repeat constructor|].
  do 4 eexists.
  split; [vm_compute; reflexivity|]. split; [vm_compute; reflexivity|].
  split; [vm_compute; reflexivity|]. split; [vm_compute; reflexivity|].
  split; [vm_compute; reflexivity|].
  intros H. specialize (H ASSET_PRICE_INDEX).
  assert (K : ASSET_PRICE_INDEX <> TIME_INDEX) by (vm_compute; discriminate).
  specialize (H K). vm_compute in H. discriminate.
Qed.

(** ** The price of a fill *)

Lemma broadcast_to_view_nth (n : nat) (dv v : list Q) (i : nat) (di x : Q) :
  broadcast_to_view n (Vec dv) = Ok v ->
  nth_error dv i = Some di -> nth_error v i = Some x -> x = di.
Proof.
  simpl. intros H Hd Hx.
  destruct (Nat.eqb (length dv) n); [inversion H; subst; congruence|].
  destruct (Nat.eqb (length dv) 1) eqn:E; [|discriminate].
  apply Nat.eqb_eq in E. inversion H. subst v.
  apply nth_error_In, repeat_spec in Hx. subst x.
  destruct dv as [|d [|]]; try discriminate.
  destruct i as [|i]; [|destruct i; discriminate]. simpl in *. congruence.
Qed.

Lemma bzip_2_2 (f : Q -> Q -> Q) (x0 x1 y0 y1 : Q) :
  bzip (fun x y => Ok (f x y)) [x0; x1] [y0; y1] = Ok [f x0 y0; f x1 y1].
Proof. reflexivity. Qed.

Lemma bzip_1_2 (f : Q -> Q -> Q) (x y0 y1 : Q) :
  bzip (fun x y => Ok (f x y)) [x] [y0; y1] = Ok [f x y0; f x y1].
Proof. reflexivity. Qed.

(** [half_spread * multiplier], row by row. *)
Lemma offset_row_scalar (hs : Q) (M : matrix) (y : ndarray) (i : nat) (m0 m1 : Q) :
  np_mul (Scalar hs) (Mat M) = Ok y -> nth_error M i = Some [m0; m1] ->
  exists Y, y = Mat Y /\ nth_error Y i = Some [hs * m0; hs * m1].
Proof.
  unfold np_mul. intros H Hm.
  apply np_binop_Mat_r in H as (rows & -> & Hrows). simpl in Hrows.
  destruct (bzip_index_single_l _ _ _ _ Hrows Hm) as (z & Hz & Hb).
  rewrite bzip_1_2 in Hb. injection Hb as <-. eauto.
Qed.

(** [depths * multiplier], row by row. *)
Lemma offset_row_mat (D M : matrix) (y : ndarray) (i : nat) (db da m0 m1 : Q) :
  np_mul (Mat D) (Mat M) = Ok y ->
  nth_error D i = Some [db; da] -> nth_error M i = Some [m0; m1] ->
  exists Y, y = Mat Y /\ nth_error Y i = Some [db * m0; da * m1].
Proof.
  unfold np_mul. intros H Hd Hm.
  destruct (@np_binop_rows Qmult D M y i _ _ H Hd Hm) as (Y & rc & -> & Hrc & Hb).
  rewrite bzip_2_2 in Hb. injection Hb as <-. eauto.
Qed.

Section Prices.

Context {P R G : Type}.
Context {PM : Process.StochasticProcessModel P}.
Context {RF : Reward.RewardFunction R}.
Context {RG : Random.Generator G}.

Local Abbreviation Env := (@Env P R G).

Lemma midprice_row (e : Env) (mid : ndarray) (i : nat) (mrow : list Q) :
  midprice e = Ok mid ->
  nth_error (Process.current_state (midprice_model e)) i = Some mrow ->
  exists M, mid = Mat M /\ nth_error M i = Some [nth 0 mrow 0].
Proof.
  unfold midprice, column. intros H Hm. split_ok H.
  apply getcol_ok in Hc as [-> _].
  eexists. split; [reflexivity|]. rewrite !nth_error_map, Hm. reflexivity.
Qed.

(** The cash flow of a trajectory: each side's execution times the
    midprice moved by that side's offset. *)
Lemma cash_flow_row (A F : matrix) (offset : Result ndarray) (e : Env)
  (d : ndarray) (i : nat) (ab aa fb fa ob oa : Q) (mrow : list Q) :
  cash_flow (Some (Mat A)) (Some (Mat F)) offset e = Ok d ->
  nth_error A i = Some [ab; aa] -> nth_error F i = Some [fb; fa] ->
  nth_error (multiplier e) i = Some [- (1); 1] ->
  nth_error (Process.current_state (midprice_model e)) i = Some mrow ->
  (forall off y, offset = Ok off -> np_mul off (Mat (multiplier e)) = Ok y ->
     exists Y, y = Mat Y /\ nth_error Y i = Some [ob * - (1); oa * 1]) ->
  exists dv di, d = Vec dv /\ nth_error dv i = Some di /\
    di == quoted_cash_flow ab aa fb fa (nth 0 mrow 0) ob oa.
Proof.
  unfold cash_flow. intros H Ha Hf Hm Hmid Hoff. cbn [the_array rbind] in H.
  split_ok H.
  match goal with
  | H1 : np_mul (Mat (multiplier e)) (Mat A) = Ok ?x1 |- _ =>
      destruct (@np_binop_rows Qmult _ _ _ i _ _ H1 Hm Ha)
        as (X1 & r1 & -> & Hr1 & Hb1);
      rewrite bzip_2_2 in Hb1; injection Hb1 as <-; clear H1
  end.
  match goal with
  | H2 : np_mul (Mat X1) (Mat F) = Ok ?x2 |- _ =>
      destruct (@np_binop_rows Qmult _ _ _ i _ _ H2 Hr1 Hf)
        as (X2 & r2 & -> & Hr2 & Hb2);
      rewrite bzip_2_2 in Hb2; injection Hb2 as <-; clear H2
  end.
  match goal with
  | H3 : midprice e = Ok _ |- _ =>
      eapply midprice_row in H3 as (M & -> & HM); [|exact Hmid]
  end.
  match goal with
  | H4 : offset = Ok ?off, H5 : np_mul ?off (Mat (multiplier e)) = Ok _ |- _ =>
      destruct (Hoff _ _ H4 H5) as (Y & -> & HY); clear H5
  end.
  match goal with
  | H6 : np_add (Mat M) (Mat Y) = Ok _ |- _ =>
      destruct (@np_binop_rows Qplus _ _ _ i _ _ H6 HM HY)
        as (Y2 & r3 & -> & Hr3 & Hb3);
      rewrite bzip_1_2 in Hb3; injection Hb3 as <-; clear H6
  end.
  match goal with
  | H7 : np_mul (Mat X2) (Mat Y2) = Ok _ |- _ =>
      destruct (@np_binop_rows Qmult _ _ _ i _ _ H7 Hr2 Hr3)
        as (X3 & r4 & -> & Hr4 & Hb4);
      rewrite bzip_2_2 in Hb4; injection Hb4 as <-; clear H7
  end.
  match goal with
  | H8 : np_sum_axis1 _ = Ok d |- _ => simpl in H8; inversion H8
  end.
  eexists. eexists. split; [reflexivity|]. split.
  - rewrite nth_error_map, Hr4. reflexivity.
  - unfold vsum, quoted_cash_flow. simpl. ring.
Qed.

End Prices.

(** [m[:, j] += v] for a one-dimensional [v], on one row. *)
Lemma iadd_row (j : nat) (rhs : Result ndarray) (m m' : matrix) (i : nat)
  (row : list Q) :
  iadd j rhs m = Ok m' -> nth_error m i = Some row ->
  exists a, rhs = Ok a /\ (j < length row)%nat /\
    forall dv di, a = Vec dv -> nth_error dv i = Some di ->
      nth_error m' i = Some (set_nth j (nth j row 0 + di) row).
Proof.
  intros H Hrow. apply iadd_ok in H as (a & Ha & H). exists a.
  split; [exact Ha|].
  destruct (iop_col_ok _ _ _ _ H) as (v & Hv & _ & Hw & Hi).
  split.
  { rewrite Forall_forall in Hw. apply Hw. eapply nth_error_In; eauto. }
  intros dv di -> Hdi. destruct (Hi i row Hrow) as (x & Hx & Hm').
  rewrite (@broadcast_to_view_nth _ _ _ _ _ _ Hv Hdi Hx) in Hm'. exact Hm'.
Qed.

Section Trades.

Context {P R G : Type}.
Context {PM : Process.StochasticProcessModel P}.
Context {RF : Reward.RewardFunction R}.
Context {RG : Random.Generator G}.

Local Abbreviation Env := (@Env P R G).

(** What the trades of the limit and touch regimes do to a trajectory:
    its inventory moves by the executed bid volume minus the executed ask
    volume, its cash by the executed quotes priced at the midprice the
    environment holds when the trade is made. *)
Lemma market_making_trades_row (A F action : matrix) (e e1 : Env) (i : nat)
  (row mrow : list Q) (ab aa fb fa ob oa : Q) :
  market_making_trades (Some (Mat A)) (Some (Mat F)) action e = Ok e1 ->
  posted_at e action i ob oa ->
  nth_error (state e) i = Some row ->
  nth_error A i = Some [ab; aa] -> nth_error F i = Some [fb; fa] ->
  nth_error (multiplier e) i = Some [- (1); 1] ->
  nth_error (Process.current_state (midprice_model e)) i = Some mrow ->
  exists row1,
    nth_error (state e1) i = Some row1 /\ length row1 = length row /\
    (forall k, (2 <= k)%nat -> nth k row1 0 = nth k row 0) /\
    nth CASH_INDEX row1 0 ==
      nth CASH_INDEX row 0 + quoted_cash_flow ab aa fb fa (nth 0 mrow 0) ob oa /\
    nth INVENTORY_INDEX row1 0 ==
      nth INVENTORY_INDEX row 0 + (ab * fb - aa * fa).
Proof.
  intros H Hpost Hrow Ha Hf Hm Hmid.
  unfold market_making_trades in H.
  destruct Hpost as [(Hty & arow & Harow & Hfirst)|(Hty & Hhs & ->)].
  - assert (E1 : String.eqb (action_type e) "limit_and_market" = false)
      by (rewrite Hty; reflexivity).
    assert (E2 : String.eqb (action_type e) "touch" = false)
      by (rewrite Hty; reflexivity).
    assert (E3 : str_in (action_type e) ["limit"; "limit_and_market"] = true)
      by (rewrite Hty; reflexivity).
    rewrite E1, E2, E3 in H. split_ok H.
    match goal with
    | H1 : iadd INVENTORY_INDEX _ (state e) = Ok ?s1,
      H2 : iadd CASH_INDEX _ ?s1 = Ok ?s2 |- _ =>
        eapply iadd_row in H1 as (a1 & Ea1 & Hw1 & Hrow1); [|exact Hrow];
        eapply inventory_flow_row in Ea1 as (dv1 & di1 & -> & Hdi1 & Hv1);
          [|exact Ha|exact Hf|exact Hm];
        specialize (Hrow1 _ _ eq_refl Hdi1);
        eapply iadd_row in H2 as (a2 & Ea2 & Hw2 & Hrow2); [|exact Hrow1]
    end.
    eapply cash_flow_row with (ob := ob) (oa := oa) in Ea2
      as (dv2 & di2 & -> & Hdi2 & Hv2); try eassumption.
    2:{ intros off y Hoff Hy. unfold _limit_depths in Hoff. rewrite E3 in Hoff.
        cbn [rbind] in Hoff. injection Hoff as <-.
        eapply offset_row_mat; [exact Hy| |exact Hm].
        unfold slice_cols. rewrite nth_error_map, Harow.
        cbn [option_map]. change (skipn 0 arow) with arow.
        change (2 - 0)%nat with 2%nat. now rewrite Hfirst. }
    specialize (Hrow2 _ _ eq_refl Hdi2).
    eexists. split; [exact Hrow2|].
    unfold CASH_INDEX, INVENTORY_INDEX in *. rewrite set_nth_length in Hw2.
    repeat split.
    + now rewrite !set_nth_length.
    + intros k Hk. now rewrite !nth_set_nth_other by lia.
    + rewrite nth_set_nth_same by (rewrite set_nth_length; lia).
      rewrite nth_set_nth_other by lia. now rewrite Hv2.
    + rewrite nth_set_nth_other by lia. rewrite nth_set_nth_same by lia.
      now rewrite Hv1.
  - assert (E1 : String.eqb (action_type e) "limit_and_market" = false)
      by (rewrite Hty; reflexivity).
    assert (E2 : String.eqb (action_type e) "touch" = true)
      by (rewrite Hty; reflexivity).
    rewrite E1, E2 in H. split_ok H.
    match goal with
    | H1 : iadd CASH_INDEX _ (state e) = Ok ?s1,
      H2 : iadd INVENTORY_INDEX _ ?s1 = Ok ?s2 |- _ =>
        eapply iadd_row in H1 as (a1 & Ea1 & Hw1 & Hrow1); [|exact Hrow]
    end.
    eapply cash_flow_row with (ob := ob) (oa := ob) in Ea1
      as (dv1 & di1 & -> & Hdi1 & Hv1); try eassumption.
    2:{ intros off y Hoff Hy. rewrite Hhs in Hoff.
        cbn [the_number rbind] in Hoff. injection Hoff as <-.
        eapply offset_row_scalar; [exact Hy|exact Hm]. }
    specialize (Hrow1 _ _ eq_refl Hdi1).
    match goal with
    | H2 : iadd INVENTORY_INDEX _ _ = Ok _ |- _ =>
        eapply iadd_row in H2 as (a2 & Ea2 & Hw2 & Hrow2); [|exact Hrow1]
    end.
    eapply inventory_flow_row in Ea2 as (dv2 & di2 & -> & Hdi2 & Hv2);
      [|exact Ha|exact Hf|exact Hm].
    specialize (Hrow2 _ _ eq_refl Hdi2).
    eexists. split; [exact Hrow2|].
    unfold CASH_INDEX, INVENTORY_INDEX in *. rewrite set_nth_length in Hw2.
    repeat split.
    + now rewrite !set_nth_length.
    + intros k Hk. now rewrite !nth_set_nth_other by lia.
    + rewrite nth_set_nth_other by lia. rewrite nth_set_nth_same by lia.
      now rewrite Hv1.
    + rewrite nth_set_nth_same by (rewrite set_nth_length; lia).
      rewrite nth_set_nth_other by lia. now rewrite Hv2.
Qed.

End Trades.

(** ** The order of a step *)

Section Order.

Context {P R G : Type}.
Context {PM : Process.StochasticProcessModel P}.
Context {RF : Reward.RewardFunction R}.
Context {RG : Random.Generator G}.

Local Abbreviation Env := (@Env P R G).


End Order.



Section Pricing.

Context {P R G : Type}.
Context {PM : Process.StochasticProcessModel P}.
Context {RF : Reward.RewardFunction R}.
Context {RG : Random.Generator G}.

Local Abbreviation Env := (@Env P R G).

(** In the limit and touch regimes a step samples arrivals and fills,
    runs the agent update on an environment whose midprice model is still
    the one the step started with, and only then advances the processes;
    the agent update leaves every process as it found it.  A trajectory
    therefore ends the step with its cash moved by its executed quotes
    priced at the midprice from before the step (ask side at midprice plus
    offset, bid side at midprice minus offset, the offsets being the
    posted depths or the half spread), and its inventory moved by the
    executed bid volume minus the executed ask volume, both clipped to
    their bounds. *)
Theorem step_prices_fills_at_the_pre_step_midprice (a : ndarray) (e e' : Env)
  (r : StepResult) :
  reachable e ->
  action_type e = "limit" \/ action_type e = "touch" ->
  step a e = Ok (r, e') ->
  exists sp action arrivals fills e0 e1 e2,
    the_space (action_space e) = Ok sp /\
    (if has_shape (num_trajectories e) (space_shape0 sp) a then Ok (as2d a)
     else reshape (num_trajectories e) (space_shape0 sp) a) = Ok action /\
    _get_arrivals_and_fills action e = Ok (arrivals, fills, e0) /\
    state e0 = state e /\ midprice_model e0 = midprice_model e /\
    _update_agent_state (Some arrivals) (Some fills) action e0 = Ok e1 /\
    components e1 = components e0 /\
    _update_market_state (Some arrivals) (Some fills) action e1 = Ok e2 /\
    next_state r = state e2 /\
    forall i row mrow A F ab aa fb fa ob oa,
      nth_error (state e) i = Some row ->
      nth_error (Process.current_state (midprice_model e)) i = Some mrow ->
      arrivals = Mat A -> nth_error A i = Some [ab; aa] ->
      fills = Mat F -> nth_error F i = Some [fb; fa] ->
      nth_error (multiplier e) i = Some [- (1); 1] ->
      posted_at e action i ob oa ->
      exists row',
        nth_error (next_state r) i = Some row' /\
        nth CASH_INDEX row' 0 ==
          clip1 (- max_cash e) (max_cash e)
            (nth CASH_INDEX row 0 +
             quoted_cash_flow ab aa fb fa (nth 0 mrow 0) ob oa) /\
        nth INVENTORY_INDEX row' 0 ==
          clip1 (- max_inventory e) (max_inventory e)
            (nth INVENTORY_INDEX row 0 + (ab * fb - aa * fa)).
Proof.
  intros Hreach Hty H.
  apply step_split in H as (sp & action & Hsp & Hact & eU & Hup & Hn & _).
  assert (Hmm : str_in (action_type e) MARKET_MAKING_ACTION_TYPES = true)
    by (destruct Hty as [-> | ->]; reflexivity).
  assert (Hex : str_in (action_type e) EXECUTION_ACTION_TYPES = false)
    by (destruct Hty as [-> | ->]; reflexivity).
  unfold _update_state in Hup. rewrite Hmm in Hup. split_ok Hup.
  match goal with
  | H1 : _get_arrivals_and_fills _ _ = Ok (_, _, ?v0),
    H2 : _update_agent_state _ _ _ _ = Ok ?v1 |- _ =>
      rename v0 into E0; rename v1 into E1
  end.
  match goal with
  | H1 : _get_arrivals_and_fills _ _ = Ok (?arr, ?fl, _),
    H2 : _update_agent_state _ _ _ _ = Ok _,
    H3 : _update_market_state _ _ _ _ = Ok _ |- _ =>
      exists sp, action, arr, fl, E0, E1, eU;
      split; [exact Hsp|]; split; [exact Hact|];
      pose proof (_get_arrivals_and_fills_frame _ _ H1)
        as (Hs0 & Hl0 & Ht0 & Hmid0 & _);
      pose proof (_update_agent_state_ok _ _ _ _ H2) as (Hl1 & Ht1 & Hc1 & _);
      pose proof (_update_agent_state_split _ _ _ _ H2)
        as (em & ex & Htr & Hxt & Hrows);
      pose proof (_update_market_state_ok _ _ _ _ H3)
        as (_ & _ & _ & _ & _ & Hmk);
      split; [exact H1|]; split; [exact Hs0|]; split; [exact Hmid0|];
      split; [exact H2|]; split; [exact Hc1|]; split; [exact H3|];
      split; [exact Hn|]
  end.
  intros i row mrow A F ab aa fb fa ob oa Hrow Hmrow -> HA -> HF Hmul Hpost.
  pose proof (reachable_indices_ok Hreach) as Hok.
  assert (Hok1 : indices_ok E1).
  { unfold indices_ok, layout in *. congruence. }
  specialize (Hmk Hok1).
  assert (Hat : action_type E0 = action_type e)
    by (unfold static in Ht0; congruence).
  assert (Hhs : half_spread E0 = half_spread e)
    by (unfold static in Ht0; congruence).
  assert (Hmu : multiplier E0 = multiplier e)
    by (unfold static in Ht0; congruence).
  assert (Hmi : max_inventory E0 = max_inventory e)
    by (unfold layout in Hl0; congruence).
  assert (Hmc : max_cash E0 = max_cash e)
    by (unfold layout in Hl0; congruence).
  apply market_making_trades_frame in Htr as Hfr.
  destruct Hfr as (_ & Htm & _).
  assert (Hxe : ex = em).
  { unfold execution_trades in Hxt.
    replace (action_type em) with (action_type e) in Hxt
      by (unfold static in Htm; congruence).
    rewrite Hex in Hxt. congruence. }
  subst ex.
  eapply market_making_trades_row with (i := i) (ob := ob) (oa := oa) in Htr
    as (row1 & Hrow1 & _ & _ & Hcash1 & Hinv1).
  2:{ unfold posted_at in *. rewrite Hat, Hhs. exact Hpost. }
  2:{ rewrite Hs0. exact Hrow. }
  2:{ exact HA. }
  2:{ exact HF. }
  2:{ rewrite Hmu. exact Hmul. }
  2:{ rewrite Hmid0. exact Hmrow. }
  destruct (Forall2_index Hrows _ Hrow1) as (row2 & Hrow2 & Hclip).
  destruct (Forall2_index Hmk _ Hrow2) as (row3 & Hrow3 & Hl3 & Hbelow).
  exists row3. rewrite Hn. split; [exact Hrow3|].
  unfold clipped_row, CASH_INDEX, INVENTORY_INDEX in *.
  destruct Hclip as (_ & _ & _ & _ & Hi2 & Hc2).
  rewrite Hmi, Hmc in *.
  split.
  - rewrite Hbelow by lia. rewrite Hc2. now apply clip1_comp.
  - rewrite Hbelow by lia. rewrite Hi2. now apply clip1_comp.
Qed.

End Pricing.

(** The theorem on a touch environment of two trajectories, fresh from
    its constructor; the second trajectory posts its bid only. *)
Lemma step_prices_fills_at_the_pre_step_midprice_witness :
  let e := Fixture.make (Fixture.config "touch" 2 4 (Some 1%N)) in
  let a := Mat [[1; 1]; [1; 0]] in
  exists r e',
    step a e = Ok (r, e') /\
    (
      exists sp action arrivals fills e0 e1 e2,
        the_space (action_space e) = Ok sp /\
        (if has_shape (num_trajectories e) (space_shape0 sp) a then Ok (as2d a)
         else reshape (num_trajectories e) (space_shape0 sp) a) = Ok action /\
        _get_arrivals_and_fills action e = Ok (arrivals, fills, e0) /\
        state e0 = state e /\ midprice_model e0 = midprice_model e /\
        _update_agent_state (Some arrivals) (Some fills) action e0 = Ok e1 /\
        components e1 = components e0 /\
        _update_market_state (Some arrivals) (Some fills) action e1 = Ok e2 /\
        next_state r = state e2 /\
        forall i row mrow A F ab aa fb fa ob oa,
          nth_error (state e) i = Some row ->
          nth_error (Process.current_state (midprice_model e)) i = Some mrow ->
          arrivals = Mat A -> nth_error A i = Some [ab; aa] ->
          fills = Mat F -> nth_error F i = Some [fb; fa] ->
          nth_error (multiplier e) i = Some [- (1); 1] ->
          posted_at e action i ob oa ->
          exists row',
            nth_error (next_state r) i = Some row' /\
            nth CASH_INDEX row' 0 ==
              clip1 (- max_cash e) (max_cash e)
                (nth CASH_INDEX row 0 +
                 quoted_cash_flow ab aa fb fa (nth 0 mrow 0) ob oa) /\
            nth INVENTORY_INDEX row' 0 ==
              clip1 (- max_inventory e) (max_inventory e)
                (nth INVENTORY_INDEX row 0 + (ab * fb - aa * fa))).
Proof.
  intros e a. do 2 eexists. split; [vm_compute; reflexivity|].
  eapply step_prices_fills_at_the_pre_step_midprice with (a := a) (e := e).
  - apply (reach_init (Fixture.config "touch" 2 4 (Some 1%N))).
    vm_compute. reflexivity.
  - right. vm_compute. reflexivity.
  - vm_compute. reflexivity.
Defined.

(** The same step, run: both trajectories see one arrival on each side;
    the second one only posted a bid, which executes at the midprice of
    100 the step started with minus the half spread of 1/2, although the
    step ends with the asset price at 101. *)
Example a_bid_filled_at_the_pre_step_midprice :
  let e := Fixture.make (Fixture.config "touch" 2 4 (Some 1%N)) in
  exists r e',
    step (Mat [[1; 1]; [1; 0]]) e = Ok (r, e') /\
    map (map Qred) (state e) =
      [[0; 0; 0; 100; 0; 0; 0]; [0; 0; 0; 100; 0; 0; 0]] /\
    map (map Qred) (next_state r) =
      [[1; 0; 1 # 4; 101; 0; 0; 1]; [- (199 # 2); 1; 1 # 4; 101; 0; 0; 1]].
Proof.
  intros e. do 2 eexists. split; [vm_compute; reflexivity|].
  split; vm_compute; reflexivity.
Qed.

(** ** The market-order branch *)

Section MarketOrders.

Context {P R G : Type}.
Context {PM : Process.StochasticProcessModel P}.
Context {RF : Reward.RewardFunction R}.
Context {RG : Random.Generator G}.

Local Abbreviation Env := (@Env P R G).

Lemma midprice_Mat (e : Env) (mid : ndarray) :
  midprice e = Ok mid -> exists M, mid = Mat M.
Proof. unfold midprice. intros H. split_ok H. eauto. Qed.

(** The market-order branch of [_update_agent_state] multiplies the
    one-dimensional order flags by the midprice column, which gives a
    two-dimensional array, and adds that to the cash column in place. *)
Lemma market_making_trades_limit_and_market arrivals fills action (e e' : Env) :
  action_type e = "limit_and_market" ->
  market_making_trades arrivals fills action e <> Ok e'.
Proof.
  intros Hty H. unfold market_making_trades in H. rewrite Hty in H.
  change (String.eqb "limit_and_market" "limit_and_market") with true in H.
  cbv iota in H. split_ok H.
  match goal with
  | Hm : midprice e = Ok ?m1, Hb : np_sub ?m1 (Scalar _) = Ok ?bb,
    Hi : iadd CASH_INDEX _ (state e) = Ok _ |- _ =>
      apply midprice_Mat in Hm as (M & ->);
      apply np_binop_Mat_l in Hb as (B & -> & _);
      apply iadd_ok in Hi as (c & Hc' & Hiop)
  end.
  split_ok Hc'.
  match goal with
  | H1 : np_mul (threshold _) (Mat B) = Ok ?u, H2 : np_sub ?u _ = Ok c |- _ =>
      apply np_binop_Mat_r in H1 as (U & -> & _);
      apply np_binop_Mat_l in H2 as (C & -> & _)
  end.
  apply iop_col_ok in Hiop as (v & Hv & _). discriminate Hv.
Qed.

(** In the limit_and_market regime no call to [step] returns: the
    in-place update of the cash column is given a two-dimensional
    right-hand side, which numpy refuses for a one-dimensional view
    whatever the batch size is. *)
Theorem limit_and_market_step_never_returns (a : ndarray) (e e' : Env)
  (r : StepResult) :
  action_type e = "limit_and_market" -> step a e <> Ok (r, e').
Proof.
  intros Hty H.
  apply step_split in H as (sp & action & _ & _ & eU & Hup & _).
  unfold _update_state in Hup. rewrite Hty in Hup.
  change (str_in "limit_and_market" MARKET_MAKING_ACTION_TYPES) with true in Hup.
  cbv iota in Hup. split_ok Hup.
  match goal with
  | H1 : _get_arrivals_and_fills _ _ = Ok _,
    H2 : _update_agent_state _ _ _ _ = Ok _ |- _ =>
      apply _get_arrivals_and_fills_frame in H1 as (_ & _ & Ht & _);
      apply _update_agent_state_split in H2 as (e1 & e2 & Hm & _)
  end.
  revert Hm. apply market_making_trades_limit_and_market.
  unfold static in Ht. congruence.
Qed.

End MarketOrders.

(** The theorem on a limit_and_market environment of two trajectories. *)
Lemma limit_and_market_step_never_returns_witness :
  let e := Fixture.make (Fixture.config "limit_and_market" 2 4 (Some 1%N)) in
  action_type e = "limit_and_market" /\
  forall a r e', step a e <> Ok (r, e').
Proof.
  intros e.
  assert (Hty : action_type e = "limit_and_market") by (vm_compute; reflexivity).
  split; [exact Hty|]. intros a r e'.
  apply limit_and_market_step_never_returns. exact Hty.
Defined.

(** On that environment the constructor succeeds and a well-shaped action
    makes [step] raise ValueError, for one trajectory as for two. *)
Example limit_and_market_step_raises :
  (exists e, init (G := N) (Fixture.config "limit_and_market" 2 4 (Some 1%N)) = Ok e /\
     step (Mat [[1; 1; 0; 0]; [1; 1; 1; 0]]) e = Raise ValueError) /\
  (exists e, init (G := N) (Fixture.config "limit_and_market" 1 4 (Some 1%N)) = Ok e /\
     step (Mat [[1; 1; 0; 0]]) e = Raise ValueError).
Proof.
  split; eexists; (split; [vm_compute; reflexivity|]); vm_compute; reflexivity.
Qed.

(** ** The execution regime *)

Lemma bzip_1_1 (f : Q -> Q -> Q) (x y : Q) :
  bzip (fun x y => Ok (f x y)) [x] [y] = Ok [f x y].
Proof. reflexivity. Qed.

(** [np.squeeze] of a product with one column, read through the view it
    is added to. *)
Lemma squeezed_entry (n : nat) (X : matrix) (v : list Q) (i : nat) (x y : Q) :
  broadcast_to_view n (np_squeeze (Mat X)) = Ok v ->
  nth_error X i = Some [x] -> nth_error v i = Some y -> y = x.
Proof.
  intros Hv Hx Hy.
  assert (Hgen : forall X', (2 <= length X')%nat -> nth_error X' i = Some [x] ->
            broadcast_to_view n
              (if forallb (fun r => Nat.eqb (length r) 1) X'
               then Vec (map (fun r => nth 0 r 0) X') else Mat X') = Ok v ->
            y = x).
  { intros X' Hlen Hx' Hv'. destruct (forallb _ X'); [|discriminate].
    simpl in Hv'. rewrite length_map in Hv'.
    destruct (Nat.eqb (length X') n).
    - inversion Hv'. subst v. rewrite nth_error_map, Hx' in Hy.
      simpl in Hy. congruence.
    - destruct (Nat.eqb (length X') 1) eqn:E; [|discriminate].
      apply Nat.eqb_eq in E. lia. }
  destruct X as [|r [|r' X]].
  - destruct i; discriminate.
  - destruct i as [|i]; [|destruct i; discriminate].
    simpl in Hx. inversion Hx. subst r. simpl in Hv. inversion Hv. subst v.
    apply nth_error_In, repeat_spec in Hy. exact Hy.
  - apply (Hgen (r :: r' :: X)); [simpl; lia|exact Hx|].
    destruct r as [|x0 [|x1 r]]; exact Hv.
Qed.

Section Execution.

Context {P R G : Type}.
Context {PM : Process.StochasticProcessModel P}.
Context {RF : Reward.RewardFunction R}.
Context {RG : Random.Generator G}.

Local Abbreviation Env := (@Env P R G).

(** What the trade of the speed regime does to a trajectory that trades
    at speed [x] while the impact model quotes [k]: it buys [x * step_size]
    units at the midprice plus the impact. *)
Lemma execution_trades_row (action : matrix) (e e' : Env) (i : nat)
  (row mrow : list Q) (x : Q) :
  action_type e = "speed" ->
  execution_trades action e = Ok e' ->
  nth_error (state e) i = Some row ->
  nth_error (Process.current_state (midprice_model e)) i = Some mrow ->
  nth_error action i = Some [x] ->
  exists pm imp,
    price_impact_model e = Some pm /\ Process.get_impact action pm = Ok imp /\
    forall K k, imp = Mat K -> nth_error K i = Some [k] ->
      exists row1,
        nth_error (state e') i = Some row1 /\ length row1 = length row /\
        (forall j, (2 <= j)%nat -> nth j row1 0 = nth j row 0) /\
        nth CASH_INDEX row1 0 ==
          nth CASH_INDEX row 0 - x * step_size e * (nth 0 mrow 0 + k) /\
        nth INVENTORY_INDEX row1 0 ==
          nth INVENTORY_INDEX row 0 + x * step_size e.
Proof.
  intros Hty H Hrow Hmid Hact. unfold execution_trades in H. rewrite Hty in H.
  change (str_in "speed" EXECUTION_ACTION_TYPES) with true in H. cbv iota in H.
  split_ok H.
  match goal with
  | H1 : the_model (price_impact_model e) = Ok ?pm,
    H2 : Process.get_impact action ?pm = Ok ?imp |- _ =>
      exists pm, imp; split;
        [destruct (price_impact_model e); [simpl in H1; congruence|discriminate]|];
      split; [exact H2|]
  end.
  intros K k -> HK.
  match goal with
  | H3 : midprice e = Ok _ |- _ =>
      eapply midprice_row in H3 as (M & -> & HM); [|exact Hmid]
  end.
  match goal with
  | H4 : np_add (Mat M) (Mat K) = Ok _ |- _ =>
      destruct (@np_binop_rows Qplus _ _ _ i _ _ H4 HM HK)
        as (E & re & -> & Hre & Hbe);
      rewrite bzip_1_1 in Hbe; injection Hbe as <-
  end.
  match goal with
  | H5 : np_mul (Mat action) (Scalar _) = Ok _ |- _ =>
      apply np_binop_Mat_l in H5 as (V & -> & HV);
      destruct (bzip_index_single_r _ _ _ _ HV Hact) as (rv & Hrv & Hbv);
      rewrite bzip_1_1 in Hbv; injection Hbv as <-
  end.
  match goal with
  | H6 : isub CASH_INDEX _ (state e) = Ok _ |- _ =>
      apply isub_ok in H6 as (c1 & Ec1 & Hop1);
      destruct (iop_col_ok _ _ _ _ Hop1) as (v1 & Hv1 & _ & Hw1 & Hi1);
      destruct (Hi1 i row Hrow) as (y1 & Hy1 & Hrow1)
  end.
  split_ok Ec1.
  match goal with
  | H7 : np_mul (Mat V) (Mat E) = Ok _ |- _ =>
      destruct (@np_binop_rows Qmult _ _ _ i _ _ H7 Hrv Hre)
        as (X & rx & -> & Hrx & Hbx);
      rewrite bzip_1_1 in Hbx; injection Hbx as <-
  end.
  pose proof (@squeezed_entry _ _ _ _ _ _ Hv1 Hrx Hy1) as ->.
  match goal with
  | H8 : iadd INVENTORY_INDEX _ _ = Ok _ |- _ =>
      apply iadd_ok in H8 as (c2 & Ec2 & Hop2);
      destruct (iop_col_ok _ _ _ _ Hop2) as (v2 & Hv2 & _ & Hw2 & Hi2);
      destruct (Hi2 i _ Hrow1) as (y2 & Hy2 & Hrow2)
  end.
  assert (Ec : c2 = np_squeeze (Mat V)) by congruence. subst c2.
  pose proof (@squeezed_entry _ _ _ _ _ _ Hv2 Hrv Hy2) as ->.
  eexists. split; [exact Hrow2|].
  assert (Hlt : (CASH_INDEX < length row)%nat).
  { rewrite Forall_forall in Hw1. apply Hw1. eapply nth_error_In; eauto. }
  assert (Hlt2 : (INVENTORY_INDEX < length row)%nat).
  { rewrite Forall_forall in Hw2.
    rewrite <- (set_nth_length CASH_INDEX
                  (nth CASH_INDEX row 0 - x * step_size e * (nth 0 mrow 0 + k)) row).
    apply Hw2. eapply nth_error_In; eauto. }
  unfold CASH_INDEX, INVENTORY_INDEX in *.
  repeat split.
  - now rewrite !set_nth_length.
  - intros j Hj. now rewrite !nth_set_nth_other by lia.
  - rewrite nth_set_nth_other by lia. rewrite nth_set_nth_same by lia.
    reflexivity.
  - rewrite nth_set_nth_same by (rewrite set_nth_length; lia).
    rewrite nth_set_nth_other by lia. reflexivity.
Qed.

(** In the speed regime a step makes a trajectory that trades at speed
    [x] buy [x * step_size] units at the midprice from before the step
    plus the impact the price-impact model returns for the action: its
    inventory and cash end the step at the traded values clipped to their
    bounds, and its elapsed time one step size later.  No arrivals or
    fills are sampled. *)
Theorem speed_step_trades_at_midprice_plus_impact (a : ndarray) (e e' : Env)
  (r : StepResult) :
  reachable e ->
  action_type e = "speed" ->
  step a e = Ok (r, e') ->
  exists sp action pm imp,
    the_space (action_space e) = Ok sp /\
    (if has_shape (num_trajectories e) (space_shape0 sp) a then Ok (as2d a)
     else reshape (num_trajectories e) (space_shape0 sp) a) = Ok action /\
    price_impact_model e = Some pm /\ Process.get_impact action pm = Ok imp /\
    forall i row mrow x K k,
      nth_error (state e) i = Some row ->
      nth_error (Process.current_state (midprice_model e)) i = Some mrow ->
      nth_error action i = Some [x] ->
      imp = Mat K -> nth_error K i = Some [k] ->
      exists row',
        nth_error (next_state r) i = Some row' /\
        nth CASH_INDEX row' 0 ==
          clip1 (- max_cash e) (max_cash e)
            (nth CASH_INDEX row 0 - x * step_size e * (nth 0 mrow 0 + k)) /\
        nth INVENTORY_INDEX row' 0 ==
          clip1 (- max_inventory e) (max_inventory e)
            (nth INVENTORY_INDEX row 0 + x * step_size e) /\
        nth TIME_INDEX row' 0 == nth TIME_INDEX row 0 + step_size e.
Proof.
  intros Hreach Hty H.
  apply step_split in H as (sp & action & Hsp & Hact & eU & Hup & Hn & _).
  apply _update_state_split in Hup; [|now apply reachable_indices_ok].
  destruct Hup as (arrivals & fills & e0 & e1 & e2 & Hpre & Hm & Hx & Hrows).
  rewrite Hty in Hpre. simpl in Hpre. destruct Hpre as (_ & _ & ->).
  unfold market_making_trades in Hm. rewrite Hty in Hm. simpl in Hm.
  inversion Hm. subst e1.
  assert (Himp : exists pm imp, price_impact_model e = Some pm /\
                   Process.get_impact action pm = Ok imp).
  { pose proof Hx as Hx'. unfold execution_trades in Hx'. rewrite Hty in Hx'.
    change (str_in "speed" EXECUTION_ACTION_TYPES) with true in Hx'.
    cbv iota in Hx'. split_ok Hx'.
    destruct (price_impact_model e) as [pm|]; [|discriminate].
    match goal with
    | H1 : the_model (Some pm) = Ok ?q |- _ =>
        simpl in H1; injection H1 as <-
    end.
    eauto. }
  destruct Himp as (pm & imp & Hpm & Himp).
  exists sp, action, pm, imp.
  split; [exact Hsp|]. split; [exact Hact|]. split; [exact Hpm|].
  split; [exact Himp|].
  intros i row mrow x K k Hrow Hmid Harow -> HK.
  pose proof Hx as Hx2.
  eapply execution_trades_row with (i := i) in Hx2
    as (pm' & imp' & Hpm' & Himp' & Hrow1); try eassumption.
  assert (HK' : imp' = Mat K) by congruence.
  destruct (Hrow1 K k HK' HK) as (row1 & Hr1 & _ & Hfrom & Hc1 & Hi1).
  destruct (Forall2_index Hrows _ Hr1) as (row2 & Hr2 & Hset).
  exists row2. rewrite Hn. split; [exact Hr2|].
  unfold settled_row, TIME_INDEX, CASH_INDEX, INVENTORY_INDEX in *.
  destruct Hset as (_ & _ & Ht & Hi2 & Hc2).
  split; [rewrite Hc2; now apply clip1_comp|].
  split; [rewrite Hi2; now apply clip1_comp|].
  rewrite Ht, Hfrom by lia. reflexivity.
Qed.

End Execution.

(** The theorem on a speed environment of two trajectories, one buying
    and one selling. *)
Lemma speed_step_trades_at_midprice_plus_impact_witness :
  let e := Fixture.make (Fixture.config "speed" 2 4 (Some 1%N)) in
  let a := Mat [[4]; [- (8)]] in
  exists r e',
    step a e = Ok (r, e') /\
    (
      exists sp action pm imp,
        the_space (action_space e) = Ok sp /\
        (if has_shape (num_trajectories e) (space_shape0 sp) a then Ok (as2d a)
         else reshape (num_trajectories e) (space_shape0 sp) a) = Ok action /\
        price_impact_model e = Some pm /\ Process.get_impact action pm = Ok imp /\
        forall i row mrow x K k,
          nth_error (state e) i = Some row ->
          nth_error (Process.current_state (midprice_model e)) i = Some mrow ->
          nth_error action i = Some [x] ->
          imp = Mat K -> nth_error K i = Some [k] ->
          exists row',
            nth_error (next_state r) i = Some row' /\
            nth CASH_INDEX row' 0 ==
              clip1 (- max_cash e) (max_cash e)
                (nth CASH_INDEX row 0 - x * step_size e * (nth 0 mrow 0 + k)) /\
            nth INVENTORY_INDEX row' 0 ==
              clip1 (- max_inventory e) (max_inventory e)
                (nth INVENTORY_INDEX row 0 + x * step_size e) /\
            nth TIME_INDEX row' 0 == nth TIME_INDEX row 0 + step_size e).
Proof.
  intros e a. do 2 eexists. split; [vm_compute; reflexivity|].
  eapply speed_step_trades_at_midprice_plus_impact with (a := a) (e := e).
  - apply (reach_init (Fixture.config "speed" 2 4 (Some 1%N))).
    vm_compute. reflexivity.
  - vm_compute. reflexivity.
  - vm_compute. reflexivity.
Defined.

(** The same step, run, with a step size of 1/4, a midprice of 100 and
    an impact of a tenth of the speed: the buyer pays 100.4 for its unit,
    the seller receives 99.2 for each of its two, and the asset price is
    101 when the step ends. *)
Example a_speed_step :
  let e := Fixture.make (Fixture.config "speed" 2 4 (Some 1%N)) in
  exists r e',
    step (Mat [[4]; [- (8)]]) e = Ok (r, e') /\
    map (map Qred) (state e) =
      [[0; 0; 0; 100; 0; 0; 0]; [0; 0; 0; 100; 0; 0; 0]] /\
    map (fun row => map Qred (firstn 4 row)) (next_state r) =
      [[- (502 # 5); 1; 1 # 4; 101]; [992 # 5; - (2); 1 # 4; 101]].
Proof.
  intros e. do 2 eexists. split; [vm_compute; reflexivity|].
  split; vm_compute; reflexivity.
Qed.

(** ** Edge behaviour of the public methods *)

(** [_clamp] maps every number into [0, 1], leaves the numbers of that
    interval as they are and sends the others to the nearer end. *)
Theorem _clamp_range (p : Q) :
  0 <= _clamp p /\ _clamp p <= 1 /\
  (0 <= p /\ p <= 1 -> _clamp p == p) /\
  (p <= 0 -> _clamp p == 0) /\
  (1 <= p -> _clamp p == 1) /\
  _clamp (_clamp p) == _clamp p.
Proof.
  unfold _clamp.
  assert (H : forall q, 0 <= Qmax (Qmin q 1) 0 /\ Qmax (Qmin q 1) 0 <= 1 /\
                (0 <= q /\ q <= 1 -> Qmax (Qmin q 1) 0 == q) /\
                (q <= 0 -> Qmax (Qmin q 1) 0 == 0) /\
                (1 <= q -> Qmax (Qmin q 1) 0 == 1)).
  { intros q.
    destruct (Q.min_spec q 1) as [[H1 E1]|[H1 E1]];
      destruct (Q.max_spec (Qmin q 1) 0) as [[H2 E2]|[H2 E2]];
      rewrite E2; rewrite E1 in *; repeat split; intros; try lra. }
  destruct (H p) as (H0 & H1 & Hid & Hlo & Hhi).
  repeat split; auto.
  destruct (H (Qmax (Qmin p 1) 0)) as (_ & _ & Hid' & _).
  apply Hid'. split; assumption.
Qed.

Lemma has_shape_flatten (n w : nat) (a : ndarray) :
  has_shape n w a = true -> length (flatten a) = (n * w)%nat.
Proof.
  unfold has_shape, flatten. destruct a as [x|v|m]; try discriminate.
  intros H. apply andb_true_iff in H as [Hn Hw]. apply Nat.eqb_eq in Hn.
  subst n. simpl. induction m as [|r m IH]; [reflexivity|].
  simpl in Hw. apply andb_true_iff in Hw as [Hr Hw]. apply Nat.eqb_eq in Hr.
  simpl. rewrite length_app, IH by exact Hw. lia.
Qed.

Lemma chunks_shape (w n : nat) (l : list Q) :
  length l = (n * w)%nat ->
  length (chunks w n l) = n /\
  Forall (fun r => length r = w) (chunks w n l) /\
  concat (chunks w n l) = l.
Proof.
  revert l. induction n as [|n IH]; intros l Hl; simpl in *.
  - destruct l; [|discriminate]. repeat split. constructor.
  - destruct (IH (skipn w l)) as (H1 & H2 & H3).
    { rewrite length_skipn. lia. }
    repeat split.
    + now rewrite H1.
    + constructor; [|exact H2]. rewrite length_firstn. lia.
    + rewrite H3. apply firstn_skipn.
Qed.

Lemma has_shape_rows (n w : nat) (m : matrix) :
  has_shape n w (Mat m) = true ->
  length m = n /\ Forall (fun r => length r = w) m.
Proof.
  unfold has_shape. intros H. apply andb_true_iff in H as [Hn Hw].
  apply Nat.eqb_eq in Hn. split; [exact Hn|].
  rewrite forallb_forall in Hw. apply Forall_forall. intros r Hr.
  apply Nat.eqb_eq. now apply Hw.
Qed.

Section Methods.

Context {P R G : Type}.
Context {PM : Process.StochasticProcessModel P}.
Context {RF : Reward.RewardFunction R}.
Context {RG : Random.Generator G}.

Local Abbreviation Env := (@Env P R G).

(** [step] refuses an action whose number of entries is not the number
    of trajectories times the width of the action space: the reshape
    raises ValueError before anything is updated. *)
Theorem step_rejects_an_action_of_the_wrong_size (a : ndarray) (e : Env)
  (sp : Space) :
  action_space e = Some sp ->
  length (flatten a) <> (num_trajectories e * space_shape0 sp)%nat ->
  step a e = Raise ValueError.
Proof.
  intros Hsp Hlen. unfold step. rewrite Hsp. cbn [the_space rbind].
  destruct (has_shape (num_trajectories e) (space_shape0 sp) a) eqn:E.
  { apply has_shape_flatten in E. contradiction. }
  unfold reshape. apply Nat.eqb_neq in Hlen. rewrite Hlen. reflexivity.
Qed.

(** An action that [step] accepts reaches [_update_state] with one row
    per trajectory, as many columns as the action space is wide, and the
    entries of the action in their row-major order. *)
Theorem step_hands_on_the_action_in_row_major_order (a : ndarray) (e e' : Env)
  (r : StepResult) :
  step a e = Ok (r, e') ->
  exists sp action e1,
    action_space e = Some sp /\
    _update_state action e = Ok e1 /\ next_state r = state e1 /\
    length action = num_trajectories e /\
    Forall (fun row => length row = space_shape0 sp) action /\
    concat action = flatten a.
Proof.
  intros H. apply step_split in H as (sp & action & Hsp & Hact & e1 & Hup & Hn & _).
  exists sp, action, e1.
  split. { destruct (action_space e); inversion Hsp; reflexivity. }
  split; [exact Hup|]. split; [exact Hn|].
  destruct (has_shape (num_trajectories e) (space_shape0 sp) a) eqn:E.
  - destruct a as [x|v|m]; try discriminate. inversion Hact. subst action.
    apply has_shape_rows in E as [H1 H2]. auto.
  - unfold reshape in Hact.
    destruct (Nat.eqb _ _) eqn:El; [|discriminate]. inversion Hact.
    apply Nat.eqb_eq in El. now apply chunks_shape.
Qed.

(** The registry of every reachable environment starts with the midprice
    model, which is never absent. *)
Lemma init_names_head (c : Config) (e : Env) :
  init c = Ok e ->
  exists rest, stochastic_processes e = "midprice_model" :: rest.
Proof.
  unfold init. intros H. split_ok H.
  match goal with
  | Hs : match cfg_seed c with _ => _ end = Ok ?e1,
    Hi : initial_state ?e1 = Ok (?st, ?e2) |- _ =>
      apply (init_seed_frame (cfg_seed c)) in Hs as (_ & Ht1 & _);
      apply initial_state_frame in Hi as (_ & Ht2 & _);
      change (stochastic_processes (set_action_space _ _))
        with (stochastic_processes e2);
      replace (stochastic_processes e2) with (stochastic_processes e1)
        by (unfold static in Ht2; congruence)
  end.
  unfold static in Ht1. cbn [stochastic_processes set_stochastic_process_indices
                              set_stochastic_processes] in Ht1.
  injection Ht1 as _ _ _ _ _ Hn _ _ _ _ _ _. rewrite Hn.
  unfold _get_stochastic_processes, PROCESS_NAMES.
  eexists. cbn [filter getattr String.eqb Ascii.eqb Bool.eqb]. reflexivity.
Qed.

Lemma reachable_names_head (e : Env) :
  reachable e -> exists rest, stochastic_processes e = "midprice_model" :: rest.
Proof.
  induction 1 as [c e H|e e' st _ IH H|e e' a r _ IH H|e e' s _ IH H
                 |e e' v _ IH H|e e' v _ IH H].
  - eapply init_names_head; eauto.
  - apply reset_frame in H as (_ & Ht & _). unfold static in Ht.
    replace (stochastic_processes e') with (stochastic_processes e) by congruence.
    exact IH.
  - apply step_ok in H as (_ & Ht & _). unfold static in Ht.
    replace (stochastic_processes e') with (stochastic_processes e) by congruence.
    exact IH.
  - apply seed_frame in H as (_ & Ht & _). unfold static in Ht.
    replace (stochastic_processes e') with (stochastic_processes e) by congruence.
    exact IH.
  - rewrite (set_step_size_names _ _ H). exact IH.
  - rewrite (set_num_trajectories_names _ _ H). exact IH.
Qed.

(** [seed()] with its default argument [None] raises TypeError in every
    environment: the midprice model is always registered, and its derived
    seed [None + 0 + 1] cannot be computed. *)
Theorem seed_without_a_value_raises (e : Env) :
  reachable e -> seed None e = Raise TypeError.
Proof.
  intros Hr. destruct (reachable_names_head Hr) as (rest & Hn).
  unfold seed. cbn [stochastic_processes set_rng]. rewrite Hn.
  reflexivity.
Qed.

(** The [num_trajectories] setter stores the new batch size and nothing
    else of the environment's own arrays: the state keeps its rows until
    the next reset, and the multiplier, the empty infos and the two spaces
    keep the shape the constructor gave them. *)
Theorem num_trajectories_setter_keeps_the_arrays (v : nat) (e e' : Env) :
  set_num_trajectories v e = Ok e' ->
  num_trajectories e' = v /\
  state e' = state e /\ multiplier e' = multiplier e /\
  empty_infos e' = empty_infos e /\
  observation_space e' = observation_space e /\
  action_space e' = action_space e.
Proof.
  unfold set_num_trajectories. intros H.
  assert (Hgen : forall {X : Type} (f : Env -> X),
            (forall name p e, f (store name p e) = f e) ->
            (forall n e, f (print n e) = f e) ->
            f e' = f (set__num_trajectories v e)).
  { intros X f Hst Hpr. revert H. apply for_processes_keeps.
    intros i name p e0 e1 Hb. destruct (negb _); inversion Hb; [|reflexivity].
    now rewrite Hst, Hpr. }
  repeat split.
  - apply (Hgen _ num_trajectories); intros; [store_frame|reflexivity].
  - apply (Hgen _ state); intros; [store_frame|reflexivity].
  - apply (Hgen _ multiplier); intros; [store_frame|reflexivity].
  - apply (Hgen _ empty_infos); intros; [store_frame|reflexivity].
  - apply (Hgen _ observation_space); intros; [store_frame|reflexivity].
  - apply (Hgen _ action_space); intros; [store_frame|reflexivity].
Qed.

End Methods.

(** A flat action of three entries for two trajectories of a touch
    environment, whose action space is two wide. *)
Lemma step_rejects_an_action_of_the_wrong_size_witness :
  let e := Fixture.make (Fixture.config "touch" 2 4 (Some 1%N)) in
  let a := Vec [1; 1; 0] in
  action_space e = Some (MultiBinary 2) /\
  length (flatten a) <> (num_trajectories e * space_shape0 (MultiBinary 2))%nat /\
  step a e = Raise ValueError.
Proof.
  intros e a.
  assert (H1 : action_space e = Some (MultiBinary 2)) by (vm_compute; reflexivity).
  assert (H2 : length (flatten a) <>
               (num_trajectories e * space_shape0 (MultiBinary 2))%nat)
    by (vm_compute; discriminate).
  split; [exact H1|]. split; [exact H2|].
  exact (step_rejects_an_action_of_the_wrong_size a e H1 H2).
Defined.

(** A flat action of four entries for the same environment. *)
Lemma step_hands_on_the_action_in_row_major_order_witness :
  let e := Fixture.make (Fixture.config "touch" 2 4 (Some 1%N)) in
  let a := Vec [1; 0; 0; 1] in
  exists r e',
    step a e = Ok (r, e') /\
    exists sp action e1,
      action_space e = Some sp /\
      _update_state action e = Ok e1 /\ next_state r = state e1 /\
      length action = num_trajectories e /\
      Forall (fun row => length row = space_shape0 sp) action /\
      concat action = flatten a.
Proof.
  intros e a. do 2 eexists. split; [vm_compute; reflexivity|].
  eapply step_hands_on_the_action_in_row_major_order with (a := a) (e := e).
  vm_compute. reflexivity.
Defined.

Lemma seed_without_a_value_raises_witness :
  let e := Fixture.make (Fixture.config "limit" 2 4 (Some 1%N)) in
  reachable e /\ seed None e = Raise TypeError.
Proof.
  intros e.
  assert (Hr : reachable e).
  { apply (reach_init (Fixture.config "limit" 2 4 (Some 1%N))).
    vm_compute. reflexivity. }
  split; [exact Hr|]. exact (seed_without_a_value_raises Hr).
Defined.

(** Two trajectories turned into three. *)
Lemma num_trajectories_setter_keeps_the_arrays_witness :
  let e := Fixture.make (Fixture.config "limit" 2 4 (Some 1%N)) in
  exists e',
    set_num_trajectories 3 e = Ok e' /\
    num_trajectories e' = 3%nat /\
    state e' = state e /\ multiplier e' = multiplier e /\
    empty_infos e' = empty_infos e /\
    observation_space e' = observation_space e /\
    action_space e' = action_space e.
Proof.
  intros e. eexists. split; [vm_compute; reflexivity|].
  eapply num_trajectories_setter_keeps_the_arrays with (e := e).
  vm_compute. reflexivity.
Defined.

(** ** The state a reset starts from *)

Lemma setcol_column (j : nat) (a : ndarray) (m m' : matrix) :
  setcol j a m = Ok m' ->
  exists v, broadcast_to_view (length m) a = Ok v /\
    map (fun r => nth j r 0) m' = v /\
    Forall2 (fun r r' => length r' = length r /\ (j < length r)%nat /\
                         forall k, k <> j -> nth k r' 0 = nth k r 0) m m'.
Proof.
  intros H. destruct (setcol_ok _ _ _ H) as (v & Hv & Hl & Hw & Hi).
  pose proof (broadcast_to_view_length _ _ Hv) as Hlv.
  exists v. split; [exact Hv|]. split.
  - apply nth_error_ext. intros i. rewrite nth_error_map.
    destruct (nth_error m i) as [r|] eqn:Er.
    + destruct (Hi i r Er) as (x & Hx & Hm'). rewrite Hm', Hx. simpl.
      rewrite Forall_forall in Hw. f_equal. apply nth_set_nth_same.
      apply Hw. eapply nth_error_In; eauto.
    + apply nth_error_None in Er.
      assert (E1 : nth_error m' i = None) by (apply nth_error_None; lia).
      assert (E2 : nth_error v i = None) by (apply nth_error_None; lia).
      now rewrite E1, E2.
  - apply Forall2_by_index; [congruence|].
    intros i r Hr. destruct (Hi i r Hr) as (x & Hx & Hm').
    eexists. split; [exact Hm'|].
    rewrite Forall_forall in Hw.
    split; [apply set_nth_length|]. split.
    + apply Hw. eapply nth_error_In; eauto.
    + intros k Hk. apply nth_set_nth_other. congruence.
Qed.

Section Reset.

Context {P R G : Type}.
Context {PM : Process.StochasticProcessModel P}.
Context {RF : Reward.RewardFunction R}.
Context {RG : Random.Generator G}.

Local Abbreviation Env := (@Env P R G).

Lemma initial_state_columns (e e' : Env) (st : matrix) :
  initial_state e = Ok (st, e') ->
  length st = num_trajectories e /\
  map (fun row => nth CASH_INDEX row 0) st =
    repeat (initial_cash e) (num_trajectories e) /\
  exists e0 inv col,
    rng e0 = rng e /\ initial_inventory e0 = initial_inventory e /\
    num_trajectories e0 = num_trajectories e /\
    _get_initial_inventories e0 = Ok (inv, e') /\
    broadcast_to_view (num_trajectories e) inv = Ok col /\
    map (fun row => nth INVENTORY_INDEX row 0) st = col.
Proof.
  unfold initial_state. intros H. split_ok H.
  assert (Hsame : rng e0 = rng e /\ initial_inventory e0 = initial_inventory e /\
                  num_trajectories e0 = num_trajectories e).
  { unfold _get_start_time in Hc. destruct (start_time e); split_ok Hc;
      repeat split. }
  apply setcol_column in Hc0 as (v1 & Hv1 & Hcol1 & Hr1).
  apply setcol_column in Hc2 as (v3 & Hv3 & Hcol3 & Hr3).
  apply append_initial_vector_states_rows in Hc3.
  pose proof (Forall2_length Hr1) as Hl1.
  pose proof (Forall2_length Hr3) as Hl3.
  pose proof (Forall2_length Hc3) as Hl4.
  rewrite repeat_length in Hl1.
  assert (Hwide : Forall (fun r => (INVENTORY_INDEX < length r)%nat) x0).
  { clear - Hr3. induction Hr3 as [|r r' m m' (Hl & Hlt & _) _ IH];
      constructor; [now rewrite Hl|exact IH]. }
  assert (Hkeep : forall j, (j < 2)%nat ->
            map (fun r => nth j r 0) st = map (fun r => nth j r 0) x0).
  { intros j Hj. clear - Hc3 Hwide Hj.
    induction Hc3 as [|r r' m m' (ext & ->) _ IH]; [reflexivity|].
    inversion Hwide; subst. simpl. rewrite IH by assumption.
    rewrite app_nth1; [reflexivity|]. unfold INVENTORY_INDEX in *. lia. }
  assert (Hcash3 : map (fun r => nth CASH_INDEX r 0) x0 =
                   map (fun r => nth CASH_INDEX r 0) x).
  { clear - Hr3. induction Hr3 as [|r r' m m' (_ & _ & Hk) _ IH]; [reflexivity|].
    simpl. rewrite IH, Hk; [reflexivity|discriminate]. }
  assert (Hcash1 : map (fun r => nth CASH_INDEX r 0) x =
                   map (fun r => nth CASH_INDEX r 0)
                       (repeat [initial_cash e; 0; 0] (num_trajectories e))).
  { clear - Hr1. induction Hr1 as [|r r' m m' (_ & _ & Hk) _ IH]; [reflexivity|].
    simpl. rewrite IH, Hk; [reflexivity|discriminate]. }
  split; [congruence|]. split.
  - rewrite (Hkeep CASH_INDEX) by (unfold CASH_INDEX; lia).
    rewrite Hcash3, Hcash1, map_repeat. reflexivity.
  - destruct Hsame as (Hg & Hi & Hn).
    exists e0, n, v3. repeat split; auto.
    + rewrite Hl1. exact Hv3.
    + rewrite (Hkeep INVENTORY_INDEX) by (unfold INVENTORY_INDEX; lia). exact Hcol3.
Qed.

(** A reset returns the state it stores: one row per trajectory, every
    row with the initial cash; with an integer initial inventory every
    row holds that integer, and with a pair the inventories are one draw
    of the environment's own generator over the range the pair gives,
    which the reset leaves advanced. *)
Theorem reset_starts_from_the_initial_cash_and_inventory (e e' : Env)
  (st : matrix) :
  reset e = Ok (st, e') ->
  state e' = st /\ length st = num_trajectories e /\
  map (fun row => nth CASH_INDEX row 0) st =
    repeat (initial_cash e) (num_trajectories e) /\
  (forall z, initial_inventory e = InvInt z ->
     Forall (fun x => x == inject_Z z)
       (map (fun row => nth INVENTORY_INDEX row 0) st) /\
     rng e' = rng e) /\
  (forall low high, initial_inventory e = InvTuple [low; high] ->
     exists v g col,
       Random.integers low high (num_trajectories e) (rng e) = Ok (v, g) /\
       rng e' = g /\
       broadcast_to_view (num_trajectories e) (Vec v) = Ok col /\
       map (fun row => nth INVENTORY_INDEX row 0) st = col).
Proof.
  unfold reset. intros H. split_ok H. rename x into e1. rename e0 into e2.
  assert (Hg : rng e1 = rng e)
    by (apply (reset_processes_keeps rng e); [store_frame|exact Hc]).
  assert (Hi : initial_inventory e1 = initial_inventory e)
    by (apply (reset_processes_keeps initial_inventory e); [store_frame|exact Hc]).
  assert (Hc' : initial_cash e1 = initial_cash e)
    by (apply (reset_processes_keeps initial_cash e); [store_frame|exact Hc]).
  assert (Hn : num_trajectories e1 = num_trajectories e)
    by (apply (reset_processes_keeps num_trajectories e); [store_frame|exact Hc]).
  apply initial_state_columns in Hc0
    as (Hlen & Hcash & em & inv & col & Hg0 & Hi0 & Hn0 & Hinv & Hcol & Hmap).
  rewrite Hn in *. rewrite Hc' in Hcash.
  split; [reflexivity|]. split; [exact Hlen|]. split; [exact Hcash|].
  unfold _get_initial_inventories in Hinv. rewrite Hi0, Hi in Hinv.
  cbn [rng set_reward_function set_state].
  split.
  - intros z Hz. rewrite Hz in Hinv. injection Hinv as Hinv He. subst inv em.
    split; [|congruence].
    rewrite Hmap. cbn [broadcast_to_view] in Hcol. rewrite length_map in Hcol.
    unfold ones in Hcol. rewrite repeat_length, Hn0, Nat.eqb_refl in Hcol.
    injection Hcol as <-. apply Forall_forall. intros y Hy.
    apply in_map_iff in Hy as (o & <- & Ho). apply repeat_spec in Ho. subst o.
    ring.
  - intros low high Hz. rewrite Hz in Hinv. split_ok Hinv.
    rewrite Hn0, Hg0, Hg in *.
    do 3 eexists. split; [eassumption|]. split; [reflexivity|].
    split; [exact Hcol|reflexivity].
Qed.

End Reset.

(** A reset of a two-trajectory environment whose initial inventory is a
    pair: the inventories are the generator's draw over [-1, 2). *)
Lemma reset_starts_from_the_initial_cash_and_inventory_witness :
  let e := Fixture.make
             (with_initial_inventory (InvTuple [- (1); 2])
                (Fixture.config "touch" 2 4 (Some 1%N))) in
  exists st e',
    reset e = Ok (st, e') /\
    (
      state e' = st /\ length st = num_trajectories e /\
      map (fun row => nth CASH_INDEX row 0) st =
        repeat (initial_cash e) (num_trajectories e) /\
      (forall z, initial_inventory e = InvInt z ->
         Forall (fun x => x == inject_Z z)
           (map (fun row => nth INVENTORY_INDEX row 0) st) /\
         rng e' = rng e) /\
      (forall low high, initial_inventory e = InvTuple [low; high] ->
         exists v g col,
           Random.integers low high (num_trajectories e) (rng e) = Ok (v, g) /\
           rng e' = g /\
           broadcast_to_view (num_trajectories e) (Vec v) = Ok col /\
           map (fun row => nth INVENTORY_INDEX row 0) st = col)).
Proof.
  intros e. do 2 eexists. split; [vm_compute; reflexivity|].
  eapply reset_starts_from_the_initial_cash_and_inventory with (e := e).
  vm_compute. reflexivity.
Defined.

(** ** What the constructor derives *)

Lemma fold_left_app_flat_map {A B : Type} (g : A -> list B) (l : list A)
  (init : list B) :
  fold_left (fun acc x => acc ++ g x) l init = init ++ flat_map g l.
Proof.
  revert init. induction l as [|x l IH]; intros init; simpl.
  - now rewrite app_nil_r.
  - now rewrite IH, app_assoc.
Qed.

Section Defaults.

Context {P R G : Type}.
Context {PM : Process.StochasticProcessModel P}.
Context {RF : Reward.RewardFunction R}.
Context {RG : Random.Generator G}.

Local Abbreviation Env := (@Env P R G).

Lemma _get_observation_space_bounds (e : Env) :
  _get_observation_space e =
    Box (map Some (fst (observation_bounds e)))
        (map Some (snd (observation_bounds e))).
Proof.
  unfold _get_observation_space, observation_bounds. cbn [fst snd].
  now rewrite !fold_left_app_flat_map.
Qed.

(** The constructor replaces a bound that is absent or zero by its
    default: max_stock_price by the first entry of the midprice model's
    maximal value, max_cash by n_steps times max_stock_price, max_depth
    and max_speed by what the fill-probability and price-impact models
    give (nothing when the model is absent).  A nonzero bound is kept.
    The observation space is the box of these bounds, followed by the
    bounds of the registered processes. *)
Theorem constructor_defaults (c : Config) (e : Env) :
  init c = Ok e ->
  (truthy (cfg_max_stock_price c) = true ->
   cfg_max_stock_price c = Some (max_stock_price e)) /\
  (truthy (cfg_max_stock_price c) = false ->
   item 0 0 (Process.max_value (midprice_model e)) = Ok (max_stock_price e)) /\
  max_cash e =
    value_or (cfg_max_cash c) (inject_Z (cfg_n_steps c) * max_stock_price e) /\
  max_depth e = py_or (cfg_max_depth c) (_get_max_depth e) /\
  max_speed e = py_or (cfg_max_speed c) (_get_max_speed e) /\
  observation_space e =
    Box (map Some (fst (observation_bounds e)))
        (map Some (snd (observation_bounds e))).
Proof.
  unfold init. intros H. split_ok H.
  match goal with
  | Hs : match cfg_seed c with _ => _ end = Ok ?e1,
    Hi : initial_state ?e1 = Ok (?st, ?e2) |- _ =>
      apply (init_seed_frame (cfg_seed c)) in Hs as (_ & Ht1 & _);
      apply initial_state_frame in Hi as (_ & Ht2 & _);
      assert (Hn : n_steps e2 = cfg_n_steps c)
        by (unfold static in *; cbn in Ht1; congruence)
  end.
  split; [|split; [|split; [|split; [|split]]]].
  - intros Ht. cbn.
    match goal with
    | Hm : (if truthy (cfg_max_stock_price c) then _ else _) = Ok ?m |- _ =>
        rewrite Ht in Hm; destruct (cfg_max_stock_price c); [|discriminate];
        cbn in Hm; congruence
    end.
  - intros Ht. cbn.
    match goal with
    | Hm : (if truthy (cfg_max_stock_price c) then _ else _) = Ok ?m |- _ =>
        rewrite Ht in Hm; exact Hm
    end.
  - cbn.
    match goal with
    | Hm : (if truthy (cfg_max_cash c) then _ else _) = Ok ?m |- _ =>
        unfold value_or; unfold truthy in Hm;
        destruct (cfg_max_cash c) as [v|];
          [destruct (Qeq_bool v 0); cbn in Hm|cbn in Hm];
          injection Hm as <-; try reflexivity;
          unfold _get_max_cash; cbn; now rewrite Hn
    end.
  - reflexivity.
  - reflexivity.
  - cbn [observation_space set_action_space set_observation_space].
    rewrite _get_observation_space_bounds. reflexivity.
Qed.

End Defaults.

(** A constructor call with max_cash = 0: the bound becomes 4 steps times
    the midprice model's maximal value of 1000. *)
Lemma constructor_defaults_witness :
  let c := with_max_cash (Some 0) (Fixture.config "touch" 2 4 (Some 1%N)) in
  exists e : Fixture.ToyEnv,
    init c = Ok e /\ Qred (max_cash e) = 4000 /\
    max_cash e =
      value_or (cfg_max_cash c) (inject_Z (cfg_n_steps c) * max_stock_price e).
Proof.
  intros c. eexists. split; [vm_compute; reflexivity|].
  split; [vm_compute; reflexivity|].
  eapply (constructor_defaults c). vm_compute. reflexivity.
Defined.

(** ** The layout of the process columns *)

Lemma lookup_indices_skip (name : string) (pre rest : list (string * (nat * nat)))
  (r : nat * nat) :
  ~ In name (map fst pre) ->
  lookup_indices name (pre ++ (name, r) :: rest) = Ok r.
Proof.
  unfold lookup_indices. induction pre as [|[n0 r0] pre IH]; simpl; intros Hn.
  - now rewrite String.eqb_refl.
  - destruct (String.eqb_spec n0 name) as [->|_]; [tauto|]. apply IH. tauto.
Qed.

Lemma row_slice_same_below (lo hi : nat) (r r' : list Q) :
  same_below hi r r' -> row_slice lo hi r' = row_slice lo hi r.
Proof.
  intros [Hl Hb]. unfold row_slice. apply nth_ext with (d := 0) (d' := 0).
  - rewrite !length_firstn, !length_skipn. lia.
  - intros k Hk. rewrite length_firstn, length_skipn in Hk.
    rewrite !nth_firstn.
    destruct (Nat.ltb k (hi - lo)) eqn:E; [|reflexivity].
    apply Nat.ltb_lt in E. rewrite !nth_skipn. apply Hb. lia.
Qed.

Lemma splice_row_slice (lo hi : nat) (src row row' : list Q) :
  splice_row lo hi src row = Ok row' ->
  (lo <= hi)%nat -> (hi <= length row)%nat -> length src = (hi - lo)%nat ->
  row_slice lo hi row' = src.
Proof.
  unfold splice_row, row_slice. intros H Hlo Hhi Hs.
  replace (Nat.min lo (length row)) with lo in H by lia.
  replace (Nat.max lo (Nat.min hi (length row))) with hi in H by lia.
  rewrite Hs, Nat.eqb_refl in H. inversion H.
  rewrite skipn_app, length_firstn.
  replace (Nat.min lo (length row)) with lo by lia.
  rewrite Nat.sub_diag. cbn [skipn].
  rewrite skipn_all2 by (rewrite length_firstn; lia). cbn [app].
  rewrite <- Hs. rewrite firstn_app, Nat.sub_diag, firstn_all. cbn [firstn].
  now rewrite app_nil_r.
Qed.

(** The row that [m[:, lo:hi] = src] writes at an index where the source
    has a row. *)
Lemma set_slice_index (lo hi : nat) (src m m' : matrix) (i : nat)
  (srow row' : list Q) :
  set_slice lo hi (Mat src) m = Ok m' ->
  nth_error src i = Some srow -> nth_error m' i = Some row' ->
  exists row, nth_error m i = Some row /\ splice_row lo hi srow row = Ok row'.
Proof.
  unfold set_slice. cbn [as2d]. intros H Hs Hr.
  destruct (Nat.eqb (length src) (length m)).
  - destruct (zipWithM_index_inv _ _ _ _ H Hr) as (s & row & Hs' & Hrow & Hsp).
    exists row. split; [exact Hrow|]. congruence.
  - destruct (Nat.eqb (length src) 1) eqn:E; [|discriminate].
    apply Nat.eqb_eq in E.
    destruct (zipWithM_index_inv _ _ _ _ H Hr) as (s & row & Hs' & Hrow & Hsp).
    exists row. split; [exact Hrow|].
    apply nth_error_In, repeat_spec in Hs'. subst s.
    destruct src as [|s0 [|]]; try discriminate.
    destruct i as [|i]; [|destruct i; discriminate].
    simpl in Hs. inversion Hs. subst. exact Hsp.
Qed.

Section Columns.

Context {P R G : Type}.
Context {PM : Process.StochasticProcessModel P}.
Context {RF : Reward.RewardFunction R}.
Context {RG : Random.Generator G}.

Local Abbreviation Env := (@Env P R G).

Lemma indices_from_tiles (e : Env) (names : list string) :
  NoDup names ->
  (forall n, In n names -> getattr n e <> None) ->
  forall count pre,
    (forall n, In n names -> ~ In n (map fst pre)) ->
    tiles (pre ++ indices_from count names e) count names.
Proof.
  induction 1 as [|name names Hnotin Hnd IH]; intros Hget count pre Hpre;
    [exact I|].
  cbn [tiles indices_from].
  destruct (getattr name e) as [p|] eqn:Ep.
  2:{ exfalso. apply (Hget name); [now left|exact Ep]. }
  eexists. split; [|split].
  - apply lookup_indices_skip. apply Hpre. now left.
  - lia.
  - match goal with
    | |- tiles (pre ++ ?entry :: ?rest) _ _ =>
        replace (pre ++ entry :: rest) with ((pre ++ [entry]) ++ rest)
          by (rewrite <- app_assoc; reflexivity)
    end.
    apply IH.
    + intros n Hn. apply Hget. now right.
    + intros n Hn. rewrite map_app, in_app_iff. cbn [map fst].
      intros [Hin|[<-|[]]]; [|contradiction].
      revert Hin. apply Hpre. now right.
Qed.

Lemma registered_present (e : Env) (n : string) :
  In n (_get_stochastic_processes e) -> getattr n e <> None.
Proof.
  unfold _get_stochastic_processes. intros H.
  apply filter_In in H as [_ Hp]. intros E. rewrite E in Hp. discriminate.
Qed.

Lemma init_tiles (c : Config) (e : Env) :
  init c = Ok e ->
  tiles (stochastic_process_indices e) 3 (stochastic_processes e).
Proof.
  unfold init. intros H. split_ok H.
  match goal with
  | Hs : match cfg_seed c with _ => _ end = Ok ?e1,
    Hi : initial_state ?e1 = Ok (?st, ?e2) |- _ =>
      apply (init_seed_frame (cfg_seed c)) in Hs as (Hl1 & Ht1 & _);
      apply initial_state_frame in Hi as (Hl2 & Ht2 & _);
      change (stochastic_processes (set_action_space _ _))
        with (stochastic_processes e2);
      change (stochastic_process_indices (set_action_space _ _))
        with (stochastic_process_indices e2);
      replace (stochastic_processes e2) with (stochastic_processes e1)
        by (unfold static in Ht2; congruence);
      replace (stochastic_process_indices e2) with (stochastic_process_indices e1)
        by (unfold layout in Hl2; congruence)
  end.
  unfold static in Ht1. unfold layout in Hl1.
  cbn [stochastic_processes stochastic_process_indices
       set_stochastic_process_indices set_stochastic_processes] in Ht1, Hl1.
  injection Ht1 as _ _ _ _ _ Hn _ _ _ _ _ _. injection Hl1 as Hidx _ _.
  rewrite Hn, Hidx. unfold _get_stochastic_process_indices.
  cbn [stochastic_processes set_stochastic_processes].
  match goal with
  | |- tiles (indices_from 3 ?names ?e0) 3 ?names =>
      apply (@indices_from_tiles e0 names) with (pre := [])
  end.
  - unfold _get_stochastic_processes. apply NoDup_filter. unfold PROCESS_NAMES.
    repeat constructor; simpl; intuition discriminate.
  - intros n Hn'. apply registered_present in Hn'. exact Hn'.
  - intros n _ [].
Qed.

Lemma reachable_tiles (e : Env) :
  reachable e ->
  tiles (stochastic_process_indices e) 3 (stochastic_processes e).
Proof.
  induction 1 as [c e H|e e' st _ IH H|e e' a r _ IH H|e e' s _ IH H
                 |e e' v _ IH H|e e' v _ IH H].
  - eapply init_tiles; eauto.
  - apply reset_frame in H as (Hl & Ht & _). unfold static in Ht. unfold layout in Hl.
    replace (stochastic_processes e') with (stochastic_processes e) by congruence.
    replace (stochastic_process_indices e') with (stochastic_process_indices e)
      by congruence.
    exact IH.
  - apply step_ok in H as (Hl & Ht & _). unfold static in Ht. unfold layout in Hl.
    replace (stochastic_processes e') with (stochastic_processes e) by congruence.
    replace (stochastic_process_indices e') with (stochastic_process_indices e)
      by congruence.
    exact IH.
  - apply seed_frame in H as (Hl & Ht & _). unfold static in Ht. unfold layout in Hl.
    replace (stochastic_processes e') with (stochastic_processes e) by congruence.
    replace (stochastic_process_indices e') with (stochastic_process_indices e)
      by congruence.
    exact IH.
  - rewrite (set_step_size_names _ _ H).
    apply set_step_size_frame in H as (Hl & _). unfold layout in Hl.
    replace (stochastic_process_indices e') with (stochastic_process_indices e)
      by congruence.
    exact IH.
  - rewrite (set_num_trajectories_names _ _ H).
    apply set_num_trajectories_frame in H as (Hl & _). unfold layout in Hl.
    replace (stochastic_process_indices e') with (stochastic_process_indices e)
      by congruence.
    exact IH.
Qed.

(** The registry of a reachable environment lists each process once,
    the midprice model first, and the slices of the registered processes
    tile the columns of the state from column 3 on, in registry order:
    every registered name can be looked up, the midprice model's slice
    starts at column 3 and every other slice starts where its
    predecessor's ends, so no two slices overlap and none reaches into
    the agent's columns.  No method changes this layout. *)
Theorem process_slices_tile_the_state (e : Env) :
  reachable e ->
  NoDup (stochastic_processes e) /\
  (exists rest, stochastic_processes e = "midprice_model" :: rest) /\
  tiles (stochastic_process_indices e) 3 (stochastic_processes e).
Proof.
  intros Hr. split; [|split].
  - now apply reachable_names_nodup.
  - now apply reachable_names_head.
  - now apply reachable_tiles.
Qed.

(** The loop of [_update_market_state] over a tail of the registry. *)
Lemma market_loop arrivals fills action (names : list string) :
  NoDup names ->
  forall (i0 count : nat) (e e' : Env),
    tiles (stochastic_process_indices e) count names ->
    for_processes
      (fun _ process_name process e =>
         process <- Process.update arrivals fills action process ;;
         let e := store process_name process e in
         ' (lower_index, upper_index) <-
           lookup_indices process_name (stochastic_process_indices e) ;;
         st <- set_slice lower_index upper_index
                 (Mat (Process.current_state process)) (state e) ;;
         Ok (set_state st e))
      i0 names e = Ok e' ->
    stochastic_process_indices e' = stochastic_process_indices e /\
    Forall2 (same_below count) (state e) (state e') /\
    (forall n, ~ In n names -> getattr n e' = getattr n e) /\
    forall n lo hi p',
      In n names ->
      lookup_indices n (stochastic_process_indices e) = Ok (lo, hi) ->
      getattr n e' = Some p' ->
      exists p, getattr n e = Some p /\
        Process.update arrivals fills action p = Ok p' /\
        forall i row' srow,
          nth_error (state e') i = Some row' ->
          nth_error (Process.current_state p') i = Some srow ->
          length srow = (hi - lo)%nat -> (hi <= length row')%nat ->
          row_slice lo hi row' = srow.
Proof.
  induction 1 as [|name names Hnotin Hnd IH]; intros i0 count e e' Ht H.
  - simpl in H. inversion H. subst e'. repeat split; auto.
    + apply Forall2_refl_of, same_below_refl.
    + intros n lo hi p' [].
  - cbn [tiles] in Ht. destruct Ht as (hi0 & Hlk & Hle & Ht).
    cbn [for_processes] in H.
    destruct (getattr name e) as [p|] eqn:Ep.
    + split_ok H.
      match goal with
      | H1 : Process.update _ _ _ p = Ok ?p1,
        H2 : lookup_indices name _ = Ok _,
        H3 : set_slice _ _ _ _ = Ok ?st1,
        H4 : for_processes _ _ names _ = Ok e' |- _ =>
          rename p1 into P1; rename st1 into S1;
          rename H1 into Hup; rename H2 into Hlk'; rename H3 into Hset;
          rename H4 into Hrest
      end.
      assert (Hidx1 : stochastic_process_indices (store name P1 e) =
                      stochastic_process_indices e).
      { pose proof (store_layout name P1 e) as Hl. unfold layout in Hl. congruence. }
      rewrite Hidx1, Hlk in Hlk'. injection Hlk' as <- <-.
      rewrite store_state in Hset.
      apply IH with (count := hi0) in Hrest as (Hi' & Hs' & Hout & Hin).
      2:{ cbn [stochastic_process_indices set_state]. now rewrite Hidx1. }
      cbn [stochastic_process_indices set_state state] in Hi', Hs', Hin.
      rewrite Hidx1 in Hi', Hin.
      assert (Hget2 : forall n, n <> name ->
                getattr n (set_state S1 (store name P1 e)) = getattr n e).
      { intros n Hne.
        change (getattr n (set_state S1 (store name P1 e)))
          with (getattr n (store name P1 e)).
        now apply getattr_store_other. }
      assert (Hsame2 : getattr name (set_state S1 (store name P1 e)) = Some P1).
      { change (getattr name (set_state S1 (store name P1 e)))
          with (getattr name (store name P1 e)).
        eapply getattr_store_same. exact Ep. }
      split; [exact Hi'|]. split; [|split].
      * eapply same_below_chain; [eapply set_slice_same_below; exact Hset|].
        eapply Forall2_impl; [|exact Hs']. intros r r'.
        now apply same_below_weaken.
      * intros n Hn. rewrite Hout by (intros Hin'; apply Hn; now right).
        apply Hget2. intros ->. apply Hn. now left.
      * intros n lo hi p' [<-|Hn] Hl Hp'.
        -- rewrite Hlk in Hl. injection Hl as <- <-.
           rewrite (Hout _ Hnotin), Hsame2 in Hp'. injection Hp' as <-.
           exists p. split; [exact Ep|]. split; [exact Hup|].
           intros i row' srow Hrow' Hsrow Hlen Hwide.
           assert (Hi1 : exists row1, nth_error S1 i = Some row1).
           { destruct (nth_error S1 i) as [r1|] eqn:E1; [eauto|].
             apply nth_error_None in E1.
             pose proof (Forall2_length Hs') as Hl1.
             assert (i < length (state e'))%nat
               by (apply nth_error_Some; congruence).
             lia. }
           destruct Hi1 as (row1 & Hrow1).
           destruct (Forall2_index Hs' _ Hrow1) as (row2 & Hrow2 & Hsb).
           assert (row2 = row') by congruence. subst row2.
           rewrite (@row_slice_same_below count hi0 _ _ Hsb).
           destruct (@set_slice_index _ _ _ _ _ _ _ _ Hset Hsrow Hrow1)
             as (row0 & Hrow0 & Hsp).
           eapply splice_row_slice; [exact Hsp|exact Hle| |exact Hlen].
           destruct Hsb as [Hl2 _].
           apply splice_row_same_below in Hsp as [Hl0 _]. lia.
        -- assert (Hne : n <> name) by (intros ->; contradiction).
           destruct (Hin n lo hi p' Hn Hl Hp') as (p0 & Hp0 & Hrest').
           exists p0. split; [|exact Hrest'].
           now rewrite <- (Hget2 n Hne).
    + apply IH with (count := hi0) in H as (Hi' & Hs' & Hout & Hin); [|exact Ht].
      split; [exact Hi'|]. split; [|split].
      * eapply Forall2_impl; [|exact Hs']. intros r r'.
        now apply same_below_weaken.
      * intros n Hn. apply Hout. intros Hin'. apply Hn. now right.
      * intros n lo hi p' [<-|Hn] Hl Hp'.
        -- rewrite (Hout _ Hnotin) in Hp'. congruence.
        -- now apply Hin.
Qed.

End Columns.

Section Slices.

Context {P R G : Type}.
Context {PM : Process.StochasticProcessModel P}.
Context {RF : Reward.RewardFunction R}.
Context {RG : Random.Generator G}.

Local Abbreviation Env := (@Env P R G).

Lemma _update_state_market action (e e' : Env) :
  _update_state action e = Ok e' ->
  exists arrivals fills e1,
    _update_market_state arrivals fills action e1 = Ok e' /\
    layout e1 = layout e /\ static e1 = static e.
Proof.
  unfold _update_state. intros H. split_ok H.
  match goal with
  | H1 : _update_agent_state ?a ?f _ ?e0 = Ok ?e1,
    H2 : _update_market_state _ _ _ _ = Ok _ |- _ =>
      exists a, f, e1; split; [exact H2|];
      apply _update_agent_state_ok in H1 as (Hl1 & Ht1 & _);
      assert (Hpre : layout e0 = layout e /\ static e0 = static e)
  end.
  { destruct (str_in _ _).
    - split_ok Hc.
      match goal with
      | H1 : _get_arrivals_and_fills _ _ = Ok _ |- _ =>
          apply _get_arrivals_and_fills_frame in H1 as (_ & Hl & Ht & _)
      end.
      split; assumption.
    - inversion Hc. auto. }
  destruct Hpre as [Hl0 Ht0]. split; congruence.
Qed.

(** After every step the slice of each registered process holds that
    process's current state: for every trajectory for which the process's
    state has a row of the width of the slice, the columns of the slice
    in the returned state are that row.  In particular the asset-price
    column is the midprice model's state after the step. *)
Theorem step_writes_the_processes_into_their_slices (a : ndarray) (e e' : Env)
  (r : StepResult) :
  reachable e ->
  step a e = Ok (r, e') ->
  forall n lo hi p',
    In n (stochastic_processes e) ->
    lookup_indices n (stochastic_process_indices e) = Ok (lo, hi) ->
    getattr n e' = Some p' ->
    forall i row' srow,
      nth_error (next_state r) i = Some row' ->
      nth_error (Process.current_state p') i = Some srow ->
      length srow = (hi - lo)%nat -> (hi <= length row')%nat ->
      row_slice lo hi row' = srow.
Proof.
  intros Hreach H n lo hi p' Hn Hlk Hp' i row' srow Hrow' Hsrow Hlen Hwide.
  pose proof (reachable_tiles Hreach) as Ht.
  pose proof (reachable_names_nodup Hreach) as Hnd.
  unfold step in H. split_ok H.
  match goal with
  | H1 : _update_state _ e = Ok ?eU |- _ =>
      apply _update_state_market in H1 as (arrivals & fills & e1 & Hm & Hl & Hs);
      change (getattr n eU = Some p') in Hp';
      change (nth_error (state eU) i = Some row') in Hrow'
  end.
  assert (Hidx : stochastic_process_indices e1 = stochastic_process_indices e)
    by (unfold layout in Hl; congruence).
  assert (Hnames : stochastic_processes e1 = stochastic_processes e)
    by (unfold static in Hs; congruence).
  unfold _update_market_state in Hm. rewrite Hnames in Hm.
  apply market_loop with (count := 3%nat) in Hm as (_ & _ & _ & Hin);
    [|exact Hnd|rewrite Hidx; exact Ht].
  rewrite Hidx in Hin.
  destruct (Hin n lo hi p' Hn Hlk Hp') as (p & _ & _ & Hrows).
  now apply (Hrows i row' srow).
Qed.

End Slices.

(** A step of a speed environment of two trajectories, looked at through
    the slice of its midprice model. *)
Lemma step_writes_the_processes_into_their_slices_witness :
  let e := Fixture.make (Fixture.config "speed" 2 4 (Some 1%N)) in
  let a := Mat [[4]; [- (8)]] in
  exists r e',
    step a e = Ok (r, e') /\
    (forall n lo hi p',
       In n (stochastic_processes e) ->
       lookup_indices n (stochastic_process_indices e) = Ok (lo, hi) ->
       getattr n e' = Some p' ->
       forall i row' srow,
         nth_error (next_state r) i = Some row' ->
         nth_error (Process.current_state p') i = Some srow ->
         length srow = (hi - lo)%nat -> (hi <= length row')%nat ->
         row_slice lo hi row' = srow).
Proof.
  intros e a. do 2 eexists. split; [vm_compute; reflexivity|].
  eapply step_writes_the_processes_into_their_slices with (a := a) (e := e).
  - apply (reach_init (Fixture.config "speed" 2 4 (Some 1%N))).
    vm_compute. reflexivity.
  - vm_compute. reflexivity.
Defined.

Lemma process_slices_tile_the_state_witness :
  let e := Fixture.make (Fixture.config "limit" 2 4 (Some 1%N)) in
  reachable e /\
  stochastic_process_indices e =
    [("midprice_model", (3, 4)); ("arrival_model", (4, 5));
     ("fill_probability_model", (5, 6)); ("price_impact_model", (6, 7))]%nat /\
  NoDup (stochastic_processes e) /\
  (exists rest, stochastic_processes e = "midprice_model" :: rest) /\
  tiles (stochastic_process_indices e) 3 (stochastic_processes e).
Proof.
  intros e.
  assert (Hr : reachable e).
  { apply (reach_init (Fixture.config "limit" 2 4 (Some 1%N))).
    vm_compute. reflexivity. }
  split; [exact Hr|]. split; [vm_compute; reflexivity|].
  exact (process_slices_tile_the_state Hr).
Defined.

(** ** The action space *)

Lemma str_in_cases (s : string) (l : list string) :
  str_in s l = true -> In s l.
Proof.
  unfold str_in. intros H. apply existsb_exists in H as (x & Hin & Hx).
  apply String.eqb_eq in Hx. now subst.
Qed.

Section ActionSpace.

Context {P R G : Type}.
Context {PM : Process.StochasticProcessModel P}.
Context {RF : Reward.RewardFunction R}.
Context {RG : Random.Generator G}.

Local Abbreviation Env := (@Env P R G).

(** What [_get_action_space] returns in each of the four regimes. *)
Lemma _get_action_space_cases (e : Env) (sp : option Space) :
  _get_action_space e = Ok sp -> In (action_type e) ACTION_TYPES ->
  (action_type e = "touch" /\ sp = Some (MultiBinary 2)) \/
  (action_type e = "limit" /\
   exists d, max_depth e = Some d /\
     sp = Some (Box [Some 0; Some 0] [Some d; Some d])) \/
  (action_type e = "limit_and_market" /\
   sp = Some (Box [Some 0; Some 0; Some 0; Some 0]
                  [max_depth e; max_depth e; Some 1; Some 1])) \/
  (action_type e = "speed" /\
   exists ms, max_speed e = Some ms /\
     sp = Some (Box [Some (- ms)] [Some ms])).
Proof.
  intros Hsp Hin.
  unfold ACTION_TYPES, MARKET_MAKING_ACTION_TYPES, EXECUTION_ACTION_TYPES in Hin.
  cbn [app In] in Hin. unfold _get_action_space in Hsp.
  destruct Hin as [Ha|[Ha|[Ha|[Ha|[]]]]]; symmetry in Ha;
    rewrite Ha in Hsp; cbn [String.eqb Ascii.eqb Bool.eqb] in Hsp.
  - left. split; [exact Ha|]. congruence.
  - right. left. split; [exact Ha|]. split_ok Hsp.
    match goal with
    | Hd : py_assert _ _ = Ok _ |- _ => apply py_assert_ok in Hd
    end.
    destruct (max_depth e) as [d|]; [|discriminate]. eauto.
  - right. right. left. split; [exact Ha|]. congruence.
  - right. right. right. split; [exact Ha|]. split_ok Hsp.
    destruct (max_speed e) as [m|]; [|discriminate].
    match goal with
    | Hn : the_number (Some m) = Ok ?v |- _ => cbn in Hn; injection Hn as <-
    end.
    eauto.
Qed.

(** The constructor ends with the assignment of the action space. *)
Lemma init_final (c : Config) (e : Env) :
  init c = Ok e ->
  exists e5 sp, e = set_action_space sp e5 /\ _get_action_space e5 = Ok sp.
Proof.
  unfold init. intros H. split_ok H.
  match goal with
  | Hsp : _get_action_space ?e5 = Ok ?sp |- _ =>
      exists e5, sp; split; [reflexivity|exact Hsp]
  end.
Qed.

(** A constructed environment is in one of the four regimes and has the
    action space of its regime: two binary flags for touch, two depths in
    [0, max_depth] for limit, two depths and two market-order flags for
    limit_and_market, one speed in [-max_speed, max_speed] for speed.
    The limit and speed regimes cannot be constructed without their
    bound; the limit_and_market box takes max_depth as it is. *)
Theorem action_space_of_a_constructed_environment (c : Config) (e : Env) :
  init c = Ok e ->
  action_type e = cfg_action_type c /\
  ((action_type e = "touch" /\ action_space e = Some (MultiBinary 2)) \/
   (action_type e = "limit" /\
    exists d, max_depth e = Some d /\
      action_space e = Some (Box [Some 0; Some 0] [Some d; Some d])) \/
   (action_type e = "limit_and_market" /\
    action_space e =
      Some (Box [Some 0; Some 0; Some 0; Some 0]
                [max_depth e; max_depth e; Some 1; Some 1])) \/
   (action_type e = "speed" /\
    exists ms, max_speed e = Some ms /\
      action_space e = Some (Box [Some (- ms)] [Some ms]))).
Proof.
  intros H. pose proof (init_ok _ H) as (_ & _ & _ & _ & Hat & _).
  pose proof (init_requirements _ H) as (_ & Hin & _).
  rewrite <- Hat in Hin. apply str_in_cases in Hin.
  split; [exact Hat|]. clear Hat.
  apply init_final in H as (e5 & sp & -> & Hsp).
  apply _get_action_space_cases in Hsp; [|exact Hin].
  destruct Hsp as [[Ha Hs]|[[Ha (d & Hd & Hs)]|[[Ha Hs]|[Ha (ms & Hm & Hs)]]]].
  - left. split; [exact Ha|exact Hs].
  - right. left. split; [exact Ha|]. exists d. split; [exact Hd|exact Hs].
  - right. right. left. split; [exact Ha|exact Hs].
  - right. right. right. split; [exact Ha|]. exists ms. split; [exact Hm|exact Hs].
Qed.

End ActionSpace.

Lemma action_space_of_a_constructed_environment_witness :
  let c := Fixture.config "speed" 2 4 (Some 1%N) in
  exists e : Fixture.ToyEnv,
    init c = Ok e /\
    action_space e = Some (Box [Some (- (10))] [Some 10]) /\
    action_type e = cfg_action_type c.
Proof.
  intros c. eexists. split; [vm_compute; reflexivity|].
  split; [vm_compute; reflexivity|].
  eapply (action_space_of_a_constructed_environment c). vm_compute. reflexivity.
Defined.
